(** * Lambda-to-Knative migrator: a shallow embedding of the transformation engine

    The development follows the Go program (package [main]):
    - the fragment of [go/ast] the program builds and inspects;
    - [analyzeHandlerSignature], [analyzeHandlerSignatureWithTypes];
    - [findLambdaHandler];
    - [removeLambdaImport], [addRequiredImports], [transformAST];
    - [createHandlerStruct], [createNewFunc], [createHandleMethod].

    Go strings are byte strings ([string]); Go [int] indices are [Z] where
    the program compares them with [-1], and [nat] where they index a slice. *)

From Stdlib Require Import String Ascii List ZArith Lia Bool Permutation.
From stdpp Require Import base option list strings gmap.

Import ListNotations.
Local Open Scope string_scope.
Local Open Scope Z_scope.

(** ** The [strings] package: the functions the program calls *)

Module strings.

(** [strings.Index(s, substr)]: index of the first instance of [substr]
    in [s], or [-1]. *)
Fixpoint IndexFrom (substr s : string) (i : Z) : Z :=
  if String.prefix substr s then i
  else match s with
       | EmptyString => -1
       | String _ s' => IndexFrom substr s' (i + 1)
       end.

Definition Index (s substr : string) : Z := IndexFrom substr s 0.

(** [strings.Contains(s, substr)] is [Index(s, substr) >= 0]. *)
Definition Contains (s substr : string) : bool := 0 <=? Index s substr.

(** [strings.Trim(s, cutset)] for a one-byte cutset: all leading and
    trailing occurrences of the byte are removed. *)
Fixpoint TrimLeft (s : string) (c : ascii) : string :=
  match s with
  | String a s' => if Ascii.eqb a c then TrimLeft s' c else s
  | EmptyString => EmptyString
  end.

Fixpoint TrimRight (s : string) (c : ascii) : string :=
  match s with
  | EmptyString => EmptyString
  | String a s' =>
      match TrimRight s' c with
      | EmptyString => if Ascii.eqb a c then EmptyString else String a EmptyString
      | t => String a t
      end
  end.

Definition Trim (s : string) (c : ascii) : string := TrimRight (TrimLeft s c) c.

End strings.

(** Go slice expressions on strings: [s[lo:hi]]. *)
Definition slice (s : string) (lo hi : nat) : string := substring lo (hi - lo) s.

Definition quote : ascii := "034"%char.
Definition quoted (s : string) : string := String quote (s ++ String quote EmptyString).

(** ** The fragment of [go/token] and [go/ast] used by the program *)

Inductive Token : Set :=
| IMPORT | TYPE | CONST | VAR
| DEFINE | ASSIGN
| STRING | INT
| AND | NEQ | ADD.

(** Induction principles for the nested syntax: the lists and options
    inside a node carry the induction hypothesis. *)
Scheme All for list.
Scheme All for option.

Inductive Expr : Set :=
| Ident (Name : string)
| BasicLit (Kind : Token) (Value : string)
| SelectorExpr (X : Expr) (Sel : string)
| CallExpr (Fun : Expr) (Args : list Expr)
| StarExpr (X : Expr)
| UnaryExpr (Op : Token) (X : Expr)
| BinaryExpr (X : Expr) (Op : Token) (Y : Expr)
| CompositeLit (Typ : option Expr) (Elts : list Expr)
| ArrayType (Elt : Expr)
| StructType (Fields : list Field)
| FuncLit (Params : list Field) (Results : list Field) (Body : list Stmt)
with Stmt : Set :=
| ExprStmt (X : Expr)
| AssignStmt (Lhs : list Expr) (Tok : Token) (Rhs : list Expr)
| ReturnStmt (Results : list Expr)
| IfStmt (Cond : Expr) (Body : list Stmt) (Else : option Stmt)
| BlockStmt (List : list Stmt)
| DeferStmt (Call : Expr)
with Field : Set :=
| mkField (Names : list string) (Typ : Expr).

Scheme Expr_mind := Induction for Expr Sort Prop
with Stmt_mind := Induction for Stmt Sort Prop
with Field_mind := Induction for Field Sort Prop.

Combined Scheme ast_mutind from Expr_mind, Stmt_mind, Field_mind.

Definition FieldType (f : Field) : Expr := let 'mkField _ t := f in t.

(** [ast.FuncType]: [Params] and [Results] are [*ast.FieldList], either of
    which may be [nil]. *)
Record FuncType : Set := mkFuncType {
  Params : option (list Field);
  Results : option (list Field)
}.

Inductive Spec : Set :=
| ImportSpec (Name : option string) (Path : string)
| TypeSpec (Name : string) (Typ : Expr)
| ValueSpec (Names : list string) (Typ : option Expr) (Values : list Expr).

(** [ast.Decl]. A [FuncDecl] without body ([Body = nil]) is an external
    function declaration. *)
Inductive Decl : Set :=
| GenDecl (Tok : Token) (Specs : list Spec)
| FuncDecl (Recv : option (list Field)) (Name : string) (Typ : FuncType)
           (Body : option (list Stmt)).

Record File : Set := mkFile {
  PkgName : string;
  Decls : list Decl
}.

Global Instance Token_eq_dec : EqDecision Token.
Proof. solve_decision. Defined.

(** ** Signature model and handler reference *)

Record HandlerSignature : Set := mkSig {
  HasContext : bool;
  HasInput : bool;
  HasOutput : bool;
  HasError : bool
}.

Record HandlerReference : Set := mkRef {
  SimpleName : string;
  QualifiedName : string
}.

(** The nine handler shapes accepted by the Lambda runtime. *)
Definition canonicalShapes : list HandlerSignature :=
  [ mkSig false false false false;   (* func ()                          *)
    mkSig false false false true;    (* func () error                    *)
    mkSig false false true  true;    (* func () (TOut, error)            *)
    mkSig false true  false true;    (* func (TIn) error                 *)
    mkSig false true  true  true;    (* func (TIn) (TOut, error)         *)
    mkSig true  false false true;    (* func (context.Context) error     *)
    mkSig true  false true  true;    (* func (context.Context) (TOut, error) *)
    mkSig true  true  false true;    (* func (context.Context, TIn) error *)
    mkSig true  true  true  true ].  (* func (context.Context, TIn) (TOut, error) *)

(** ** Adapter synthesizer *)

Definition createHandlerStruct : Decl :=
  GenDecl TYPE [TypeSpec "Handler" (StructType [])].

Definition createNewFunc : Decl :=
  FuncDecl None "New"
    (mkFuncType (Some []) (Some [mkField [] (StarExpr (Ident "Handler"))]))
    (Some [ReturnStmt [UnaryExpr AND (CompositeLit (Some (Ident "Handler")) [])]]).

(** [append] on a nil-or-not slice that is not shared: the new slice. *)
Definition append {A} (s : list A) (x : A) : list A := s ++ [x].

Definition createHandleMethod
    (handlerFuncName contextAlias httpAlias ioAlias : string)
    (handlerSig : HandlerSignature) : Decl :=
  let stmts : list Stmt := [] in
  (* Read request body if handler expects input *)
  let stmts :=
    if HasInput handlerSig then
      append stmts
        (AssignStmt [Ident "body"; Ident "_"] DEFINE
           [CallExpr (SelectorExpr (Ident ioAlias) "ReadAll")
                     [SelectorExpr (Ident "r") "Body"]])
    else stmts in
  (* Build handler call arguments *)
  let handlerArgs : list Expr := [] in
  let handlerArgs :=
    if HasContext handlerSig then append handlerArgs (Ident "ctx") else handlerArgs in
  let handlerArgs :=
    if HasInput handlerSig then append handlerArgs (Ident "body") else handlerArgs in
  (* handleRequest or handler.HandleRequest *)
  let idx := strings.Index handlerFuncName "." in
  let handlerFuncExpr :=
    if negb (idx =? -1) then
      let pkgName := slice handlerFuncName 0 (Z.to_nat idx) in
      let funcName := slice handlerFuncName (Z.to_nat (idx + 1))
                            (String.length handlerFuncName) in
      SelectorExpr (Ident pkgName) funcName
    else Ident handlerFuncName in
  (* Call the handler and capture results *)
  let stmts :=
    if HasOutput handlerSig && HasError handlerSig then
      append stmts (AssignStmt [Ident "result"; Ident "err"] DEFINE
                      [CallExpr handlerFuncExpr handlerArgs])
    else if HasError handlerSig then
      append stmts (AssignStmt [Ident "err"] DEFINE
                      [CallExpr handlerFuncExpr handlerArgs])
    else if HasOutput handlerSig then
      append stmts (AssignStmt [Ident "result"] DEFINE
                      [CallExpr handlerFuncExpr handlerArgs])
    else
      append stmts (ExprStmt (CallExpr handlerFuncExpr handlerArgs)) in
  (* Handle error if handler returns one *)
  let stmts :=
    if HasError handlerSig then
      append stmts
        (IfStmt (BinaryExpr (Ident "err") NEQ (Ident "nil"))
           [ ExprStmt (CallExpr (SelectorExpr (Ident "log") "Printf")
                         [BasicLit STRING (quoted "Handler error: %v"); Ident "err"]);
             ExprStmt (CallExpr (SelectorExpr (Ident "w") "WriteHeader")
                         [BasicLit INT "500"]);
             ReturnStmt [] ]
           None)
    else stmts in
  (* Handle output if handler returns one *)
  let stmts :=
    if HasOutput handlerSig then
      append stmts
        (ExprStmt (CallExpr
           (SelectorExpr (CallExpr (SelectorExpr (Ident "json") "NewEncoder") [Ident "w"])
                         "Encode")
           [Ident "result"]))
    else stmts in
  FuncDecl
    (Some [mkField ["h"] (StarExpr (Ident "Handler"))])
    "Handle"
    (mkFuncType
       (Some [ mkField ["ctx"] (SelectorExpr (Ident contextAlias) "Context");
               mkField ["w"] (SelectorExpr (Ident httpAlias) "ResponseWriter");
               mkField ["r"] (StarExpr (SelectorExpr (Ident httpAlias) "Request")) ])
       None)
    (Some stmts).

(** ** The dispatch-method recipe, stated on its own

    The recipe of the adapter synthesizer, piece by piece: the statements
    it may contain and the way the handler is referenced. *)

(** A handler name with a package prefix splits at its first dot. *)
Fixpoint splitAtDot (s : string) : option (string * string) :=
  match s with
  | EmptyString => None
  | String c s' =>
      if Ascii.eqb c "." then Some (EmptyString, s')
      else match splitAtDot s' with
           | Some (p, f) => Some (String c p, f)
           | None => None
           end
  end.

Definition handlerCallee (name : string) : Expr :=
  match splitAtDot name with
  | Some (pkg, fn) => SelectorExpr (Ident pkg) fn
  | None => Ident name
  end.

Definition handlerCallArgs (sig : HandlerSignature) : list Expr :=
  (if HasContext sig then [Ident "ctx"] else []) ++
  (if HasInput sig then [Ident "body"] else []).

Definition readBodyStmt (ioAlias : string) : Stmt :=
  AssignStmt [Ident "body"; Ident "_"] DEFINE
    [CallExpr (SelectorExpr (Ident ioAlias) "ReadAll") [SelectorExpr (Ident "r") "Body"]].

Definition bindCall (sig : HandlerSignature) (call : Expr) : Stmt :=
  match HasOutput sig, HasError sig with
  | true, true => AssignStmt [Ident "result"; Ident "err"] DEFINE [call]
  | false, true => AssignStmt [Ident "err"] DEFINE [call]
  | true, false => AssignStmt [Ident "result"] DEFINE [call]
  | false, false => ExprStmt call
  end.

Definition errorGuard (logName : string) : Stmt :=
  IfStmt (BinaryExpr (Ident "err") NEQ (Ident "nil"))
    [ ExprStmt (CallExpr (SelectorExpr (Ident logName) "Printf")
                  [BasicLit STRING (quoted "Handler error: %v"); Ident "err"]);
      ExprStmt (CallExpr (SelectorExpr (Ident "w") "WriteHeader") [BasicLit INT "500"]);
      ReturnStmt [] ]
    None.

Definition encodeStmt (jsonName : string) : Stmt :=
  ExprStmt (CallExpr
    (SelectorExpr (CallExpr (SelectorExpr (Ident jsonName) "NewEncoder") [Ident "w"]) "Encode")
    [Ident "result"]).

Definition recipeBody (name ioAlias : string) (sig : HandlerSignature) : list Stmt :=
  (if HasInput sig then [readBodyStmt ioAlias] else []) ++
  [bindCall sig (CallExpr (handlerCallee name) (handlerCallArgs sig))] ++
  (if HasError sig then [errorGuard "log"] else []) ++
  (if HasOutput sig then [encodeStmt "json"] else []).

Definition FuncBody (d : Decl) : option (list Stmt) :=
  match d with
  | FuncDecl _ _ _ body => body
  | GenDecl _ _ => None
  end.


(** ** Outcomes

    The program reports failures as [error] values built by [fmt.Errorf];
    each constructor of [Error] stands for one message.  [Panic] is a
    run-time panic of the Go program (a nil dereference or a slice bound). *)

Inductive Error : Set :=
| ErrMainNotFound                        (* main function not found *)
| ErrStartNotFound                       (* lambda.Start() call not found in main function *)
| ErrHandlerNotFound (name : string)     (* handler function %s not found *)
| ErrLoadPackage                         (* failed to load package *)
| ErrNoPackages                          (* no packages found *)
| ErrHandlerNotInPackage (name : string) (* handler function %s not found in package or imports *)
| ErrNotAFunction.                       (* handler is not a function *)

Inductive Result (A : Type) : Type :=
| Ok (a : A)
| Err (e : Error)
| Panic.

Arguments Ok {A} a.
Arguments Err {A} e.
Arguments Panic {A}.

Definition bind {A B} (r : Result A) (k : A -> Result B) : Result B :=
  match r with
  | Ok a => k a
  | Err e => Err e
  | Panic => Panic
  end.

Notation "'let*' x ':=' r 'in' k" := (bind r (fun x => k))
  (at level 10, x pattern, r at level 200, k at level 200).

(** ** [ast.Inspect]

    [ast.Inspect(node, f)] walks the tree depth-first: it calls [f] on a
    node and, when [f] answers [true], on the children in the order of the
    fields.  The callbacks of this program are closures that assign to
    variables of the enclosing function; the variables are the state [S]
    threaded through the walk.  The callbacks react to [*ast.CallExpr] and
    [*ast.FuncDecl] nodes only, so the visits of identifiers that are field
    names or selectors, of field lists, and the closing call [f(nil)] are
    left out. *)

Inductive Node : Set :=
| NExpr (e : Expr)
| NStmt (s : Stmt)
| NField (f : Field).

Section Inspect.

Context {S : Type} (f : Node -> S -> S * bool).

Fixpoint inspectExpr (e : Expr) (s : S) {struct e} : S :=
  let '(s, descend) := f (NExpr e) s in
  if descend then
    match e with
    | Ident _ | BasicLit _ _ => s
    | SelectorExpr X _ => inspectExpr X s
    | CallExpr Fun Args =>
        fold_left (fun s a => inspectExpr a s) Args (inspectExpr Fun s)
    | StarExpr X => inspectExpr X s
    | UnaryExpr _ X => inspectExpr X s
    | BinaryExpr X _ Y => inspectExpr Y (inspectExpr X s)
    | CompositeLit Typ Elts =>
        fold_left (fun s a => inspectExpr a s) Elts
          (match Typ with Some t => inspectExpr t s | None => s end)
    | ArrayType Elt => inspectExpr Elt s
    | StructType Fields => fold_left (fun s a => inspectField a s) Fields s
    | FuncLit Params Results Body =>
        fold_left (fun s a => inspectStmt a s) Body
          (fold_left (fun s a => inspectField a s) Results
             (fold_left (fun s a => inspectField a s) Params s))
    end
  else s
with inspectStmt (st : Stmt) (s : S) {struct st} : S :=
  let '(s, descend) := f (NStmt st) s in
  if descend then
    match st with
    | ExprStmt X => inspectExpr X s
    | AssignStmt Lhs _ Rhs =>
        fold_left (fun s a => inspectExpr a s) Rhs
          (fold_left (fun s a => inspectExpr a s) Lhs s)
    | ReturnStmt Results => fold_left (fun s a => inspectExpr a s) Results s
    | IfStmt Cond Body Else =>
        let s := fold_left (fun s a => inspectStmt a s) Body (inspectExpr Cond s) in
        match Else with Some e => inspectStmt e s | None => s end
    | BlockStmt List => fold_left (fun s a => inspectStmt a s) List s
    | DeferStmt Call => inspectExpr Call s
    end
  else s
with inspectField (fd : Field) (s : S) {struct fd} : S :=
  let '(s, descend) := f (NField fd) s in
  if descend then
    match fd with
    | mkField _ Typ => inspectExpr Typ s
    end
  else s.

End Inspect.

(** ** Entry-point locator *)

(** The closure passed to the inner [ast.Inspect] of [findLambdaHandler];
    the state is the captured variable [handlerRef]. *)
Definition startCallback (n : Node) (handlerRef : option HandlerReference)
  : option HandlerReference * bool :=
  match n with
  | NExpr (CallExpr (SelectorExpr (Ident ident) Sel) Args) =>
      if String.eqb ident "lambda" && String.eqb Sel "Start" then
        match Args with
        | Ident handlerIdent :: _ =>
            (Some (mkRef handlerIdent handlerIdent), false)
        | SelectorExpr (Ident pkgIdent) handlerSel :: _ =>
            (Some (mkRef handlerSel (pkgIdent ++ "." ++ handlerSel)), false)
        | _ => (handlerRef, true)
        end
      else (handlerRef, true)
  | _ => (handlerRef, true)
  end.

(** One top-level declaration seen by the outer [ast.Inspect]; the state is
    the pair of captured variables [(handlerRef, foundMain)].  Function
    declarations occur only at the top level of a file, so the outer walk
    is a pass over [file.Decls].  [ast.Inspect] dereferences its node: on
    the nil body of an external function declaration it panics. *)
Definition findStep (acc : Result (option HandlerReference * bool)) (d : Decl)
  : Result (option HandlerReference * bool) :=
  let* (handlerRef, foundMain) := acc in
  match d with
  | FuncDecl _ name _ body =>
      if String.eqb name "main" then
        match body with
        | Some stmts =>
            Ok (inspectStmt startCallback (BlockStmt stmts) handlerRef, true)
        | None => Panic
        end
      else Ok (handlerRef, foundMain)
  | GenDecl _ _ => Ok (handlerRef, foundMain)
  end.

Definition findLambdaHandler (file : File) : Result HandlerReference :=
  let* (handlerRef, foundMain) := fold_left findStep (Decls file) (Ok (None, false)) in
  if negb foundMain then Err ErrMainNotFound
  else match handlerRef with
       | None => Err ErrStartNotFound
       | Some r => Ok r
       end.

(** ** Signature classifier: local strategy *)

Definition setHasContext (s : HandlerSignature) : HandlerSignature :=
  mkSig true (HasInput s) (HasOutput s) (HasError s).
Definition setHasInput (s : HandlerSignature) : HandlerSignature :=
  mkSig (HasContext s) true (HasOutput s) (HasError s).
Definition setHasOutput (s : HandlerSignature) : HandlerSignature :=
  mkSig (HasContext s) (HasInput s) true (HasError s).
Definition setHasError (s : HandlerSignature) : HandlerSignature :=
  mkSig (HasContext s) (HasInput s) (HasOutput s) true.

(** The body of the closure of [analyzeHandlerSignature] on a matching
    declaration: [sig = &HandlerSignature{}] and the two analyses. *)
Definition analyzeFuncType (typ : FuncType) : HandlerSignature :=
  let sig := mkSig false false false false in
  (* Analyze parameters *)
  let sig :=
    match Params typ with
    | Some ((firstParam :: _) as params) =>
        let numParams := length params in
        match FieldType firstParam with
        | SelectorExpr X Sel =>
            match X with
            | Ident ident =>
                if String.eqb ident "context" && String.eqb Sel "Context" then
                  let sig := setHasContext sig in
                  if Nat.eqb numParams 2 then setHasInput sig else sig
                else sig
            | _ => sig
            end
        | _ =>
            (* Single param that's not context *)
            if Nat.eqb numParams 1 then setHasInput sig else sig
        end
    | _ => sig
    end in
  (* Analyze return values *)
  let sig :=
    match Results typ with
    | Some ((firstResult :: _) as results) =>
        let numResults := length results in
        if Nat.eqb numResults 1 then
          match FieldType firstResult with
          | Ident ident => if String.eqb ident "error" then setHasError sig else sig
          | _ => sig
          end
        else if Nat.eqb numResults 2 then setHasError (setHasOutput sig)
        else sig
    | _ => sig
    end in
  sig.

(** The closure assigns [sig] at every function declaration of the wanted
    name and does not stop the walk: the last such declaration decides. *)
Definition analyzeStep (handlerName : string) (sig : option HandlerSignature) (d : Decl)
  : option HandlerSignature :=
  match d with
  | FuncDecl _ name typ _ =>
      if String.eqb name handlerName then Some (analyzeFuncType typ) else sig
  | GenDecl _ _ => sig
  end.

Definition analyzeHandlerSignature (file : File) (handlerName : string)
  : Result HandlerSignature :=
  match fold_left (analyzeStep handlerName) (Decls file) None with
  | None => Err (ErrHandlerNotFound handlerName)
  | Some sig => Ok sig
  end.

(** ** Signature classifier: cross-module strategy

    The fragment of [go/types] and [golang.org/x/tools/go/packages] that
    [analyzeHandlerSignatureWithTypes] reads.  A [*types.Named] carries its
    object's package ([nil] for the universe, as for [error]) and name. *)

Inductive GoType : Set :=
| Named (pkgPath : option string) (name : string)
| Basic (name : string)
| Pointer (elem : GoType)
| Slice (elem : GoType)
| MapType (key elem : GoType)
| InterfaceType
| StructTypeT
| FuncTypeT.

(** [types.Type.String()], without a qualifier: a named type is written
    with the path of its package. *)
Fixpoint TypeString (t : GoType) : string :=
  match t with
  | Named None name => name
  | Named (Some path) name => path ++ "." ++ name
  | Basic name => name
  | Pointer elem => "*" ++ TypeString elem
  | Slice elem => "[]" ++ TypeString elem
  | MapType key elem => "map[" ++ TypeString key ++ "]" ++ TypeString elem
  | InterfaceType => "interface{}"
  | StructTypeT => "struct{}"
  | FuncTypeT => "func()"
  end.

(** [*types.Signature]: the tuples of parameter and result types. *)
Record Signature : Set := mkSignature {
  SigParams : list GoType;
  SigResults : list GoType
}.

(** [types.Object]: a [*types.Func] (whose type is always a signature) or
    any other object. *)
Inductive Object : Set :=
| Func (sig : Signature)
| OtherObject.

(** [types.Info]: [Defs] and [Uses] are maps keyed by identifier nodes; a
    [range] over them meets the entries in an order chosen by the run time,
    which is the order of the lists here. *)
Record Info : Set := mkInfo {
  Defs : list (string * Object);
  Uses : list (string * Object)
}.

Record Package : Set := mkPackage {
  Errors : list string;
  TypesInfo : option Info
}.

(** The first function object of the wanted name met by the loop. *)
Fixpoint lookupFunc (handlerName : string) (m : list (string * Object)) : option Object :=
  match m with
  | [] => None
  | (id, obj) :: m' =>
      if String.eqb id handlerName then
        match obj with
        | Func _ => Some obj
        | OtherObject => lookupFunc handlerName m'
        end
      else lookupFunc handlerName m'
  end.

(** The analysis of the signature found by the type checker. *)
Definition analyzeSignature (funcType : Signature) : HandlerSignature :=
  let sig := mkSig false false false false in
  (* Check parameters *)
  let params := SigParams funcType in
  let sig :=
    match params with
    | firstParam :: _ =>
        match firstParam with
        | Named pkg name =>
            match pkg with
            | Some path =>
                if String.eqb path "context" && String.eqb name "Context" then
                  let sig := setHasContext sig in
                  if Nat.eqb (length params) 2 then setHasInput sig else sig
                else sig
            | None => sig
            end
        | _ =>
            (* Single param that's not context *)
            if Nat.eqb (length params) 1 then setHasInput sig else sig
        end
    | [] => sig
    end in
  (* Check return values *)
  let results := SigResults funcType in
  let sig :=
    match results with
    | firstResult :: _ =>
        if Nat.eqb (length results) 1 then
          if String.eqb (TypeString firstResult) "error" then setHasError sig else sig
        else if Nat.eqb (length results) 2 then setHasError (setHasOutput sig)
        else sig
    | [] => sig
    end in
  sig.

(** [loaded] is what [packages.Load] returned: [None] for an error,
    otherwise the packages.  The warnings printed for [pkg.Errors] do not
    change the result. *)
Definition analyzeHandlerSignatureWithTypes
    (loaded : option (list Package)) (handlerName : string) : Result HandlerSignature :=
  match loaded with
  | None => Err ErrLoadPackage
  | Some [] => Err ErrNoPackages
  | Some (pkg :: _) =>
      let handlerObj :=
        match TypesInfo pkg with
        | Some info =>
            match lookupFunc handlerName (Defs info) with
            | Some obj => Some obj
            | None => lookupFunc handlerName (Uses info)
            end
        | None => None
        end in
      match handlerObj with
      | None => Err (ErrHandlerNotInPackage handlerName)
      | Some (Func funcType) => Ok (analyzeSignature funcType)
      | Some OtherObject => Err ErrNotAFunction
      end
  end.

(** *** The type checker on the type expressions of a declaration

    What [go/types] records for the type expressions the migrator meets:
    the predeclared [error], the predeclared basic types, a defined type
    of the package under analysis, a defined type selected from an
    imported package (the qualifier is the local name of the import, the
    type carries the import path), pointers and slices.  Which names
    stand for defined types is given by the environment; a name that is
    not listed there (an alias declaration, for one) is outside this
    fragment and gets no type. *)

Record TypeEnv : Set := mkTypeEnv {
  envPkgPath : string;
  envImports : list (string * string);  (* local name, import path *)
  envDefined : list (string * string)   (* package path, name of a defined type *)
}.

Definition isDefined (env : TypeEnv) (path name : string) : bool :=
  existsb (fun d => String.eqb (fst d) path && String.eqb (snd d) name) (envDefined env).

Definition basicNames : list string :=
  ["bool"; "string"; "int"; "int8"; "int16"; "int32"; "int64";
   "uint"; "uint8"; "uint16"; "uint32"; "uint64"; "uintptr";
   "float32"; "float64"; "complex64"; "complex128"; "byte"; "rune"].

Fixpoint importPathOf (imports : list (string * string)) (local : string) : option string :=
  match imports with
  | [] => None
  | (n, path) :: rest => if String.eqb n local then Some path else importPathOf rest local
  end.

Fixpoint typeOf (env : TypeEnv) (e : Expr) : option GoType :=
  match e with
  | Ident name =>
      if String.eqb name "error" then Some (Named None "error")
      else if existsb (String.eqb name) basicNames then Some (Basic name)
      else if isDefined env (envPkgPath env) name
           then Some (Named (Some (envPkgPath env)) name)
      else None
  | SelectorExpr (Ident q) Sel =>
      match importPathOf (envImports env) q with
      | Some path => if isDefined env path Sel then Some (Named (Some path) Sel) else None
      | None => None
      end
  | StarExpr X => option_map Pointer (typeOf env X)
  | ArrayType Elt => option_map Slice (typeOf env Elt)
  | StructType _ => Some StructTypeT
  | FuncLit _ _ _ => None
  | _ => None
  end.

(** One parameter (or result) per name of a field, one for a field
    without names. *)
Definition fieldTypes (env : TypeEnv) (fd : Field) : option (list GoType) :=
  match fd with
  | mkField names t =>
      match typeOf env t with
      | Some ty => Some (repeat ty (Nat.max 1 (length names)))
      | None => None
      end
  end.

Fixpoint tupleOf (env : TypeEnv) (fields : list Field) : option (list GoType) :=
  match fields with
  | [] => Some []
  | fd :: rest =>
      match fieldTypes env fd, tupleOf env rest with
      | Some a, Some b => Some (a ++ b)%list
      | _, _ => None
      end
  end.

Definition signatureOf (env : TypeEnv) (typ : FuncType) : option Signature :=
  match tupleOf env (default [] (Params typ)), tupleOf env (default [] (Results typ)) with
  | Some ps, Some rs => Some (mkSignature ps rs)
  | _, _ => None
  end.

(** ** The classification rules, stated on their own

    The rules of the signature classifier as a table on the declared
    parameter and result lists, and the shapes the table accepts. *)

Definition isContextType (e : Expr) : bool :=
  match e with
  | SelectorExpr (Ident q) Sel => String.eqb q "context" && String.eqb Sel "Context"
  | _ => false
  end.

Definition isErrorType (e : Expr) : bool :=
  match e with
  | Ident name => String.eqb name "error"
  | _ => false
  end.

Definition firstIs (p : Expr -> bool) (fields : list Field) : bool :=
  match fields with
  | fd :: _ => p (FieldType fd)
  | [] => false
  end.

Definition ruleSignature (typ : FuncType) : HandlerSignature :=
  let params := default [] (Params typ) in
  let results := default [] (Results typ) in
  let ctx := firstIs isContextType params in
  {| HasContext := ctx;
     HasInput := if ctx then Nat.eqb (length params) 2 else Nat.eqb (length params) 1;
     HasOutput := Nat.eqb (length results) 2;
     HasError := Nat.eqb (length results) 2
                 || (Nat.eqb (length results) 1 && firstIs isErrorType results) |}.

(** The parameter and result lists of the nine canonical shapes. *)
Definition canonicalParams (params : list Field) : bool :=
  match params with
  | [] => true
  | [_] => true
  | [p; _] => isContextType (FieldType p)
  | _ => false
  end.

Definition canonicalResults (results : list Field) : bool :=
  match results with
  | [] => true
  | [r] => isErrorType (FieldType r)
  | [_; _] => true
  | _ => false
  end.

Definition canonicalDecl (typ : FuncType) : bool :=
  let params := default [] (Params typ) in
  let results := default [] (Results typ) in
  canonicalParams params && canonicalResults results
  && (negb (Nat.eqb (length results) 0) || Nat.eqb (length params) 0).

Definition isFuncNamed (name : string) (d : Decl) : bool :=
  match d with
  | FuncDecl _ n _ _ => String.eqb n name
  | GenDecl _ _ => false
  end.

Definition DeclType (d : Decl) : option FuncType :=
  match d with
  | FuncDecl _ _ typ _ => Some typ
  | GenDecl _ _ => None
  end.

(** The first parameter is declared with a selector type other than
    [context.Context] (such as [json.RawMessage] or [events.S3Event]). *)
Definition foreignSelectorFirst (typ : FuncType) : bool :=
  match default [] (Params typ) with
  | fd :: _ =>
      match FieldType fd with
      | SelectorExpr _ _ => negb (isContextType (FieldType fd))
      | _ => false
      end
  | [] => false
  end.

(** *** Sample declarations *)

Definition lambdaStart (args : list Expr) : Expr :=
  CallExpr (SelectorExpr (Ident "lambda") "Start") args.

Definition mainCalling (args : list Expr) : Decl :=
  FuncDecl None "main" (mkFuncType (Some []) None) (Some [ExprStmt (lambdaStart args)]).

Definition lambdaImportPath : string := quoted "github.com/aws/aws-lambda-go/lambda".
Definition eventsImportPath : string := quoted "github.com/aws/aws-lambda-go/events".

(** [func handleRequest(event json.RawMessage) error] *)
Definition rawMessageHandlerType : FuncType :=
  mkFuncType (Some [mkField ["event"] (SelectorExpr (Ident "json") "RawMessage")])
             (Some [mkField [] (Ident "error")]).

Definition rawMessageFile : File :=
  mkFile "main"
    [ GenDecl IMPORT [ImportSpec None (quoted "encoding/json"); ImportSpec None lambdaImportPath];
      FuncDecl None "handleRequest" rawMessageHandlerType (Some [ReturnStmt [Ident "nil"]]);
      mainCalling [Ident "handleRequest"] ].

(** [type MyEvent struct{}] and [func handleRequest(e MyEvent) error] *)
Definition myEventHandlerType : FuncType :=
  mkFuncType (Some [mkField ["e"] (Ident "MyEvent")]) (Some [mkField [] (Ident "error")]).

Definition myEventFile : File :=
  mkFile "main"
    [ GenDecl IMPORT [ImportSpec None lambdaImportPath];
      GenDecl TYPE [TypeSpec "MyEvent" (StructType [])];
      FuncDecl None "handleRequest" myEventHandlerType (Some [ReturnStmt [Ident "nil"]]);
      mainCalling [Ident "handleRequest"] ].

Definition myEventEnv : TypeEnv :=
  mkTypeEnv "example.com/fn"
    [("lambda", "github.com/aws/aws-lambda-go/lambda")]
    [("example.com/fn", "MyEvent")].

Definition myEventPackage (sg : Signature) : Package :=
  mkPackage [] (Some (mkInfo [("MyEvent", OtherObject); ("handleRequest", Func sg);
                              ("main", Func (mkSignature [] []))]
                             [("Start", Func (mkSignature [InterfaceType] []))])).

(** [import ctx "context"] and [func handleRequest(c ctx.Context) error] *)
Definition aliasedContextHandlerType : FuncType :=
  mkFuncType (Some [mkField ["c"] (SelectorExpr (Ident "ctx") "Context")])
             (Some [mkField [] (Ident "error")]).

Definition aliasedContextEnv : TypeEnv :=
  mkTypeEnv "example.com/fn"
    [("ctx", "context"); ("lambda", "github.com/aws/aws-lambda-go/lambda")]
    [("context", "Context")].

(** [func handle(ctx context.Context, a string, b string) error] *)
Definition threeParamsHandlerType : FuncType :=
  mkFuncType (Some [ mkField ["ctx"] (SelectorExpr (Ident "context") "Context");
                     mkField ["a"] (Ident "string");
                     mkField ["b"] (Ident "string") ])
             (Some [mkField [] (Ident "error")]).

Definition threeParamsFile : File :=
  mkFile "main"
    [ GenDecl IMPORT [ImportSpec None (quoted "context"); ImportSpec None lambdaImportPath];
      FuncDecl None "handle" threeParamsHandlerType (Some [ReturnStmt [Ident "nil"]]);
      mainCalling [Ident "handle"] ].

(** ** The start calls of the entry function, stated on their own *)

(** The handler reference a call expression designates, if it is a call
    of [lambda.Start] whose first argument is an identifier or a selector
    on an identifier. *)
Definition startRef (e : Expr) : option HandlerReference :=
  match e with
  | CallExpr (SelectorExpr (Ident q) Sel) Args =>
      if String.eqb q "lambda" && String.eqb Sel "Start" then
        match Args with
        | Ident h :: _ => Some (mkRef h h)
        | SelectorExpr (Ident pkg) h :: _ => Some (mkRef h (pkg ++ "." ++ h))
        | _ => None
        end
      else None
  | _ => None
  end.

(** A call of [lambda.Start], whatever its arguments. *)
Definition isStartCall (e : Expr) : bool :=
  match e with
  | CallExpr (SelectorExpr (Ident q) Sel) _ =>
      String.eqb q "lambda" && String.eqb Sel "Start"
  | _ => false
  end.

(** All expression nodes below a node, the node included. *)
Fixpoint exprsOfExpr (e : Expr) : list Expr :=
  e ::
  match e with
  | Ident _ | BasicLit _ _ => []
  | SelectorExpr X _ => exprsOfExpr X
  | CallExpr Fun Args => exprsOfExpr Fun ++ flat_map exprsOfExpr Args
  | StarExpr X => exprsOfExpr X
  | UnaryExpr _ X => exprsOfExpr X
  | BinaryExpr X _ Y => exprsOfExpr X ++ exprsOfExpr Y
  | CompositeLit Typ Elts =>
      match Typ with Some t => exprsOfExpr t | None => [] end
      ++ flat_map exprsOfExpr Elts
  | ArrayType Elt => exprsOfExpr Elt
  | StructType Fields => flat_map exprsOfField Fields
  | FuncLit Params Results Body =>
      flat_map exprsOfField Params ++ flat_map exprsOfField Results
      ++ flat_map exprsOfStmt Body
  end%list
with exprsOfStmt (st : Stmt) : list Expr :=
  match st with
  | ExprStmt X => exprsOfExpr X
  | AssignStmt Lhs _ Rhs => flat_map exprsOfExpr Lhs ++ flat_map exprsOfExpr Rhs
  | ReturnStmt Results => flat_map exprsOfExpr Results
  | IfStmt Cond Body Else =>
      exprsOfExpr Cond ++ flat_map exprsOfStmt Body
      ++ match Else with Some e => exprsOfStmt e | None => [] end
  | BlockStmt List => flat_map exprsOfStmt List
  | DeferStmt Call => exprsOfExpr Call
  end%list
with exprsOfField (fd : Field) : list Expr :=
  match fd with
  | mkField _ Typ => exprsOfExpr Typ
  end.

Definition isMain (d : Decl) : bool := isFuncNamed "main" d.

Definition hasMain (file : File) : bool := existsb isMain (Decls file).

(** Every declaration named [main] has a body. *)
Definition mainsHaveBody (file : File) : bool :=
  forallb (fun d => negb (isMain d) || bool_decide (FuncBody d <> None)) (Decls file).

(** The expression nodes of the bodies of the declarations named [main]. *)
Definition mainExprs (file : File) : list Expr :=
  flat_map (fun d => if isMain d
                     then flat_map exprsOfStmt (default [] (FuncBody d))
                     else [])
           (Decls file).

Definition startCalls (file : File) : list Expr := List.filter isStartCall (mainExprs file).

Definition supportedStarts (file : File) : list HandlerReference :=
  omap startRef (mainExprs file).

(** [func main() { lambda.Start("handler") }] *)
Definition literalStartFile : File :=
  mkFile "main"
    [ GenDecl IMPORT [ImportSpec None lambdaImportPath];
      mainCalling [BasicLit STRING (quoted "handler")] ].

(** What a walk [W] of the start-call closure does on a tree whose
    expression nodes are [N]: it leaves the captured reference alone when
    no node designates a handler, and otherwise ends with a reference
    designated by one of the nodes. *)
Definition walkSpec (W : option HandlerReference -> option HandlerReference)
    (N : list Expr) : Prop :=
  forall st,
    (omap startRef N = [] /\ W st = st)
    \/ (exists r, In r (omap startRef N) /\ W st = Some r).

(** The walk of [findLambdaHandler] over the bodies of the declarations
    named [main]. *)
Definition mainsWalk (ds : list Decl) (st : option HandlerReference)
  : option HandlerReference :=
  fold_left (fun st d =>
               if isMain d
               then inspectStmt startCallback (BlockStmt (default [] (FuncBody d))) st
               else st) ds st.

(** The call [c] of [lambda.Start] designates the reference [r]. *)
Definition designates (c : Expr) (r : HandlerReference) : Prop :=
  (exists h rest, c = lambdaStart (Ident h :: rest) /\ r = mkRef h h)
  \/ (exists pkg h rest,
        c = lambdaStart (SelectorExpr (Ident pkg) h :: rest)
        /\ r = mkRef h (pkg ++ "." ++ h)).

(** ** Import rewriter *)

(** *** [file.Decls] as a Go slice

    [file.Decls] is a slice of pointers to declaration objects.  The
    objects live in [store] and are addressed by their position; [array]
    is the backing array of the slice and [len] its length (the capacity
    is the length of [array]).  Slots of [array] at and beyond [len] keep
    whatever pointer was last written to them. *)
Record DeclSlice : Set := mkSlice {
  store : list Decl;
  array : list nat;
  len : nat
}.

Definition loadDecls (ds : list Decl) : DeclSlice :=
  mkSlice ds (seq 0 (length ds)) (length ds).

Definition readDecls (s : DeclSlice) : list Decl :=
  omap (fun p => store s !! p) (take (len s) (array s)).

Definition isLambdaPath (pathValue : string) : bool :=
  strings.Contains (strings.Trim pathValue quote) "aws-lambda-go".

(** The specs appended to [newSpecs]. *)
Definition keepSpec (spec : Spec) : bool :=
  match spec with
  | ImportSpec _ pathValue => negb (isLambdaPath pathValue)
  | _ => false
  end.

(** One iteration of [for i, decl := range file.Decls].  The range
    expression is evaluated once: the loop runs over the indices below the
    initial length and reads slot [i] of the backing array, while the body
    assigns a shorter slice over the same array to [file.Decls].
    [append(file.Decls[:i], file.Decls[i+1:]...)] moves the slots
    [i+1 .. len-1] one place down and panics if [i+1 > len]. *)
Definition removeStep (acc : Result DeclSlice) (i : nat) : Result DeclSlice :=
  let* s := acc in
  match array s !! i with
  | None => Panic
  | Some p =>
      match store s !! p with
      | Some (GenDecl IMPORT specs) =>
          let newSpecs := List.filter keepSpec specs in
          if Nat.eqb (length newSpecs) 0 then
            if Nat.leb (i + 1) (len s) then
              Ok (mkSlice (store s)
                    (take i (array s)
                     ++ take (len s - (i + 1)) (drop (i + 1) (array s))
                     ++ drop (len s - 1) (array s))%list
                    (len s - 1))
            else Panic
          else Ok (mkSlice (<[p := GenDecl IMPORT newSpecs]> (store s)) (array s) (len s))
      | _ => Ok s
      end
  end.

Definition removeLambdaImport (s : DeclSlice) : Result DeclSlice :=
  fold_left removeStep (seq 0 (len s)) (Ok s).

(** *** Required imports *)

Record importInfo : Set := mkImportInfo {
  path : string;
  alias : string;
  hasImport : bool;
  needed : bool
}.

Definition checkImport (name : option string) (pathValue : string) (info : importInfo)
  : importInfo :=
  let importPath := strings.Trim pathValue quote in
  if String.eqb importPath (path info) then
    match name with
    | Some n => mkImportInfo (path info) n true (needed info)
    | None => mkImportInfo (path info) (alias info) true (needed info)
    end
  else info.

Definition createImportSpec (path : string) : Spec :=
  ImportSpec None (quoted path).

Definition requiredImports (handlerSig : HandlerSignature) : gmap string importInfo :=
  <["context" := mkImportInfo "context" "context" false true]>
  (<["net/http" := mkImportInfo "net/http" "http" false true]>
  (<["io" := mkImportInfo "io" "io" false (HasInput handlerSig)]>
  (<["encoding/json" := mkImportInfo "encoding/json" "json" false (HasOutput handlerSig)]>
  (<["log" := mkImportInfo "log" "log" false (HasError handlerSig)]> ∅)))).

Definition importKeys : list string :=
  ["context"; "net/http"; "io"; "encoding/json"; "log"].

(** [for _, info := range imports { checkImport(importSpec, info) }]: every
    entry is updated on its own, whatever the order of the visit. *)
Definition checkSpec (imports : gmap string importInfo) (spec : Spec)
  : gmap string importInfo :=
  match spec with
  | ImportSpec name pathValue => checkImport name pathValue <$> imports
  | _ => imports
  end.

Definition checkDecl (imports : gmap string importInfo) (decl : Decl)
  : gmap string importInfo :=
  match decl with
  | GenDecl IMPORT specs => fold_left checkSpec specs imports
  | _ => imports
  end.

(** [for _, info := range imports { if cond(info) { l = append(l, info.path) } }].
    Go leaves the order of a [range] over a map unspecified and varies it
    from one run to the next; [order] is the order in which this run meets
    the keys. *)
Definition rangePaths (order : list string) (imports : gmap string importInfo)
    (cond : importInfo -> bool) : list string :=
  omap (fun k => match imports !! k with
                 | Some info => if cond info then Some (path info) else None
                 | None => None
                 end) order.

(** The orders of the two [range] loops whose order shows in the result. *)
Record MapOrder : Set := mkMapOrder {
  orderMissing : list string;
  orderCreate : list string
}.

Definition validOrder (ord : MapOrder) : Prop :=
  Permutation (orderMissing ord) importKeys /\ Permutation (orderCreate ord) importKeys.

Definition aliasOf (imports : gmap string importInfo) (key : string) : string :=
  match imports !! key with
  | Some info => alias info
  | None => ""
  end.

(** The first import declaration receives the missing specs. *)
Fixpoint appendToFirstImport (missing : list Spec) (decls : list Decl)
  : option (list Decl) :=
  match decls with
  | [] => None
  | GenDecl IMPORT specs :: rest => Some (GenDecl IMPORT (specs ++ missing)%list :: rest)
  | d :: rest => option_map (cons d) (appendToFirstImport missing rest)
  end.

Definition addRequiredImports (ord : MapOrder) (decls : list Decl)
    (handlerSig : HandlerSignature) : list Decl * (string * string * string) :=
  let imports := fold_left checkDecl decls (requiredImports handlerSig) in
  let missingImports :=
    rangePaths (orderMissing ord) imports (fun info => needed info && negb (hasImport info)) in
  let aliases := (aliasOf imports "context", aliasOf imports "net/http", aliasOf imports "io") in
  if Nat.ltb 0 (length missingImports) then
    match appendToFirstImport (map createImportSpec missingImports) decls with
    | Some decls' => (decls', aliases)
    | None =>
        let specs := map createImportSpec (rangePaths (orderCreate ord) imports needed) in
        (GenDecl IMPORT specs :: decls, aliases)
    end
  else (decls, aliases).

(** ** Transform orchestrator *)

(** The loop of [transformAST]: the first declaration named [main] is
    replaced by the three new declarations. *)
Fixpoint replaceMain (adapter : list Decl) (decls : list Decl) : list Decl :=
  match decls with
  | [] => []
  | d :: rest => if isMain d then (adapter ++ rest)%list else d :: replaceMain adapter rest
  end.

Definition transformAST (ord : MapOrder) (file : File) (handlerFuncName : string)
    (handlerSig : HandlerSignature) : Result File :=
  let* s := removeLambdaImport (loadDecls (Decls file)) in
  let '(decls, (contextAlias, httpAlias, ioAlias)) :=
    addRequiredImports ord (readDecls s) handlerSig in
  let handleMethod :=
    createHandleMethod handlerFuncName contextAlias httpAlias ioAlias handlerSig in
  Ok (mkFile (PkgName file)
        (replaceMain [createHandlerStruct; createNewFunc; handleMethod] decls)).

(** The run of the tool on a parsed file: locate, classify (local
    strategy first, the type checker if it fails), transform. *)
Definition migrate (ord : MapOrder) (loaded : option (list Package)) (file : File)
  : Result File :=
  let* handlerRef := findLambdaHandler file in
  let* handlerSig :=
    match analyzeHandlerSignature file (SimpleName handlerRef) with
    | Ok sig => Ok sig
    | _ => analyzeHandlerSignatureWithTypes loaded (SimpleName handlerRef)
    end in
  transformAST ord file (QualifiedName handlerRef) handlerSig.

Definition isImportDecl (d : Decl) : bool :=
  match d with
  | GenDecl IMPORT _ => true
  | _ => false
  end.

Definition declHasLambdaImport (d : Decl) : bool :=
  match d with
  | GenDecl IMPORT specs =>
      existsb (fun spec => match spec with
                           | ImportSpec _ pathValue => isLambdaPath pathValue
                           | _ => false
                           end) specs
  | _ => false
  end.

(** Import declarations come before all other declarations, as the Go
    parser requires. *)
Fixpoint importsFirst (decls : list Decl) : bool :=
  match decls with
  | [] => true
  | d :: rest =>
      if isImportDecl d then importsFirst rest
      else forallb (fun d => negb (isImportDecl d)) rest
  end.

Definition declOrder : MapOrder := mkMapOrder importKeys importKeys.

(** *** Sample files *)

Definition errorOnlyHandlerType : FuncType :=
  mkFuncType (Some []) (Some [mkField [] (Ident "error")]).

Definition fullHandlerType : FuncType :=
  mkFuncType (Some [ mkField ["ctx"] (SelectorExpr (Ident "context") "Context");
                     mkField ["event"] (ArrayType (Ident "byte")) ])
             (Some [ mkField [] (ArrayType (Ident "byte")); mkField [] (Ident "error") ]).

Definition handlerDecl (typ : FuncType) : Decl :=
  FuncDecl None "handleRequest" typ (Some [ReturnStmt [Ident "nil"]]).

(** Two import declarations, one line each:
    [import "github.com/aws/aws-lambda-go/lambda"] and
    [import "github.com/aws/aws-lambda-go/events"]. *)
Definition twoImportDeclsFile : File :=
  mkFile "main"
    [ GenDecl IMPORT [ImportSpec None lambdaImportPath];
      GenDecl IMPORT [ImportSpec None eventsImportPath];
      handlerDecl errorOnlyHandlerType;
      mainCalling [Ident "handleRequest"] ].

(** [import ( l "log"; "github.com/aws/aws-lambda-go/lambda" )] with a
    handler [func handleRequest() error]. *)
Definition aliasedLogFile : File :=
  mkFile "main"
    [ GenDecl IMPORT [ImportSpec (Some "l") (quoted "log"); ImportSpec None lambdaImportPath];
      handlerDecl errorOnlyHandlerType;
      mainCalling [Ident "handleRequest"] ].

(** [import ( "fmt"; "github.com/aws/aws-lambda-go/lambda" )] with a
    handler [func handleRequest(ctx context.Context, event []byte) ([]byte, error)]. *)
Definition fmtImportFile : File :=
  mkFile "main"
    [ GenDecl IMPORT [ImportSpec None (quoted "fmt"); ImportSpec None lambdaImportPath];
      handlerDecl fullHandlerType;
      mainCalling [Ident "handleRequest"] ].

(** [import ( j "encoding/json"; "github.com/aws/aws-lambda-go/lambda" )]
    with the handler of [fmtImportFile]. *)
Definition aliasedJsonFile : File :=
  mkFile "main"
    [ GenDecl IMPORT [ ImportSpec (Some "j") (quoted "encoding/json");
                       ImportSpec None lambdaImportPath ];
      handlerDecl fullHandlerType;
      mainCalling [Ident "handleRequest"] ].

Definition reversedOrder : MapOrder := mkMapOrder (rev importKeys) (rev importKeys).

(** [import ( c "context"; h "net/http"; l "log"; "github.com/aws/aws-lambda-go/lambda" )]
    with a handler [func handleRequest() error]. *)
Definition allAliasedFile : File :=
  mkFile "main"
    [ GenDecl IMPORT [ ImportSpec (Some "c") (quoted "context");
                       ImportSpec (Some "h") (quoted "net/http");
                       ImportSpec (Some "l") (quoted "log");
                       ImportSpec None lambdaImportPath ];
      handlerDecl errorOnlyHandlerType;
      mainCalling [Ident "handleRequest"] ].

Definition errorOnlySig : HandlerSignature := mkSig false false false true.
Definition fullSig : HandlerSignature := mkSig true true true true.

(** The invariant of the loop of [removeLambdaImport] on a declaration
    list of [k] import declarations followed by the declarations [rest]:
    the slice holds some of the first [k] pointers, then the pointers of
    [rest]; the slots beyond its length point into [rest]; the objects of
    [rest] are untouched and the first [k] objects are still import
    declarations. *)
Definition removeInv (k : nat) (rest : list Decl) (s : DeclSlice) : Prop :=
  exists L T,
    array s = (L ++ seq k (length rest) ++ T)%list /\
    length (array s) = (k + length rest)%nat /\
    len s = (length L + length rest)%nat /\
    Forall (fun p => (p < k)%nat) L /\
    Forall (fun p => (k <= p)%nat) T /\
    (forall p, (p < k)%nat -> exists specs, store s !! p = Some (GenDecl IMPORT specs)) /\
    drop k (store s) = rest.

(** ** Further sample files *)



Definition methodAfterHandlerFile : File :=
  mkFile "main"
    ([ GenDecl IMPORT [ImportSpec None lambdaImportPath];
       FuncDecl None "handleRequest" fullHandlerType (Some [ReturnStmt [Ident "nil"]]) ]
     ++ FuncDecl (Some [mkField ["s"] (Ident "Service")]) "handleRequest"
          errorOnlyHandlerType (Some [ReturnStmt [Ident "nil"]])
        :: [mainCalling [Ident "handleRequest"]])%list.

Definition importedHandlerFile : File :=
  mkFile "main"
    [ GenDecl IMPORT [ ImportSpec None lambdaImportPath;
                       ImportSpec None (quoted "github.com/myorg/myapp/pkg/handler") ];
      mainCalling [SelectorExpr (Ident "handler") "HandleRequest"] ].


(** The import specs of a declaration, each as its name (if it has one)
    and its path literal as written, in order. *)
Definition importsOfDecl (d : Decl) : list (option string * string) :=
  match d with
  | GenDecl IMPORT specs =>
      omap (fun spec => match spec with
                        | ImportSpec name pathValue => Some (name, pathValue)
                        | _ => None
                        end) specs
  | _ => []
  end.

(** The import specs of a declaration list, in order. *)
Definition importSpecsOf (decls : list Decl) : list (option string * string) :=
  flat_map importsOfDecl decls.

(** The test of [checkImport] on an import spec (name, path literal): the
    literal, its leading and trailing double quotes trimmed, is the path
    [p].  The literal is compared as it is written: an import written as
    a raw string literal (between back quotes) does not pass the test. *)
Definition matchesImport (p : string) (spec : option string * string) : bool :=
  String.eqb (strings.Trim (snd spec) quote) p.

(** The flag [hasImport] of the module [p] after the import specs of
    [decls] have been checked: some spec passes the test of
    [checkImport]. *)
Definition importFound (p : string) (decls : list Decl) : bool :=
  existsb (matchesImport p) (importSpecsOf decls).

Definition requiredInfo (sig : HandlerSignature) (k : string) : option importInfo :=
  if String.eqb k "context" then Some (mkImportInfo "context" "context" false true)
  else if String.eqb k "net/http" then Some (mkImportInfo "net/http" "http" false true)
  else if String.eqb k "io" then Some (mkImportInfo "io" "io" false (HasInput sig))
  else if String.eqb k "encoding/json"
       then Some (mkImportInfo "encoding/json" "json" false (HasOutput sig))
  else if String.eqb k "log" then Some (mkImportInfo "log" "log" false (HasError sig))
  else None.

Definition foldInfo (specs : list (option string * string)) (info : importInfo) : importInfo :=
  fold_left (fun info spec => checkImport (fst spec) (snd spec) info) specs info.

Definition lastAlias (p dflt : string) (specs : list (option string * string)) : string :=
  fold_left (fun a spec =>
               if matchesImport p spec
               then match fst spec with Some n => n | None => a end
               else a) specs dflt.

Definition defaultAlias (k : string) : string :=
  if String.eqb k "net/http" then "http"
  else if String.eqb k "encoding/json" then "json"
  else k.

Definition neededFor (sig : HandlerSignature) (k : string) : bool :=
  if String.eqb k "io" then HasInput sig
  else if String.eqb k "encoding/json" then HasOutput sig
  else if String.eqb k "log" then HasError sig
  else true.

Definition isKey (k : string) : bool := existsb (String.eqb k) importKeys.

(** The entry of a required module after the imports of [decls] have
    been checked. *)
Definition infoOf (decls : list Decl) (sig : HandlerSignature) (k : string) : importInfo :=
  mkImportInfo k (lastAlias k (defaultAlias k) (importSpecsOf decls))
               (importFound k decls) (neededFor sig k).

(** The spec [createImportSpec] writes for the path [p]. *)
Definition plainImport (p : string) : option string * string := (None, quoted p).

Definition backquote : ascii := "096"%char.

(** A raw string literal: [s] between back quotes. *)
Definition rawLiteral (s : string) : string :=
  String backquote (s ++ String backquote EmptyString).

(** What the returned alias of a module [p] is, over the import specs
    that pass the test of [checkImport] for [p] (the specs taken for
    imports of [p]): the default name if none of them carries a name, and
    otherwise the name of the last of them that carries one. *)
Definition aliasRule (p dflt : string) (specs : list (option string * string)) (a : string)
  : Prop :=
  (Forall (fun s => matchesImport p s = true -> fst s = None) specs -> a = dflt)
  /\ (forall b n v c,
         specs = (b ++ (Some n, v) :: c)%list ->
         matchesImport p (Some n, v) = true ->
         Forall (fun s => matchesImport p s = true -> fst s = None) c ->
         a = n).

(** An import declaration all of whose specs are dropped. *)
Definition emptied (d : Decl) : bool :=
  match d with
  | GenDecl IMPORT specs => Nat.eqb (length (List.filter keepSpec specs)) 0
  | _ => false
  end.

Definition filterDecl (d : Decl) : Decl :=
  match d with
  | GenDecl IMPORT specs => GenDecl IMPORT (List.filter keepSpec specs)
  | _ => d
  end.

(** The import declarations left by the loop of [removeLambdaImport]: an
    emptied declaration goes away and the declaration after it is passed
    over as it is; any other declaration keeps the specs that are not
    Lambda imports. *)
Fixpoint sweep (imps : list Decl) : list Decl :=
  match imps with
  | [] => []
  | d :: tl =>
      if emptied d then
        match tl with
        | [] => []
        | d2 :: tl2 => d2 :: sweep tl2
        end
      else filterDecl d :: sweep tl
  end.

(** The state of the loop when the slots [P] have been passed and the
    slots [U], holding the import declarations [Uvals], are still to be
    visited. *)
Definition sweepState (k : nat) (rest : list Decl) (s : DeclSlice)
    (P U T : list nat) (Uvals : list Decl) : Prop :=
  array s = (P ++ U ++ seq k (length rest) ++ T)%list /\
  length (array s) = (k + length rest)%nat /\
  len s = (length P + length U + length rest)%nat /\
  NoDup (P ++ U)%list /\
  Forall (fun p => (p < k)%nat) (P ++ U)%list /\
  Forall (fun p => (k <= p)%nat) T /\
  Forall2 (fun u d => store s !! u = Some d) U Uvals /\
  Forall (fun d => isImportDecl d = true) Uvals /\
  drop k (store s) = rest.

(** Some import declaration passed over by the loop of
    [removeLambdaImport] holds a Lambda import. *)
Fixpoint skipsLambdaImport (imps : list Decl) : bool :=
  match imps with
  | [] => false
  | d :: tl =>
      if emptied d then
        match tl with
        | [] => false
        | d2 :: tl2 => declHasLambdaImport d2 || skipsLambdaImport tl2
        end
      else skipsLambdaImport tl
  end.

Definition notLambda (spec : option string * string) : bool :=
  negb (isLambdaPath (snd spec)).

(** ** The earlier copy of the import rewriter ([cmd/main.go])

    [addRequiredImports] as the earlier copy of the program has it: flags
    and aliases in local variables, and the missing imports appended in a
    fixed order. *)

Module Legacy.

Record importState : Set := mkImportState {
  contextAlias : string;
  httpAlias : string;
  ioAlias : string;
  hasContext : bool;
  hasNetHTTP : bool;
  hasIO : bool;
  hasJSON : bool;
  hasLog : bool
}.

Definition initialState : importState :=
  mkImportState "context" "http" "io" false false false false false.

Definition named (name : option string) (current : string) : string :=
  match name with
  | Some n => n
  | None => current
  end.

(** The body of the inner loop for one import spec. *)
Definition checkSpec (st : importState) (spec : Spec) : importState :=
  match spec with
  | ImportSpec name pathValue =>
      let importPath := strings.Trim pathValue quote in
      let st :=
        if String.eqb importPath "context" then
          mkImportState (named name (contextAlias st)) (httpAlias st) (ioAlias st)
                        true (hasNetHTTP st) (hasIO st) (hasJSON st) (hasLog st)
        else st in
      let st :=
        if String.eqb importPath "net/http" then
          mkImportState (contextAlias st) (named name (httpAlias st)) (ioAlias st)
                        (hasContext st) true (hasIO st) (hasJSON st) (hasLog st)
        else st in
      let st :=
        if String.eqb importPath "io" then
          mkImportState (contextAlias st) (httpAlias st) (named name (ioAlias st))
                        (hasContext st) (hasNetHTTP st) true (hasJSON st) (hasLog st)
        else st in
      let st :=
        if String.eqb importPath "encoding/json" then
          mkImportState (contextAlias st) (httpAlias st) (ioAlias st)
                        (hasContext st) (hasNetHTTP st) (hasIO st) true (hasLog st)
        else st in
      let st :=
        if String.eqb importPath "log" then
          mkImportState (contextAlias st) (httpAlias st) (ioAlias st)
                        (hasContext st) (hasNetHTTP st) (hasIO st) (hasJSON st) true
        else st in
      st
  | _ => st
  end.

Definition checkDecl (st : importState) (decl : Decl) : importState :=
  match decl with
  | GenDecl IMPORT specs => fold_left checkSpec specs st
  | _ => st
  end.

Definition addRequiredImports (decls : list Decl) (handlerSig : HandlerSignature)
  : list Decl * (string * string * string) :=
  let st := fold_left checkDecl decls initialState in
  let needIO := HasInput handlerSig in
  let needJSON := HasOutput handlerSig in
  let needLog := HasError handlerSig in
  let aliases := (contextAlias st, httpAlias st, ioAlias st) in
  if negb (hasContext st) || negb (hasNetHTTP st) || (needIO && negb (hasIO st))
     || (needJSON && negb (hasJSON st)) || (needLog && negb (hasLog st)) then
    let appended :=
      ((if negb (hasContext st) then [ImportSpec None (quoted "context")] else [])
       ++ (if needJSON && negb (hasJSON st)
           then [ImportSpec None (quoted "encoding/json")] else [])
       ++ (if needIO && negb (hasIO st) then [ImportSpec None (quoted "io")] else [])
       ++ (if needLog && negb (hasLog st) then [ImportSpec None (quoted "log")] else [])
       ++ (if negb (hasNetHTTP st) then [ImportSpec None (quoted "net/http")] else []))%list in
    match appendToFirstImport appended decls with
    | Some decls' => (decls', aliases)
    | None =>
        let specs :=
          ([ImportSpec None (quoted "context")]
           ++ (if needJSON then [ImportSpec None (quoted "encoding/json")] else [])
           ++ (if needIO then [ImportSpec None (quoted "io")] else [])
           ++ (if needLog then [ImportSpec None (quoted "log")] else [])
           ++ [ImportSpec None (quoted "net/http")])%list in
        (GenDecl IMPORT specs :: decls, aliases)
    end
  else (decls, aliases).

End Legacy.

(** The keys in the order in which the earlier copy appends them. *)
Definition legacyOrder : MapOrder :=
  mkMapOrder ["context"; "encoding/json"; "io"; "log"; "net/http"]
             ["context"; "encoding/json"; "io"; "log"; "net/http"].

(** The loop body of the earlier copy on a flattened import spec. *)
Definition legacyStep (st : Legacy.importState) (spec : option string * string)
  : Legacy.importState :=
  Legacy.checkSpec st (ImportSpec (fst spec) (snd spec)).

(** The declaration type with the names of its parameters and results
    forgotten. *)
Definition stripNames (typ : FuncType) : FuncType :=
  mkFuncType (option_map (map (fun fd => mkField [] (FieldType fd))) (Params typ))
             (option_map (map (fun fd => mkField [] (FieldType fd))) (Results typ)).

(** [import ( h `net/http`; "github.com/aws/aws-lambda-go/lambda" )], the
    path of [net/http] written as a raw string literal, with a handler
    [func handleRequest() error]. *)
Definition rawHttpFile : File :=
  mkFile "main"
    [ GenDecl IMPORT [ ImportSpec (Some "h") (rawLiteral "net/http");
                       ImportSpec None lambdaImportPath ];
      handlerDecl errorOnlyHandlerType;
      mainCalling [Ident "handleRequest"] ].
(** ** Facts about strings *)

Section StringFacts.

Lemma append_cons (c : ascii) (s t : string) :
  String c s ++ t = String c (s ++ t).
Proof. reflexivity. Qed.

Lemma append_nil (t : string) : EmptyString ++ t = t.
Proof. reflexivity. Qed.

Lemma prefix_dot (s : string) :
  String.prefix "." s =
  match s with String c _ => Ascii.eqb c "." | EmptyString => false end.
Proof.
  destruct s as [|c s]; [reflexivity|]. cbn [String.prefix].
  destruct (ascii_dec "." c) as [<-|Hne].
  - destruct s; reflexivity.
  - symmetry. apply Ascii.eqb_neq. congruence.
Qed.

Lemma IndexFrom_dot (s : string) (i : Z) :
  strings.IndexFrom "." s i =
  match splitAtDot s with
  | Some (p, _) => i + Z.of_nat (String.length p)
  | None => -1
  end.
Proof.
  revert i. induction s as [|c s IH]; intros i.
  - reflexivity.
  - cbn [strings.IndexFrom splitAtDot]. rewrite prefix_dot.
    destruct (Ascii.eqb c "."); [simpl; lia|].
    rewrite IH. destruct (splitAtDot s) as [[p f]|]; [|reflexivity].
    cbn [String.length]. lia.
Qed.

Lemma splitAtDot_Some (s p f : string) :
  splitAtDot s = Some (p, f) -> s = p ++ String "." f.
Proof.
  revert p f. induction s as [|c s IH]; intros p f; simpl; [discriminate|].
  destruct (Ascii.eqb_spec c ".") as [->|Hne].
  - intros [= <- <-]. reflexivity.
  - destruct (splitAtDot s) as [[p' f']|]; [|discriminate].
    intros [= <- <-]. rewrite append_cons. f_equal. apply IH. reflexivity.
Qed.

Lemma splitAtDot_app (p f : string) :
  splitAtDot p = None -> splitAtDot (p ++ String "." f) = Some (p, f).
Proof.
  induction p as [|c p IH]; [reflexivity|].
  rewrite append_cons. cbn [splitAtDot].
  destruct (Ascii.eqb c "."); [discriminate|].
  destruct (splitAtDot p) as [[? ?]|]; [discriminate|].
  intros _. rewrite IH; reflexivity.
Qed.

Lemma slice_prefix (p t : string) :
  slice (p ++ t) 0 (String.length p) = p.
Proof.
  unfold slice. rewrite Nat.sub_0_r.
  induction p as [|c p IH].
  - destruct t; reflexivity.
  - rewrite append_cons. cbn [String.length substring]. f_equal. exact IH.
Qed.

Lemma substring_all (s : string) : substring 0 (String.length s) s = s.
Proof. induction s as [|c s IH]; simpl; [reflexivity | f_equal; exact IH]. Qed.

Lemma slice_suffix (p f : string) :
  slice (p ++ String "." f) (S (String.length p))
        (String.length (p ++ String "." f)) = f.
Proof.
  unfold slice. induction p as [|c p IH].
  - rewrite append_nil. cbn [String.length substring Nat.sub].
    rewrite Nat.sub_0_r. apply substring_all.
  - rewrite append_cons. cbn [String.length substring Nat.sub]. exact IH.
Qed.

End StringFacts.

(** ** The synthesizer follows the recipe *)

Lemma handlerFuncExpr_callee (name : string) :
  (let idx := strings.Index name "." in
   if negb (idx =? -1) then
     SelectorExpr (Ident (slice name 0 (Z.to_nat idx)))
                  (slice name (Z.to_nat (idx + 1)) (String.length name))
   else Ident name) = handlerCallee name.
Proof.
  unfold handlerCallee, strings.Index. cbv zeta. rewrite IndexFrom_dot.
  destruct (splitAtDot name) as [[p f]|] eqn:E; [|reflexivity].
  apply splitAtDot_Some in E. subst name.
  replace (0 + Z.of_nat (String.length p) =? -1) with false by (symmetry; apply Z.eqb_neq; lia).
  cbn [negb].
  replace (Z.to_nat (0 + Z.of_nat (String.length p))) with (String.length p) by lia.
  replace (Z.to_nat (0 + Z.of_nat (String.length p) + 1)) with (S (String.length p)) by lia.
  rewrite slice_prefix, slice_suffix. reflexivity.
Qed.

(** C1. For every signature model (hence for each of the nine canonical
    shapes) the dispatch method synthesized by [createHandleMethod] is the
    method [Handle] whose body is exactly the recipe: the body read iff
    [HasInput]; the handler called on [ctx] iff [HasContext], then [body]
    iff [HasInput]; the call bound to [result, err], [err], [result] or
    nothing according to [HasOutput] and [HasError]; the handler referenced
    by a selector when its name splits at a dot and by a bare identifier
    otherwise; the error guard (log, status 500, return) iff [HasError],
    placed before the JSON encoding statement, which comes last iff
    [HasOutput]. *)
Theorem createHandleMethod_recipe
    (name contextAlias httpAlias ioAlias : string) (sig : HandlerSignature) :
  FuncBody (createHandleMethod name contextAlias httpAlias ioAlias sig)
  = Some (recipeBody name ioAlias sig).
Proof.
  unfold createHandleMethod, recipeBody, handlerCallArgs, bindCall, append.
  cbv zeta. cbn [FuncBody].
  pose proof (handlerFuncExpr_callee name) as Hc. cbv zeta in Hc. rewrite Hc.
  destruct sig as [[] [] [] []]; reflexivity.
Qed.

(** ** Signature classification *)

Section Classification.

Ltac results_cases rs :=
  let t := fresh "t" in
  destruct rs as [[|[? t] [|? [|? ?]]]|]; cbn; try reflexivity;
  destruct t; cbn; try reflexivity;
  match goal with
  | |- context [String.eqb ?n "error"] => destruct (String.eqb n "error")
  end;
  reflexivity.

Lemma fold_analyzeStep_app (name : string) (l1 l2 : list Decl) (s : option HandlerSignature) :
  fold_left (analyzeStep name) (l1 ++ l2) s
  = fold_left (analyzeStep name) l2 (fold_left (analyzeStep name) l1 s).
Proof. apply fold_left_app. Qed.

(** The state of the walk after a list of declarations: the signature of
    the last declaration of the wanted name, the previous state if there
    is none. *)
Lemma fold_analyzeStep_spec (name : string) (ds : list Decl) (s : option HandlerSignature) :
  (existsb (isFuncNamed name) ds = false /\ fold_left (analyzeStep name) ds s = s)
  \/ (exists d typ, In d ds /\ isFuncNamed name d = true /\ DeclType d = Some typ
                    /\ fold_left (analyzeStep name) ds s = Some (analyzeFuncType typ)).
Proof.
  revert s. induction ds as [|d ds IH]; intros s.
  - left. split; reflexivity.
  - cbn [fold_left existsb].
    destruct (IH (analyzeStep name s d)) as [[Hno Hs] | (d' & typ & Hin & Hn & Ht & Hs)].
    + destruct d as [tok specs | recv n typ body]; cbn [analyzeStep isFuncNamed] in *.
      * left. split; [exact Hno | exact Hs].
      * destruct (String.eqb n name) eqn:E.
        -- right. exists (FuncDecl recv n typ body), typ.
           repeat split; [left; reflexivity | exact E | exact Hs].
        -- left. split; [exact Hno | exact Hs].
    + right. exists d', typ. repeat split; [right; exact Hin | exact Hn | exact Ht | exact Hs].
Qed.

(** Where the local strategy follows the rules: every declaration whose
    first parameter is not of a selector type other than
    [context.Context]. *)
Lemma analyzeFuncType_rules (typ : FuncType) :
  foreignSelectorFirst typ = false ->
  analyzeFuncType typ = ruleSignature typ.
Proof.
  destruct typ as [ps rs]. unfold foreignSelectorFirst, analyzeFuncType, ruleSignature.
  cbn [Params Results]. intros Hf.
  destruct ps as [[|[names t] ps]|]; cbn in Hf |- *;
    [ results_cases rs | | results_cases rs ].
  destruct t as [| |X Sel| | | | | | | |]; cbn in Hf |- *;
    try (destruct ps as [|p2 [|p3 ps]]; results_cases rs).
  destruct X as [q| | | | | | | | | |]; cbn in Hf |- *; try discriminate Hf.
  destruct (String.eqb q "context" && String.eqb Sel "Context"); [|discriminate Hf].
  destruct ps as [|p2 [|p3 ps]]; results_cases rs.
Qed.

End Classification.

(** C2 (the code departs from the claim).  The handler
    [func handleRequest(event json.RawMessage) error] has the canonical
    shape [(in) -> error], for which the rules give [HasInput] and
    [HasError]; the local strategy answers [HasError] alone: the branch
    for a single non-context parameter is not reached when the parameter's
    type is written as a selector. *)
Theorem analyzeHandlerSignature_selector_input_missed :
  canonicalDecl rawMessageHandlerType = true /\
  ruleSignature rawMessageHandlerType = mkSig false true false true /\
  In (mkSig false true false true) canonicalShapes /\
  analyzeHandlerSignature rawMessageFile "handleRequest"
  = Ok (mkSig false false false true).
Proof.
  repeat split; try reflexivity.
  cbn. tauto.
Qed.

(** C3 (the code departs from the claim).  For the declaration
    [func handleRequest(e MyEvent) error], with [MyEvent] a struct type of
    the same package, the two strategies are both applicable and disagree
    on [HasInput]: the local one sees an identifier and sets it, the
    cross-module one sees a named type that is not [context.Context] and
    sets nothing. *)
Theorem strategies_disagree_on_named_input :
  exists sg,
    signatureOf myEventEnv myEventHandlerType = Some sg /\
    analyzeHandlerSignature myEventFile "handleRequest"
    = Ok (mkSig false true false true) /\
    analyzeHandlerSignatureWithTypes (Some [myEventPackage sg]) "handleRequest"
    = Ok (mkSig false false false true).
Proof.
  eexists. split; [reflexivity|]. split; reflexivity.
Qed.

(** The strategies also disagree when the context package is imported
    under another name: for [func handleRequest(c ctx.Context) error] with
    [import ctx "context"], the local strategy compares the qualifier with
    the text "context" and misses it; the type checker resolves it. *)
Lemma strategies_disagree_on_aliased_context :
  exists sg,
    signatureOf aliasedContextEnv aliasedContextHandlerType = Some sg /\
    analyzeFuncType aliasedContextHandlerType = mkSig false false false true /\
    analyzeSignature sg = mkSig true false false true.
Proof.
  eexists. split; [reflexivity|]. split; reflexivity.
Qed.

(** Counterexample to C4 as stated: a handler with three parameters is
    not of a canonical shape, and the classification returns a model for
    it instead of failing. *)
Lemma analyzeHandlerSignature_three_params_accepted :
  canonicalDecl threeParamsHandlerType = false /\
  analyzeHandlerSignature threeParamsFile "handle" = Ok (mkSig true false false true).
Proof. split; reflexivity. Qed.

(** C4 (amended).  [analyzeHandlerSignature] fails, with "handler function
    not found", exactly when the file has no function declaration of the
    handler's name; whenever there is one it returns the model computed
    from such a declaration, canonical or not, and the flags that no rule
    sets stay false. *)
Theorem analyzeHandlerSignature_total (file : File) (handlerName : string) :
  match analyzeHandlerSignature file handlerName with
  | Ok sig =>
      existsb (isFuncNamed handlerName) (Decls file) = true /\
      Exists (fun d => isFuncNamed handlerName d = true /\
                       option_map analyzeFuncType (DeclType d) = Some sig)
             (Decls file)
  | Err e =>
      e = ErrHandlerNotFound handlerName /\
      existsb (isFuncNamed handlerName) (Decls file) = false
  | Panic => False
  end.
Proof.
  unfold analyzeHandlerSignature.
  destruct (fold_analyzeStep_spec handlerName (Decls file) None)
    as [[Hno ->] | (d & typ & Hin & Hn & Ht & ->)].
  - split; [reflexivity | exact Hno].
  - split.
    + apply existsb_exists. exists d. split; assumption.
    + apply Exists_exists. exists d. split; [apply list_elem_of_In; exact Hin|].
      split; [exact Hn|]. rewrite Ht. reflexivity.
Qed.

(** ** Entry-point locator *)

Section Locator.

Lemma list_all_Forall {A : Set} (P : A -> Prop) (l : list A) :
  list_all A P l -> Forall P l.
Proof. induction 1; constructor; assumption. Qed.

Lemma startCallback_startRef (e : Expr) (st : option HandlerReference) :
  startCallback (NExpr e) st =
  match startRef e with
  | Some r => (Some r, false)
  | None => (st, true)
  end.
Proof.
  destruct e as [| |X Sel|Fn Args| | | | | | |]; try reflexivity.
  destruct Fn as [| |X Sel| | | | | | | |]; try reflexivity.
  destruct X as [q| | | | | | | | | |]; try reflexivity.
  cbn [startCallback startRef].
  destruct (String.eqb q "lambda" && String.eqb Sel "Start"); [|reflexivity].
  destruct Args as [|a Args]; [reflexivity|].
  destruct a as [| |X Sel'| | | | | | | |]; try reflexivity.
  destruct X; reflexivity.
Qed.

Lemma walkSpec_ext W W' N :
  (forall st, W st = W' st) -> walkSpec W' N -> walkSpec W N.
Proof.
  intros He H st. rewrite He. apply H.
Qed.

Lemma walkSpec_nil : walkSpec (fun st => st) [].
Proof. intros st. left. split; reflexivity. Qed.

Lemma walkSpec_comp W1 W2 N1 N2 :
  walkSpec W1 N1 -> walkSpec W2 N2 ->
  walkSpec (fun st => W2 (W1 st)) (N1 ++ N2)%list.
Proof.
  intros H1 H2 st. rewrite omap_app.
  destruct (H2 (W1 st)) as [[E2 S2] | (r & Hr & S2)].
  - rewrite S2, E2, app_nil_r. apply H1.
  - right. exists r. split; [apply in_or_app; right; exact Hr | exact S2].
Qed.

Lemma walkSpec_fold {A : Set} (w : A -> option HandlerReference -> option HandlerReference)
    (n : A -> list Expr) (l : list A) :
  Forall (fun a => walkSpec (w a) (n a)) l ->
  walkSpec (fun st => fold_left (fun s a => w a s) l st) (flat_map n l).
Proof.
  induction 1 as [|a l Ha Hl IH].
  - apply walkSpec_nil.
  - cbn [fold_left flat_map].
    apply (walkSpec_comp (w a) (fun st => fold_left (fun s a => w a s) l st)); assumption.
Qed.

Lemma walkSpec_node W e N :
  (forall st, W st = match startRef e with Some r => Some r | None => W st end) ->
  (startRef e = None -> walkSpec W N) ->
  walkSpec W (e :: N).
Proof.
  intros HW HN st. cbn [omap]. unfold list_omap. fold (omap startRef N).
  destruct (startRef e) as [r|] eqn:E.
  - right. exists r. split; [left; reflexivity | apply HW].
  - apply HN. reflexivity.
Qed.


Lemma inspectExpr_eq {S} (f : Node -> S -> S * bool) (e : Expr) (s : S) :
  inspectExpr f e s =
  let '(s, descend) := f (NExpr e) s in
  if descend then
    match e with
    | Ident _ | BasicLit _ _ => s
    | SelectorExpr X _ => inspectExpr f X s
    | CallExpr Fun Args =>
        fold_left (fun s a => inspectExpr f a s) Args (inspectExpr f Fun s)
    | StarExpr X => inspectExpr f X s
    | UnaryExpr _ X => inspectExpr f X s
    | BinaryExpr X _ Y => inspectExpr f Y (inspectExpr f X s)
    | CompositeLit Typ Elts =>
        fold_left (fun s a => inspectExpr f a s) Elts
          (match Typ with Some t => inspectExpr f t s | None => s end)
    | ArrayType Elt => inspectExpr f Elt s
    | StructType Fields => fold_left (fun s a => inspectField f a s) Fields s
    | FuncLit Params Results Body =>
        fold_left (fun s a => inspectStmt f a s) Body
          (fold_left (fun s a => inspectField f a s) Results
             (fold_left (fun s a => inspectField f a s) Params s))
    end
  else s.
Proof. destruct e; reflexivity. Qed.

Lemma inspectStmt_eq {S} (f : Node -> S -> S * bool) (st : Stmt) (s : S) :
  inspectStmt f st s =
  let '(s, descend) := f (NStmt st) s in
  if descend then
    match st with
    | ExprStmt X => inspectExpr f X s
    | AssignStmt Lhs _ Rhs =>
        fold_left (fun s a => inspectExpr f a s) Rhs
          (fold_left (fun s a => inspectExpr f a s) Lhs s)
    | ReturnStmt Results => fold_left (fun s a => inspectExpr f a s) Results s
    | IfStmt Cond Body Else =>
        let s := fold_left (fun s a => inspectStmt f a s) Body (inspectExpr f Cond s) in
        match Else with Some e => inspectStmt f e s | None => s end
    | BlockStmt List => fold_left (fun s a => inspectStmt f a s) List s
    | DeferStmt Call => inspectExpr f Call s
    end
  else s.
Proof. destruct st; reflexivity. Qed.

Lemma inspectField_eq {S} (f : Node -> S -> S * bool) (fd : Field) (s : S) :
  inspectField f fd s =
  let '(s, descend) := f (NField fd) s in
  if descend then inspectExpr f (FieldType fd) s else s.
Proof. destruct fd; reflexivity. Qed.

Ltac node_step :=
  apply walkSpec_node;
  [ intros st; rewrite inspectExpr_eq, startCallback_startRef;
    destruct (startRef _); reflexivity
  | intros E; eapply walkSpec_ext;
    [ intros st; rewrite inspectExpr_eq, startCallback_startRef, E;
      cbv beta iota zeta; reflexivity | ] ].

Ltac stmt_step :=
  eapply walkSpec_ext;
  [ intros st; first [rewrite inspectStmt_eq | rewrite inspectField_eq];
    cbn [startCallback]; cbv beta iota zeta; reflexivity | ].

Lemma walkSpec_then_fold {A : Set}
    (w : A -> option HandlerReference -> option HandlerReference)
    (n : A -> list Expr) (l : list A) W0 N0 :
  walkSpec W0 N0 ->
  Forall (fun a => walkSpec (w a) (n a)) l ->
  walkSpec (fun st => fold_left (fun s a => w a s) l (W0 st)) (N0 ++ flat_map n l)%list.
Proof.
  intros H0 Hl.
  apply (walkSpec_comp W0 (fun st => fold_left (fun s a => w a s) l st)).
  - exact H0.
  - apply walkSpec_fold. exact Hl.
Qed.

Lemma walkSpec_option (W : Expr -> option HandlerReference -> option HandlerReference)
    (o : option Expr) :
  option_all Expr (fun e => walkSpec (W e) (exprsOfExpr e)) o ->
  walkSpec (fun st => match o with Some t => W t st | None => st end)
           (match o with Some t => exprsOfExpr t | None => [] end).
Proof.
  destruct 1.
  - assumption.
  - apply walkSpec_nil.
Qed.

Lemma inspect_walkSpec :
  (forall e, walkSpec (inspectExpr startCallback e) (exprsOfExpr e))
  /\ (forall s, walkSpec (inspectStmt startCallback s) (exprsOfStmt s))
  /\ (forall f, walkSpec (inspectField startCallback f) (exprsOfField f)).
Proof.
  apply ast_mutind; intros; cbn [exprsOfExpr exprsOfStmt exprsOfField].
  all: try node_step.
  all: try stmt_step.
  all: try apply walkSpec_nil.
  all: repeat match goal with H : list_all _ _ _ |- _ => apply list_all_Forall in H end.
  all: try assumption.
  - (* CallExpr *)
    apply (walkSpec_then_fold (inspectExpr startCallback) exprsOfExpr); assumption.
  - (* BinaryExpr *)
    apply (walkSpec_comp (inspectExpr startCallback X) (inspectExpr startCallback Y));
      assumption.
  - (* CompositeLit *)
    apply (walkSpec_then_fold (inspectExpr startCallback) exprsOfExpr Elts
             (fun st => match Typ with Some t => inspectExpr startCallback t st | None => st end));
      [apply walkSpec_option|]; assumption.
  - (* StructType *)
    apply (walkSpec_fold (inspectField startCallback) exprsOfField). assumption.
  - (* FuncLit *)
    rewrite app_assoc.
    match goal with
    | |- walkSpec _ ((flat_map _ ?ps ++ flat_map _ ?rs) ++ flat_map _ ?body)%list =>
        apply (walkSpec_then_fold (inspectStmt startCallback) exprsOfStmt body
                 (fun st => fold_left (fun s a => inspectField startCallback a s) rs
                              (fold_left (fun s a => inspectField startCallback a s) ps st)));
          [|assumption];
        apply (walkSpec_then_fold (inspectField startCallback) exprsOfField rs
                 (fun st => fold_left (fun s a => inspectField startCallback a s) ps st));
          [|assumption]
    end.
    apply (walkSpec_fold (inspectField startCallback) exprsOfField). assumption.
  - (* AssignStmt *)
    apply (walkSpec_then_fold (inspectExpr startCallback) exprsOfExpr Rhs
             (fun st => fold_left (fun s a => inspectExpr startCallback a s) Lhs st));
      [|assumption].
    apply (walkSpec_fold (inspectExpr startCallback) exprsOfExpr). assumption.
  - (* ReturnStmt *)
    apply (walkSpec_fold (inspectExpr startCallback) exprsOfExpr). assumption.
  - (* IfStmt *)
    rewrite app_assoc.
    apply (walkSpec_ext _
             (fun st => (fun st' => match Else with
                                    | Some e => inspectStmt startCallback e st'
                                    | None => st'
                                    end)
                          (fold_left (fun s a => inspectStmt startCallback a s) Body
                             (inspectExpr startCallback Cond st)))).
    { intros st. destruct Else; reflexivity. }
    apply (walkSpec_comp
             (fun st => fold_left (fun s a => inspectStmt startCallback a s) Body
                          (inspectExpr startCallback Cond st))
             (fun st' => match Else with
                         | Some e => inspectStmt startCallback e st'
                         | None => st'
                         end)).
    + apply (walkSpec_then_fold (inspectStmt startCallback) exprsOfStmt); assumption.
    + match goal with H : option_all _ _ _ |- _ => destruct H end;
        [assumption | apply walkSpec_nil].
  - (* BlockStmt *)
    apply (walkSpec_fold (inspectStmt startCallback) exprsOfStmt). assumption.
Qed.

Lemma mainsWalk_spec (file : File) :
  walkSpec (mainsWalk (Decls file)) (mainExprs file).
Proof.
  unfold mainsWalk, mainExprs.
  apply (walkSpec_fold
           (fun d st => if isMain d
                        then inspectStmt startCallback (BlockStmt (default [] (FuncBody d))) st
                        else st)
           (fun d => if isMain d
                     then flat_map exprsOfStmt (default [] (FuncBody d))
                     else [])).
  apply Forall_forall. intros d _.
  destruct (isMain d).
  - apply (proj1 (proj2 inspect_walkSpec) (BlockStmt _)).
  - apply walkSpec_nil.
Qed.

Lemma fold_findStep (ds : list Decl) (st : option HandlerReference) (fm : bool) :
  forallb (fun d => negb (isMain d) || bool_decide (FuncBody d <> None)) ds = true ->
  fold_left findStep ds (Ok (st, fm)) = Ok (mainsWalk ds st, fm || existsb isMain ds).
Proof.
  revert st fm. induction ds as [|d ds IH]; intros st fm Hb.
  - cbn. rewrite orb_false_r. reflexivity.
  - cbn [forallb] in Hb. apply andb_true_iff in Hb as [Hd Hb].
    cbn [fold_left existsb mainsWalk]. fold (mainsWalk ds).
    destruct d as [tok specs | recv name typ body].
    + cbn. apply IH. exact Hb.
    + unfold isMain in *. cbn [isFuncNamed findStep bind] in *.
      destruct (String.eqb name "main") eqn:E.
      * destruct body as [stmts|]; [|discriminate Hd].
        rewrite IH by exact Hb. cbn [FuncBody default from_option id].
        rewrite orb_true_l, orb_true_r. reflexivity.
      * rewrite IH by exact Hb. reflexivity.
Qed.

Lemma startRef_designates (c : Expr) (r : HandlerReference) :
  startRef c = Some r -> isStartCall c = true /\ designates c r.
Proof.
  destruct c as [| |X Sel|Fn Args| | | | | | |]; try discriminate.
  destruct Fn as [| |X Sel| | | | | | | |]; try discriminate.
  destruct X as [q| | | | | | | | | |]; try discriminate.
  cbn [startRef isStartCall].
  destruct (String.eqb q "lambda" && String.eqb Sel "Start") eqn:E; [|discriminate].
  apply andb_true_iff in E as [Eq Es].
  apply String.eqb_eq in Eq, Es. subst q Sel.
  destruct Args as [|a Args]; [discriminate|].
  destruct a as [h| |X Sel'| | | | | | | |]; try discriminate.
  - intros [= <-]. split; [reflexivity|]. left. exists h, Args. split; reflexivity.
  - destruct X as [pkg| | | | | | | | | |]; try discriminate.
    intros [= <-]. split; [reflexivity|]. right. exists pkg, Sel', Args. split; reflexivity.
Qed.

(** Counterexample to C5 as stated: [main] exists, has a body and calls
    [lambda.Start] with a string literal; the locator fails with "lambda.Start()
    call not found", the error of a [main] without any start call. *)
Lemma literalStart_not_found :
  hasMain literalStartFile = true /\
  mainsHaveBody literalStartFile = true /\
  startCalls literalStartFile = [lambdaStart [BasicLit STRING (quoted "handler")]] /\
  findLambdaHandler literalStartFile = Err ErrStartNotFound.
Proof. repeat split; reflexivity. Qed.

(** C5 (amended).  When the declarations named [main] have bodies,
    [findLambdaHandler] fails with "main function not found" exactly when
    no declaration is named [main]; it fails with "lambda.Start() call not
    found" exactly when [main] exists and no call of [lambda.Start] in it
    has an identifier or a [package.Identifier] selector as first argument
    (a call with a literal or a call expression as argument falls here:
    there is no separate error for it); otherwise it succeeds with the
    reference designated by one of those calls: both names equal to the
    identifier, or the selected name and the dotted name. *)
Theorem findLambdaHandler_outcome (file : File) :
  mainsHaveBody file = true ->
  match findLambdaHandler file with
  | Err e =>
      (e = ErrMainNotFound /\ hasMain file = false)
      \/ (e = ErrStartNotFound /\ hasMain file = true /\ supportedStarts file = [])
  | Ok r =>
      hasMain file = true /\
      In r (supportedStarts file) /\
      exists c, In c (startCalls file) /\ designates c r
  | Panic => False
  end.
Proof.
  intros Hb. unfold findLambdaHandler, mainsHaveBody in *.
  rewrite (fold_findStep _ _ _ Hb). cbn [bind orb]. fold (hasMain file).
  destruct (hasMain file) eqn:Hm; cbn [negb].
  - destruct (mainsWalk_spec file None) as [[Hnil ->] | (r & Hr & ->)].
    + right. repeat split; assumption.
    + repeat split; [exact Hr|].
      unfold supportedStarts in Hr. apply list_elem_of_In, list_elem_of_omap in Hr.
      destruct Hr as (c & Hc & Hs). apply startRef_designates in Hs as [Hs Hd].
      exists c. split; [|exact Hd].
      unfold startCalls. apply filter_In. split; [apply list_elem_of_In; exact Hc | exact Hs].
  - left. split; reflexivity.
Qed.

Lemma findLambdaHandler_outcome_witness :
  mainsHaveBody rawMessageFile = true /\
  match findLambdaHandler rawMessageFile with
  | Err e =>
      (e = ErrMainNotFound /\ hasMain rawMessageFile = false)
      \/ (e = ErrStartNotFound /\ hasMain rawMessageFile = true
          /\ supportedStarts rawMessageFile = [])
  | Ok r =>
      hasMain rawMessageFile = true /\
      In r (supportedStarts rawMessageFile) /\
      exists c, In c (startCalls rawMessageFile) /\ designates c r
  | Panic => False
  end.
Proof.
  split; [reflexivity|]. apply (findLambdaHandler_outcome rawMessageFile). reflexivity.
Defined.
End Locator.

(** ** Import rewriter and orchestrator on sample files *)

(** C6 (the code departs from the claim).  On a file with the two import
    declarations [import "github.com/aws/aws-lambda-go/lambda"] and
    [import "github.com/aws/aws-lambda-go/events"], the first declaration
    is emptied and removed from [file.Decls] while the loop ranges over
    it; the second declaration moves into the slot just visited and is
    never examined.  It is still in the declaration list, with its
    [aws-lambda-go] import, after [removeLambdaImport] and after the whole
    transform. *)
Theorem removeLambdaImport_skips_block_after_removed :
  (exists s,
     removeLambdaImport (loadDecls (Decls twoImportDeclsFile)) = Ok s /\
     readDecls s = [ GenDecl IMPORT [ImportSpec None eventsImportPath];
                     handlerDecl errorOnlyHandlerType;
                     mainCalling [Ident "handleRequest"] ]) /\
  (exists out,
     migrate declOrder None twoImportDeclsFile = Ok out /\
     existsb declHasLambdaImport (Decls out) = true).
Proof.
  split.
  - eexists. split; reflexivity.
  - eexists. split; [vm_compute; reflexivity | vm_compute; reflexivity].
Qed.

(** C7 (the code departs from the claim).  The file imports [log] under
    the alias [l] and its handler returns an error.  The import is found,
    so no plain [log] import is added; the guard of the synthesized method
    still calls [log.Printf], not [l.Printf]. *)
Theorem createHandleMethod_ignores_log_alias :
  exists out handle,
    migrate declOrder None aliasedLogFile = Ok out /\
    Decls out !! 0%nat = Some (GenDecl IMPORT [ ImportSpec (Some "l") (quoted "log");
                                                ImportSpec None (quoted "context");
                                                ImportSpec None (quoted "net/http") ]) /\
    last (Decls out) = Some handle /\
    FuncBody handle
    = Some [ AssignStmt [Ident "err"] DEFINE [CallExpr (Ident "handleRequest") []];
             errorGuard "log" ] /\
    errorGuard "log" <> errorGuard "l".
Proof.
  eexists. eexists.
  split; [vm_compute; reflexivity|].
  split; [reflexivity|]. split; [reflexivity|]. split; [reflexivity|].
  discriminate.
Qed.

(** The same holds for [encoding/json] imported as [j]: the encoding
    statement calls [json.NewEncoder]. *)
Lemma createHandleMethod_ignores_json_alias :
  exists out handle,
    migrate declOrder None aliasedJsonFile = Ok out /\
    Decls out !! 0%nat
    = Some (GenDecl IMPORT [ ImportSpec (Some "j") (quoted "encoding/json");
                             ImportSpec None (quoted "context");
                             ImportSpec None (quoted "net/http");
                             ImportSpec None (quoted "io");
                             ImportSpec None (quoted "log") ]) /\
    last (Decls out) = Some handle /\
    option_map (fun body => last body) (FuncBody handle) = Some (Some (encodeStmt "json")).
Proof.
  eexists. eexists.
  split; [vm_compute; reflexivity|].
  split; [reflexivity|]. split; reflexivity.
Qed.

(** The aliases of [context] and [net/http] are used: the sibling path
    that the log and JSON references lack. *)
Lemma createHandleMethod_uses_context_http_alias :
  exists out handle,
    migrate declOrder None allAliasedFile = Ok out /\
    last (Decls out) = Some handle /\
    option_map Params (DeclType handle)
    = Some (Some [ mkField ["ctx"] (SelectorExpr (Ident "c") "Context");
                   mkField ["w"] (SelectorExpr (Ident "h") "ResponseWriter");
                   mkField ["r"] (StarExpr (SelectorExpr (Ident "h") "Request")) ]) /\
    FuncBody handle
    = Some [ AssignStmt [Ident "err"] DEFINE [CallExpr (Ident "handleRequest") []];
             errorGuard "log" ].
Proof.
  eexists. eexists.
  split; [vm_compute; reflexivity|].
  split; [reflexivity|]. split; reflexivity.
Qed.

(** C8 (the code departs from the claim).  The missing imports are
    collected by a [range] over a Go map.  Two runs that meet the keys in
    different orders, both of them orders a run may meet, write the
    imports in different orders: the outputs for the same input differ. *)
Theorem transform_depends_on_map_order :
  validOrder declOrder /\ validOrder reversedOrder /\
  (exists out1 out2,
     migrate declOrder None fmtImportFile = Ok out1 /\
     migrate reversedOrder None fmtImportFile = Ok out2 /\
     Decls out1 !! 0%nat
     = Some (GenDecl IMPORT (ImportSpec None (quoted "fmt")
                             :: map createImportSpec importKeys)) /\
     Decls out2 !! 0%nat
     = Some (GenDecl IMPORT (ImportSpec None (quoted "fmt")
                             :: map createImportSpec (rev importKeys))) /\
     out1 <> out2).
Proof.
  split; [split; reflexivity|].
  split; [split; apply Permutation_sym, Permutation_rev|].
  eexists. eexists.
  split; [vm_compute; reflexivity|].
  split; [vm_compute; reflexivity|].
  split; [reflexivity|]. split; [reflexivity|].
  discriminate.
Qed.

(** ** Import removal and the frame of the transform *)

Section Remove.
Local Open Scope nat_scope.
Local Open Scope list_scope.

Lemma isImportDecl_spec (d : Decl) :
  isImportDecl d = true <-> exists specs, d = GenDecl IMPORT specs.
Proof.
  split.
  - destruct d as [[] specs|]; try discriminate. intros _. exists specs. reflexivity.
  - intros [specs ->]. reflexivity.
Qed.

Lemma removeStep_other (s : DeclSlice) (i p : nat) :
  array s !! i = Some p ->
  (forall d, store s !! p = Some d -> isImportDecl d = false) ->
  removeStep (Ok s) i = Ok s.
Proof.
  intros Hp Hd. unfold removeStep. cbn [bind]. rewrite Hp.
  destruct (store s !! p) as [d|] eqn:E; [|reflexivity].
  specialize (Hd d eq_refl).
  destruct d as [[] specs|]; try reflexivity. discriminate Hd.
Qed.

Lemma delete_slot (L1 L2 M T : list nat) (p x : nat) :
  let arr := (L1 ++ p :: L2) ++ (M ++ [x]) ++ T in
  let n := length L1 + S (length L2) + length (M ++ [x]) in
  take (length L1) arr
  ++ take (n - (length L1 + 1)) (drop (length L1 + 1) arr)
  ++ drop (n - 1) arr
  = (L1 ++ L2) ++ (M ++ [x]) ++ x :: T.
Proof.
  cbv zeta. rewrite length_app. cbn [length].
  rewrite <- !app_assoc. cbn [app].
  rewrite take_app_length.
  replace (L1 ++ p :: L2 ++ M ++ x :: T) with ((L1 ++ [p]) ++ L2 ++ M ++ x :: T)
    by (rewrite <- app_assoc; reflexivity).
  replace (length L1 + 1) with (length (L1 ++ [p])) by (rewrite length_app; cbn; lia).
  rewrite drop_app_length.
  replace (length L1 + S (length L2) + (length M + 1) - length (L1 ++ [p]))
    with (length (L2 ++ M ++ [x])) by (rewrite !length_app; cbn; lia).
  replace (L2 ++ M ++ x :: T) with ((L2 ++ M ++ [x]) ++ T)
    by (rewrite <- !app_assoc; reflexivity).
  rewrite take_app_length.
  replace (length L1 + S (length L2) + (length M + 1) - 1)
    with (length ((L1 ++ [p]) ++ L2 ++ M)) by (rewrite !length_app; cbn; lia).
  replace ((L1 ++ [p]) ++ (L2 ++ M ++ [x]) ++ T)
    with (((L1 ++ [p]) ++ L2 ++ M) ++ x :: T)
    by (rewrite <- !app_assoc; reflexivity).
  rewrite drop_app_length.
  rewrite <- !app_assoc. reflexivity.
Qed.

Lemma removeStep_inv (k : nat) (rest : list Decl) (s : DeclSlice) (i : nat) :
  rest <> [] ->
  Forall (fun d => isImportDecl d = false) rest ->
  removeInv k rest s ->
  i < k + length rest ->
  exists s', removeStep (Ok s) i = Ok s' /\ removeInv k rest s'.
Proof.
  intros Hne Hrest (L & T & Harr & Hlen & Hl & HL & HT & Himp & Hdrop) Hi.
  destruct (array s !! i) as [p|] eqn:Hp;
    [|apply lookup_ge_None in Hp; lia].
  destruct (decide (p < k)) as [Hpk|Hpk].
  - (* the slot holds an import declaration: it lies in [L] *)
    assert (HiL : i < length L).
    { destruct (decide (i < length L)) as [|Hge]; [assumption|exfalso].
      rewrite Harr, lookup_app_r in Hp by lia.
      destruct (decide (i - length L < length rest)) as [Hin|Hout].
      - rewrite lookup_app_l in Hp by (rewrite length_seq; exact Hin).
        apply lookup_seq in Hp as [-> _]. lia.
      - rewrite lookup_app_r in Hp by (rewrite length_seq; lia).
        apply list_elem_of_lookup_2 in Hp.
        rewrite Forall_forall in HT. specialize (HT _ Hp). lia. }
    destruct (Himp p Hpk) as [specs Hs].
    unfold removeStep. cbn [bind]. rewrite Hp, Hs.
    destruct (Nat.eqb (length (List.filter keepSpec specs)) 0) eqn:Hf.
    + (* the declaration is removed from the slice *)
      replace (Nat.leb (i + 1) (len s)) with true by (symmetry; apply Nat.leb_le; lia).
      eexists. split; [reflexivity|].
      assert (HpL : L !! i = Some p).
      { rewrite Harr, lookup_app_l in Hp by exact HiL. exact Hp. }
      destruct (list_elem_of_split_length L i p HpL) as (L1 & L2 & -> & HL1).
      assert (Hm : exists m0, length rest = S m0).
      { destruct rest; [congruence|]. eexists. reflexivity. }
      destruct Hm as [m0 Hm].
      exists (L1 ++ L2), ((k + m0) :: T).
      cbn [array len store].
      assert (Hseq : seq k (length rest) = seq k m0 ++ [k + m0]).
      { rewrite Hm, seq_S. reflexivity. }
      assert (Hdel :
        take i (array s) ++ take (len s - (i + 1)) (drop (i + 1) (array s))
        ++ drop (len s - 1) (array s)
        = (L1 ++ L2) ++ seq k (length rest) ++ (k + m0) :: T).
      { rewrite Harr, Hl, HL1, Hseq.
        replace (length (L1 ++ p :: L2) + length rest)
          with (length L1 + S (length L2) + length (seq k m0 ++ [k + m0]))
          by (rewrite !length_app, length_seq; cbn [length]; lia).
        exact (delete_slot L1 L2 (seq k m0) T p (k + m0)). }
      split; [exact Hdel|].
      rewrite Hdel.
      split.
      { rewrite Harr in Hlen.
        rewrite !length_app in Hlen |- *. cbn [length] in Hlen |- *. lia. }
      split; [rewrite Hl, !length_app; cbn [length]; lia|].
      split.
      { apply Forall_app in HL as [H1 H2]. apply Forall_cons in H2 as [_ H2].
        apply Forall_app; split; assumption. }
      split; [constructor; [lia | exact HT]|].
      split; assumption.
    + (* the declaration keeps some of its specs *)
      eexists. split; [reflexivity|].
      exists L, T. cbn [array len store].
      repeat split; try assumption.
      * intros q Hq. destruct (decide (q = p)) as [->|Hqp].
        -- eexists. apply list_lookup_insert_eq. apply lookup_lt_Some in Hs. exact Hs.
        -- rewrite list_lookup_insert_ne by congruence. apply Himp. exact Hq.
      * rewrite drop_insert_lt by exact Hpk. exact Hdrop.
  - (* the slot points into [rest] *)
    exists s. split.
    + apply (removeStep_other s i p Hp). intros d Hd.
      assert (Hr : rest !! (p - k) = Some d).
      { rewrite <- Hdrop, lookup_drop. replace (k + (p - k)) with p by lia. exact Hd. }
      apply list_elem_of_lookup_2 in Hr.
      rewrite Forall_forall in Hrest. apply Hrest. exact Hr.
    + exists L, T. repeat split; assumption.
Qed.

Lemma fold_removeStep_inv (k : nat) (rest : list Decl) (idxs : list nat) (s : DeclSlice) :
  rest <> [] ->
  Forall (fun d => isImportDecl d = false) rest ->
  Forall (fun i => i < k + length rest) idxs ->
  removeInv k rest s ->
  exists s', fold_left removeStep idxs (Ok s) = Ok s' /\ removeInv k rest s'.
Proof.
  intros Hne Hrest Hidx. revert s.
  induction Hidx as [|i idxs Hi _ IH]; intros s Hinv.
  - exists s. split; [reflexivity | exact Hinv].
  - destruct (removeStep_inv k rest s i Hne Hrest Hinv Hi) as (s1 & Hs1 & Hinv1).
    cbn [fold_left]. rewrite Hs1. apply IH. exact Hinv1.
Qed.

Lemma omap_lookup_seq (st rest : list Decl) (k : nat) :
  drop k st = rest -> omap (fun p => st !! p) (seq k (length rest)) = rest.
Proof.
  revert k. induction rest as [|d rest IH]; intros k Hd; [reflexivity|].
  cbn [length seq omap list_omap].
  assert (Hk : st !! k = Some d).
  { rewrite <- (Nat.add_0_r k), <- lookup_drop, Hd. reflexivity. }
  rewrite Hk. f_equal. apply IH.
  replace (S k) with (k + 1) by lia.
  rewrite <- (drop_drop st 1 k), Hd. reflexivity.
Qed.

Lemma omap_lookup_imports (st : list Decl) (k : nat) (L : list nat) :
  (forall p, p < k -> exists specs, st !! p = Some (GenDecl IMPORT specs)) ->
  Forall (fun p => p < k) L ->
  Forall (fun d => isImportDecl d = true) (omap (fun p => st !! p) L).
Proof.
  intros Himp HL. induction HL as [|p L Hp _ IH]; [constructor|].
  cbn [omap list_omap]. destruct (Himp p Hp) as [specs ->].
  constructor; [reflexivity | exact IH].
Qed.

Lemma loadDecls_inv (imps rest : list Decl) :
  Forall (fun d => isImportDecl d = true) imps ->
  removeInv (length imps) rest (loadDecls (imps ++ rest)).
Proof.
  intros Himps. exists (seq 0 (length imps)), [].
  unfold loadDecls. cbn [array len store].
  rewrite length_app, seq_app, app_nil_r, !length_seq. cbn [Nat.add].
  split; [reflexivity|].
  split; [rewrite length_app, !length_seq; reflexivity|].
  split; [reflexivity|].
  split; [apply Forall_forall; intros p Hp; apply elem_of_seq in Hp; lia|].
  split; [constructor|].
  split.
  - intros p Hp. rewrite lookup_app_l by exact Hp.
    destruct (lookup_lt_is_Some_2 imps p Hp) as [d Hd]. rewrite Hd.
    apply list_elem_of_lookup_2 in Hd. rewrite Forall_forall in Himps.
    apply Himps, isImportDecl_spec in Hd as [specs ->]. exists specs. reflexivity.
  - apply drop_app_length.
Qed.

(** On a declaration list with its imports first and something after
    them, [removeLambdaImport] ends without a panic, keeps the
    declarations after the imports as they are, and leaves import
    declarations in front of them. *)
Lemma removeLambdaImport_importsFirst (imps rest : list Decl) :
  Forall (fun d => isImportDecl d = true) imps ->
  Forall (fun d => isImportDecl d = false) rest ->
  rest <> [] ->
  exists s imps',
    removeLambdaImport (loadDecls (imps ++ rest)) = Ok s /\
    readDecls s = imps' ++ rest /\
    Forall (fun d => isImportDecl d = true) imps'.
Proof.
  intros Himps Hrest Hne. unfold removeLambdaImport.
  destruct (fold_removeStep_inv (length imps) rest
              (seq 0 (len (loadDecls (imps ++ rest)))) (loadDecls (imps ++ rest))
              Hne Hrest) as (s & Hs & L & T & Harr & Hlen & Hl & HL & HT & Himp & Hdrop).
  - apply Forall_forall. intros i Hi. apply elem_of_seq in Hi.
    cbn [loadDecls len] in Hi. rewrite length_app in Hi. lia.
  - apply loadDecls_inv. exact Himps.
  - exists s, (omap (fun p => store s !! p) L).
    split; [exact Hs|]. split.
    + unfold readDecls. rewrite Harr, Hl, app_assoc.
      rewrite take_app_length' by (rewrite length_app, length_seq; reflexivity).
      rewrite omap_app. f_equal. apply omap_lookup_seq. exact Hdrop.
    + apply (omap_lookup_imports _ (length imps)); assumption.
Qed.

Lemma appendToFirstImport_none (missing : list Spec) (rest : list Decl) :
  Forall (fun d => isImportDecl d = false) rest ->
  appendToFirstImport missing rest = None.
Proof.
  induction 1 as [|d rest Hd _ IH]; [reflexivity|].
  cbn [appendToFirstImport]. rewrite IH.
  destruct d as [[] specs|]; try reflexivity. discriminate Hd.
Qed.

Lemma addRequiredImports_frame (ord : MapOrder) (imps rest : list Decl)
    (sig : HandlerSignature) :
  Forall (fun d => isImportDecl d = true) imps ->
  Forall (fun d => isImportDecl d = false) rest ->
  exists imps',
    fst (addRequiredImports ord (imps ++ rest) sig) = imps' ++ rest /\
    Forall (fun d => isImportDecl d = true) imps'.
Proof.
  intros Himps Hrest. unfold addRequiredImports. cbv zeta.
  destruct (Nat.ltb 0 _).
  - destruct Himps as [|d imps Hd Himps].
    + cbn [app]. rewrite (appendToFirstImport_none _ rest Hrest).
      eexists [_]. split; [reflexivity|]. constructor; [reflexivity | constructor].
    + apply isImportDecl_spec in Hd as [specs ->]. cbn [app appendToFirstImport fst].
      eexists (_ :: imps). split; [reflexivity|]. constructor; [reflexivity | exact Himps].
  - exists imps. split; [reflexivity | exact Himps].
Qed.

Lemma isMain_not_import (d : Decl) : isMain d = true -> isImportDecl d = false.
Proof. destruct d; [discriminate | reflexivity]. Qed.

Lemma replaceMain_frame (adapter imps nb post : list Decl) (m : Decl) :
  Forall (fun d => isImportDecl d = true) imps ->
  existsb isMain nb = false ->
  isMain m = true ->
  replaceMain adapter (imps ++ nb ++ m :: post) = imps ++ nb ++ adapter ++ post.
Proof.
  intros Himps Hnb Hm. induction Himps as [|d imps Hd _ IH].
  - cbn [app]. induction nb as [|d nb IH]; cbn [app replaceMain].
    + rewrite Hm. reflexivity.
    + cbn [existsb] in Hnb. apply orb_false_iff in Hnb as [Hd Hnb].
      rewrite Hd, IH by exact Hnb. reflexivity.
  - cbn [app replaceMain].
    destruct (isMain d) eqn:E.
    + apply isMain_not_import in E. congruence.
    + rewrite IH. reflexivity.
Qed.

Lemma importsFirst_split (ds : list Decl) :
  importsFirst ds = true ->
  exists imps rest,
    ds = imps ++ rest /\
    Forall (fun d => isImportDecl d = true) imps /\
    Forall (fun d => isImportDecl d = false) rest.
Proof.
  induction ds as [|d ds IH]; intros H.
  - exists [], []. repeat split; constructor.
  - cbn [importsFirst] in H. destruct (isImportDecl d) eqn:E.
    + destruct (IH H) as (imps & rest & -> & Hi & Hr).
      exists (d :: imps), rest. repeat split; [constructor; assumption | exact Hr].
    + exists [], (d :: ds). repeat split; [constructor|].
      constructor; [exact E|].
      apply Forall_forall. intros x Hx. rewrite forallb_forall in H.
      apply list_elem_of_In, H in Hx. apply negb_true_iff in Hx. exact Hx.
Qed.

Lemma imports_prefix (imps rest pre post : list Decl) (m : Decl) :
  imps ++ rest = pre ++ m :: post ->
  Forall (fun d => isImportDecl d = true) imps ->
  isImportDecl m = false ->
  exists nb, pre = imps ++ nb /\ rest = nb ++ m :: post.
Proof.
  intros Heq Himps Hm. revert pre Heq.
  induction Himps as [|d imps Hd _ IH]; intros pre Heq.
  - exists pre. split; [reflexivity | exact Heq].
  - destruct pre as [|d' pre]; cbn [app] in Heq.
    + injection Heq as <- _. congruence.
    + injection Heq as <- Heq. destruct (IH pre Heq) as (nb & -> & ->).
      exists nb. split; reflexivity.
Qed.

Lemma filter_not_import (imps nb : list Decl) :
  Forall (fun d => isImportDecl d = true) imps ->
  Forall (fun d => isImportDecl d = false) nb ->
  List.filter (fun d => negb (isImportDecl d)) (imps ++ nb) = nb.
Proof.
  intros Hi Hn. rewrite List.filter_app.
  replace (List.filter (fun d => negb (isImportDecl d)) imps) with (@nil Decl).
  - cbn [app]. induction Hn as [|d nb Hd _ IH]; [reflexivity|].
    cbn [List.filter]. rewrite Hd. cbn [negb]. f_equal. exact IH.
  - induction Hi as [|d imps Hd _ IH]; [reflexivity|].
    cbn [List.filter]. rewrite Hd. cbn [negb]. exact IH.
Qed.

End Remove.

(** ** Start calls without arguments *)

Section ZeroArg.

Lemma inspectBlock_skip (b1 b2 : list Stmt) (st : option HandlerReference) :
  inspectStmt startCallback (BlockStmt (b1 ++ ExprStmt (lambdaStart []) :: b2)%list) st
  = inspectStmt startCallback (BlockStmt (b1 ++ b2)%list) st.
Proof.
  change (fold_left (fun s a => inspectStmt startCallback a s)
            (b1 ++ ExprStmt (lambdaStart []) :: b2)%list st
          = fold_left (fun s a => inspectStmt startCallback a s) (b1 ++ b2)%list st).
  rewrite !fold_left_app. reflexivity.
Qed.

Lemma findStep_skip (recv : option (list Field)) (typ : FuncType) (b1 b2 : list Stmt)
    (acc : Result (option HandlerReference * bool)) :
  findStep acc (FuncDecl recv "main" typ (Some (b1 ++ ExprStmt (lambdaStart []) :: b2)%list))
  = findStep acc (FuncDecl recv "main" typ (Some (b1 ++ b2)%list)).
Proof.
  destruct acc as [[handlerRef foundMain]| |]; try reflexivity.
  cbn [findStep bind]. change (String.eqb "main" "main") with true. cbv iota.
  rewrite inspectBlock_skip. reflexivity.
Qed.

(** C10.  A call [lambda.Start()] without arguments designates no
    handler and raises no error of its own: the closure leaves the
    captured reference as it is and lets the walk go on.  A statement
    [lambda.Start()] in [main] therefore does not change the result of the
    locator; in particular, when [main] without it has no usable start
    call, the locator and the run fail with "lambda.Start() call not
    found" and no transformed file is produced. *)
Theorem zero_argument_start_is_skipped
    (pkg : string) (pre post : list Decl) (recv : option (list Field)) (typ : FuncType)
    (b1 b2 : list Stmt) (ord : MapOrder) (loaded : option (list Package)) :
  let without := mkFile pkg (pre ++ FuncDecl recv "main" typ (Some (b1 ++ b2)%list) :: post)%list in
  let with0 :=
    mkFile pkg
      (pre ++ FuncDecl recv "main" typ (Some (b1 ++ ExprStmt (lambdaStart []) :: b2)%list)
           :: post)%list in
  startRef (lambdaStart []) = None /\
  (forall handlerRef,
      startCallback (NExpr (lambdaStart [])) handlerRef = (handlerRef, true)) /\
  findLambdaHandler with0 = findLambdaHandler without /\
  (findLambdaHandler without = Err ErrStartNotFound ->
   findLambdaHandler with0 = Err ErrStartNotFound /\
   migrate ord loaded with0 = Err ErrStartNotFound).
Proof.
  cbv zeta.
  assert (Heq :
    findLambdaHandler
      (mkFile pkg
         (pre ++ FuncDecl recv "main" typ (Some (b1 ++ ExprStmt (lambdaStart []) :: b2)%list)
              :: post)%list)
    = findLambdaHandler
        (mkFile pkg (pre ++ FuncDecl recv "main" typ (Some (b1 ++ b2)%list) :: post)%list)).
  { unfold findLambdaHandler. cbn [Decls].
    rewrite !fold_left_app. cbn [fold_left]. rewrite findStep_skip. reflexivity. }
  split; [reflexivity|]. split; [reflexivity|]. split; [exact Heq|].
  intros Hnot. rewrite <- Heq in Hnot. split; [exact Hnot|].
  unfold migrate. rewrite Hnot. reflexivity.
Qed.

Lemma zero_argument_start_is_skipped_witness :
  findLambdaHandler
    (mkFile "main"
       ([GenDecl IMPORT [ImportSpec None lambdaImportPath]]
        ++ FuncDecl None "main" (mkFuncType (Some []) None) (Some ([] ++ []))%list :: [])%list)
  = Err ErrStartNotFound /\
  migrate declOrder None
    (mkFile "main"
       ([GenDecl IMPORT [ImportSpec None lambdaImportPath]]
        ++ FuncDecl None "main" (mkFuncType (Some []) None)
             (Some ([] ++ ExprStmt (lambdaStart []) :: [])%list) :: [])%list)
  = Err ErrStartNotFound.
Proof.
  split; [reflexivity|].
  apply (zero_argument_start_is_skipped "main"
           [GenDecl IMPORT [ImportSpec None lambdaImportPath]] [] None
           (mkFuncType (Some []) None) [] [] declOrder None).
  reflexivity.
Defined.
End ZeroArg.

(** * Further properties of the program *)

Section ExtraLocator.

Lemma fold_findStep_no_main (ds : list Decl) (acc : option HandlerReference * bool) :
  existsb isMain ds = false ->
  fold_left findStep ds (Ok acc) = Ok acc.
Proof.
  induction ds as [|d ds IH]; intros H; [reflexivity|].
  cbn [existsb] in H. apply orb_false_iff in H as [Hd H].
  cbn [fold_left]. destruct acc as [r fm].
  destruct d as [tok specs | recv name typ body]; cbn [findStep bind].
  - apply IH, H.
  - unfold isMain in Hd. cbn [isFuncNamed] in Hd. rewrite Hd. apply IH, H.
Qed.

Lemma inspect_last_start (b : list Stmt) (arg : Expr) (rest : list Expr)
    (r : HandlerReference) (st : option HandlerReference) :
  startRef (lambdaStart (arg :: rest)) = Some r ->
  inspectStmt startCallback (BlockStmt (b ++ [ExprStmt (lambdaStart (arg :: rest))])%list) st
  = Some r.
Proof.
  intros Hr.
  change (fold_left (fun s a => inspectStmt startCallback a s)
            (b ++ [ExprStmt (lambdaStart (arg :: rest))])%list st = Some r).
  rewrite fold_left_app. cbn [fold_left].
  rewrite inspectStmt_eq. cbn [startCallback]. cbv beta iota zeta.
  rewrite inspectExpr_eq, startCallback_startRef, Hr. reflexivity.
Qed.

(** X1.  When [main] is the only declaration of that name and its body ends
    with a statement [lambda.Start(h, ...)] whose first argument is an
    identifier or a [package.Identifier] selector, the locator returns the
    reference of that last call, whatever start calls come before it: the
    closure overwrites the captured reference at every usable start call. *)
Theorem findLambdaHandler_last_start_wins
    (pkg : string) (pre post : list Decl) (recv : option (list Field)) (typ : FuncType)
    (b : list Stmt) (arg : Expr) (rest : list Expr) (r : HandlerReference) :
  existsb isMain pre = false ->
  existsb isMain post = false ->
  startRef (lambdaStart (arg :: rest)) = Some r ->
  findLambdaHandler
    (mkFile pkg
       (pre ++ FuncDecl recv "main" typ
                 (Some (b ++ [ExprStmt (lambdaStart (arg :: rest))])%list) :: post)%list)
  = Ok r.
Proof.
  intros Hpre Hpost Hr. unfold findLambdaHandler. cbn [Decls].
  rewrite fold_left_app, (fold_findStep_no_main pre _ Hpre). cbn [fold_left].
  cbn [findStep bind]. change (String.eqb "main" "main") with true. cbv iota.
  rewrite (inspect_last_start b arg rest r None Hr).
  rewrite (fold_findStep_no_main post _ Hpost). reflexivity.
Qed.

Lemma findLambdaHandler_last_start_wins_witness :
  findLambdaHandler
    (mkFile "main"
       ([GenDecl IMPORT [ImportSpec None lambdaImportPath]]
        ++ FuncDecl None "main" (mkFuncType (Some []) None)
             (Some ([ExprStmt (lambdaStart [Ident "first"])]
                    ++ [ExprStmt (lambdaStart (SelectorExpr (Ident "pkg") "Second" :: []))])%list)
           :: [])%list)
  = Ok (mkRef "Second" "pkg.Second").
Proof.
  apply (findLambdaHandler_last_start_wins "main"
           [GenDecl IMPORT [ImportSpec None lambdaImportPath]] [] None
           (mkFuncType (Some []) None) [ExprStmt (lambdaStart [Ident "first"])]
           (SelectorExpr (Ident "pkg") "Second") [] (mkRef "Second" "pkg.Second"));
    reflexivity.
Defined.
End ExtraLocator.

Section ExtraClassifier.

Lemma fold_analyzeStep_none (name : string) (ds : list Decl) (s : option HandlerSignature) :
  existsb (isFuncNamed name) ds = false ->
  fold_left (analyzeStep name) ds s = s.
Proof.
  revert s. induction ds as [|d ds IH]; intros s H; [reflexivity|].
  cbn [existsb] in H. apply orb_false_iff in H as [Hd H].
  cbn [fold_left]. rewrite IH by exact H.
  destruct d as [tok specs | recv n typ body]; [reflexivity|].
  cbn [analyzeStep isFuncNamed] in *. rewrite Hd. reflexivity.
Qed.

(** X2.  The local strategy classifies the last function declaration of
    the handler's name in the file, with or without a receiver: a method
    named like the handler and declared after it decides the model. *)
Theorem analyzeHandlerSignature_last_declaration
    (pkg : string) (pre post : list Decl) (recv : option (list Field))
    (handlerName : string) (typ : FuncType) (body : option (list Stmt)) :
  existsb (isFuncNamed handlerName) post = false ->
  analyzeHandlerSignature
    (mkFile pkg (pre ++ FuncDecl recv handlerName typ body :: post)%list) handlerName
  = Ok (analyzeFuncType typ).
Proof.
  intros Hpost. unfold analyzeHandlerSignature. cbn [Decls].
  rewrite fold_left_app. cbn [fold_left analyzeStep].
  rewrite String.eqb_refl, (fold_analyzeStep_none _ _ _ Hpost). reflexivity.
Qed.

Lemma analyzeHandlerSignature_last_declaration_witness :
  analyzeHandlerSignature methodAfterHandlerFile "handleRequest"
  = Ok (analyzeFuncType errorOnlyHandlerType).
Proof.
  apply (analyzeHandlerSignature_last_declaration "main"
           [ GenDecl IMPORT [ImportSpec None lambdaImportPath];
             FuncDecl None "handleRequest" fullHandlerType (Some [ReturnStmt [Ident "nil"]]) ]
           [mainCalling [Ident "handleRequest"]]).
  reflexivity.
Defined.

Lemma analyzeFuncType_output_error (typ : FuncType) :
  HasOutput (analyzeFuncType typ) = true -> HasError (analyzeFuncType typ) = true.
Proof.
  destruct typ as [ps rs]. unfold analyzeFuncType. cbn [Params Results].
  set (s0 := match ps with Some ((_ :: _) as params) => _ | _ => _ end).
  assert (H0 : HasOutput s0 = false).
  { subst s0. destruct ps as [[|[names t] ps]|]; try reflexivity. cbn [FieldType].
    destruct t as [| |X Sel| | | | | | | |];
      try (destruct (Nat.eqb _ 1); reflexivity).
    destruct X; try reflexivity.
    destruct (_ && _); [|reflexivity]. destruct (Nat.eqb _ 2); reflexivity. }
  clearbody s0.
  destruct rs as [[|[names t] rs]|]; try (rewrite H0; discriminate).
  destruct (Nat.eqb (length (mkField names t :: rs)) 1).
  - cbn [FieldType]. destruct t; try (rewrite H0; discriminate).
    destruct (String.eqb _ _); [reflexivity | rewrite H0; discriminate].
  - destruct (Nat.eqb _ 2); [reflexivity | rewrite H0; discriminate].
Qed.

Lemma analyzeSignature_output_error (sg : Signature) :
  HasOutput (analyzeSignature sg) = true -> HasError (analyzeSignature sg) = true.
Proof.
  destruct sg as [ps rs]. unfold analyzeSignature. cbn [SigParams SigResults].
  set (s0 := match ps with [] => _ | _ :: _ => _ end).
  assert (H0 : HasOutput s0 = false).
  { subst s0. destruct ps as [|t ps]; try reflexivity.
    destruct t as [pk nm| | | | | | |];
      try (destruct (Nat.eqb _ 1); reflexivity).
    destruct pk; try reflexivity.
    destruct (_ && _); [|reflexivity]. destruct (Nat.eqb _ 2); reflexivity. }
  clearbody s0.
  destruct rs as [|t rs]; try (rewrite H0; discriminate).
  destruct (Nat.eqb (length (t :: rs)) 1).
  - destruct (String.eqb _ _); [reflexivity | rewrite H0; discriminate].
  - destruct (Nat.eqb _ 2); [reflexivity | rewrite H0; discriminate].
Qed.
End ExtraClassifier.

Section ExtraRun.

(** X3.  Both strategies keep the invariant that a model with
    [HasOutput] has [HasError]: the two flags are only ever set together,
    for a signature with two results. *)
Theorem classifier_output_implies_error :
  (forall typ, implb (HasOutput (analyzeFuncType typ)) (HasError (analyzeFuncType typ)) = true)
  /\ (forall sg, implb (HasOutput (analyzeSignature sg)) (HasError (analyzeSignature sg)) = true).
Proof.
  split.
  - intros typ. pose proof (analyzeFuncType_output_error typ) as H.
    destruct (HasOutput _); [rewrite H; reflexivity | reflexivity].
  - intros sg. pose proof (analyzeSignature_output_error sg) as H.
    destruct (HasOutput _); [rewrite H; reflexivity | reflexivity].
Qed.

Lemma handle_body_no_result_only (name a b c : string) (sig : HandlerSignature) (call : Expr) :
  implb (HasOutput sig) (HasError sig) = true ->
  ~ In (AssignStmt [Ident "result"] DEFINE [call])
       (default [] (FuncBody (createHandleMethod name a b c sig))).
Proof.
  intros Himp. unfold createHandleMethod, append. cbv zeta. cbn [FuncBody default from_option id].
  pose proof (handlerFuncExpr_callee name) as Hc. cbv zeta in Hc. rewrite Hc.
  destruct sig as [[] [] [] []]; try discriminate Himp; cbn; intuition discriminate.
Qed.

(** X4.  For a model produced by either strategy the synthesized
    method never binds the handler call to [result] alone: the branch
    [result := handler(...)] of [createHandleMethod] is not reachable from
    a classified handler. *)
Theorem classified_handler_never_bound_to_result_only
    (name contextAlias httpAlias ioAlias : string) (call : Expr) :
  (forall typ,
      ~ In (AssignStmt [Ident "result"] DEFINE [call])
           (default [] (FuncBody (createHandleMethod name contextAlias httpAlias ioAlias
                                    (analyzeFuncType typ)))))
  /\ (forall sg,
      ~ In (AssignStmt [Ident "result"] DEFINE [call])
           (default [] (FuncBody (createHandleMethod name contextAlias httpAlias ioAlias
                                    (analyzeSignature sg))))).
Proof.
  split; intros x; apply handle_body_no_result_only.
  - pose proof (analyzeFuncType_output_error x) as H.
    destruct (HasOutput _); [rewrite H; reflexivity | reflexivity].
  - pose proof (analyzeSignature_output_error x) as H.
    destruct (HasOutput _); [rewrite H; reflexivity | reflexivity].
Qed.

Lemma analyzeHandlerSignature_found (file : File) (name : string) :
  existsb (isFuncNamed name) (Decls file) = true ->
  exists sig, analyzeHandlerSignature file name = Ok sig.
Proof.
  intros H. unfold analyzeHandlerSignature.
  destruct (fold_analyzeStep_spec name (Decls file) None)
    as [[Hno _] | (d & typ & _ & _ & _ & ->)].
  - congruence.
  - eexists. reflexivity.
Qed.

Lemma analyzeHandlerSignature_missing (file : File) (name : string) :
  existsb (isFuncNamed name) (Decls file) = false ->
  analyzeHandlerSignature file name = Err (ErrHandlerNotFound name).
Proof.
  intros H. unfold analyzeHandlerSignature.
  rewrite (fold_analyzeStep_none _ _ _ H). reflexivity.
Qed.

(** X5.  When the handler located in [main] is declared in the parsed
    file, the run does not depend on what the package loader returns: the
    type checker is consulted only after the local strategy has failed. *)
Theorem migrate_local_strategy_first (ord : MapOrder) (file : File)
    (handlerRef : HandlerReference) (loaded1 loaded2 : option (list Package)) :
  findLambdaHandler file = Ok handlerRef ->
  existsb (isFuncNamed (SimpleName handlerRef)) (Decls file) = true ->
  migrate ord loaded1 file = migrate ord loaded2 file.
Proof.
  intros Hf Hd. unfold migrate. rewrite Hf. cbn [bind].
  destruct (analyzeHandlerSignature_found _ _ Hd) as [sig ->]. reflexivity.
Qed.

Lemma migrate_local_strategy_first_witness :
  migrate declOrder None fmtImportFile
  = migrate declOrder (Some [myEventPackage (mkSignature [] [])]) fmtImportFile.
Proof.
  apply (migrate_local_strategy_first declOrder fmtImportFile (mkRef "handleRequest" "handleRequest"));
    reflexivity.
Defined.

(** X6.  When the handler is not declared in the parsed file, the run
    stands on the package loader: it fails with "failed to load package"
    if loading fails, with "no packages found" if no package comes back,
    with "handler function not found in package or imports" if the first
    package has no type information, and otherwise transforms with the
    model the type checker gives. *)
Theorem migrate_imported_handler_needs_types (ord : MapOrder) (file : File)
    (handlerRef : HandlerReference) :
  findLambdaHandler file = Ok handlerRef ->
  existsb (isFuncNamed (SimpleName handlerRef)) (Decls file) = false ->
  migrate ord None file = Err ErrLoadPackage
  /\ migrate ord (Some []) file = Err ErrNoPackages
  /\ (forall errs rest, migrate ord (Some (mkPackage errs None :: rest)) file
                        = Err (ErrHandlerNotInPackage (SimpleName handlerRef)))
  /\ (forall loaded sig,
        analyzeHandlerSignatureWithTypes loaded (SimpleName handlerRef) = Ok sig ->
        migrate ord loaded file = transformAST ord file (QualifiedName handlerRef) sig).
Proof.
  intros Hf Hd. unfold migrate. rewrite Hf. cbn [bind].
  rewrite (analyzeHandlerSignature_missing _ _ Hd).
  repeat split; try reflexivity.
  intros loaded sig ->. reflexivity.
Qed.

Lemma migrate_imported_handler_needs_types_witness :
  migrate declOrder None importedHandlerFile = Err ErrLoadPackage.
Proof.
  apply (migrate_imported_handler_needs_types declOrder importedHandlerFile
           (mkRef "HandleRequest" "handler.HandleRequest")); reflexivity.
Defined.

Lemma lookupFunc_spec (name : string) (m : list (string * Object)) :
  match lookupFunc name m with
  | Some obj => exists sg, obj = Func sg /\ In (name, Func sg) m
  | None => Forall (fun e => fst e = name -> snd e = OtherObject) m
  end.
Proof.
  induction m as [|[id obj] m IH]; cbn [lookupFunc]; [constructor|].
  destruct (String.eqb_spec id name) as [->|Hne].
  - destruct obj as [sg|].
    + exists sg. split; [reflexivity | left; reflexivity].
    + destruct (lookupFunc name m) as [o|].
      * destruct IH as (sg & -> & Hin). exists sg. split; [reflexivity | right; exact Hin].
      * constructor; [intros _; reflexivity | exact IH].
  - destruct (lookupFunc name m) as [o|].
    + destruct IH as (sg & -> & Hin). exists sg. split; [reflexivity | right; exact Hin].
    + constructor; [cbn; intros; congruence | exact IH].
Qed.

(** X7.  With at least one package loaded, the cross-module strategy
    succeeds exactly when a function object of the handler's name is among
    the definitions or the uses of the first package, and then classifies
    the signature of such an object; its only failure is "handler function
    not found in package or imports" (objects of the name that are not
    functions are passed over, and "handler is not a function" is never
    returned). *)
Theorem analyzeHandlerSignatureWithTypes_outcome
    (pkg : Package) (rest : list Package) (handlerName : string) :
  let entries := match TypesInfo pkg with
                 | Some info => (Defs info ++ Uses info)%list
                 | None => []
                 end in
  match analyzeHandlerSignatureWithTypes (Some (pkg :: rest)) handlerName with
  | Ok sig => exists sg, In (handlerName, Func sg) entries /\ sig = analyzeSignature sg
  | Err e => e = ErrHandlerNotInPackage handlerName
             /\ Forall (fun e => fst e = handlerName -> snd e = OtherObject) entries
  | Panic => False
  end.
Proof.
  cbv zeta. unfold analyzeHandlerSignatureWithTypes.
  destruct (TypesInfo pkg) as [info|]; [|split; [reflexivity | constructor]].
  pose proof (lookupFunc_spec handlerName (Defs info)) as HD.
  pose proof (lookupFunc_spec handlerName (Uses info)) as HU.
  destruct (lookupFunc handlerName (Defs info)) as [o|].
  - destruct HD as (sg & -> & Hin). exists sg. split; [|reflexivity].
    apply in_or_app. left. exact Hin.
  - destruct (lookupFunc handlerName (Uses info)) as [o|].
    + destruct HU as (sg & -> & Hin). exists sg. split; [|reflexivity].
      apply in_or_app. right. exact Hin.
    + split; [reflexivity|]. apply Forall_app. split; assumption.
Qed.
End ExtraRun.


Section Req.
Lemma requiredImports_lookup (sig : HandlerSignature) (k : string) :
  requiredImports sig !! k = requiredInfo sig k.
Proof.
  unfold requiredImports, requiredInfo.
  do 5 (rewrite lookup_insert; case_decide as Hk;
        [subst k; reflexivity
        | apply not_eq_sym, String.eqb_neq in Hk; rewrite Hk; clear Hk]).
  apply lookup_empty.
Qed.

Lemma checkDecl_lookup (imports : gmap string importInfo) (d : Decl) (k : string) :
  checkDecl imports d !! k = foldInfo (importsOfDecl d) <$> imports !! k.
Proof.
  destruct d as [tok specs|]; [|cbn; destruct (imports !! k); reflexivity].
  destruct tok; try (cbn; destruct (imports !! k); reflexivity).
  cbn [checkDecl importsOfDecl]. revert imports.
  induction specs as [|spec specs IH]; intros imports.
  - cbn. destruct (imports !! k); reflexivity.
  - cbn [fold_left omap list_omap]. rewrite IH.
    destruct spec as [name pathValue| |]; cbn [checkSpec].
    + rewrite lookup_fmap. destruct (imports !! k); reflexivity.
    + reflexivity.
    + reflexivity.
Qed.

Lemma foldInfo_app (a b : list (option string * string)) (info : importInfo) :
  foldInfo (a ++ b)%list info = foldInfo b (foldInfo a info).
Proof. apply fold_left_app. Qed.

Lemma checkDecls_lookup (decls : list Decl) (imports : gmap string importInfo) (k : string) :
  fold_left checkDecl decls imports !! k = foldInfo (importSpecsOf decls) <$> imports !! k.
Proof.
  revert imports. induction decls as [|d decls IH]; intros imports.
  - cbn. destruct (imports !! k); reflexivity.
  - cbn [fold_left importSpecsOf flat_map]. rewrite IH, checkDecl_lookup.
    fold (importSpecsOf decls). destruct (imports !! k); [|reflexivity].
    cbn. rewrite foldInfo_app. reflexivity.
Qed.

Lemma isKey_In (k : string) : isKey k = true <-> In k importKeys.
Proof.
  unfold isKey. rewrite existsb_exists. split.
  - intros (x & Hx & He). apply String.eqb_eq in He. subst. exact Hx.
  - intros H. exists k. split; [exact H | apply String.eqb_refl].
Qed.

Lemma requiredInfo_key (sig : HandlerSignature) (k : string) :
  requiredInfo sig k =
  if isKey k then Some (mkImportInfo k (defaultAlias k) false (neededFor sig k)) else None.
Proof.
  unfold requiredInfo, isKey, defaultAlias, neededFor, importKeys. cbn [existsb].
  destruct (String.eqb_spec k "context") as [->|]; [reflexivity|].
  destruct (String.eqb_spec k "net/http") as [->|]; [reflexivity|].
  destruct (String.eqb_spec k "io") as [->|]; [reflexivity|].
  destruct (String.eqb_spec k "encoding/json") as [->|]; [reflexivity|].
  destruct (String.eqb_spec k "log") as [->|]; reflexivity.
Qed.

Lemma foldInfo_spec (specs : list (option string * string)) (p a : string) (h nd : bool) :
  foldInfo specs (mkImportInfo p a h nd)
  = mkImportInfo p (lastAlias p a specs) (h || existsb (matchesImport p) specs) nd.
Proof.
  revert a h. induction specs as [|[n v] specs IH]; intros a h.
  - cbn. rewrite orb_false_r. reflexivity.
  - assert (Hc : checkImport n v (mkImportInfo p a h nd)
                 = if matchesImport p (n, v)
                   then mkImportInfo p (match n with Some x => x | None => a end) true nd
                   else mkImportInfo p a h nd).
    { unfold checkImport, matchesImport. cbn [path alias hasImport needed fst snd].
      destruct (String.eqb (strings.Trim v quote) p); [destruct n|]; reflexivity. }
    unfold foldInfo, lastAlias in *. cbn [fold_left existsb fst snd]. rewrite Hc.
    destruct (matchesImport p (n, v)).
    + rewrite IH, orb_true_r. reflexivity.
    + rewrite IH. cbn [orb]. reflexivity.
Qed.

Lemma imports_lookup (decls : list Decl) (sig : HandlerSignature) (k : string) :
  fold_left checkDecl decls (requiredImports sig) !! k
  = if isKey k then Some (infoOf decls sig k) else None.
Proof.
  rewrite checkDecls_lookup, requiredImports_lookup, requiredInfo_key.
  destruct (isKey k); [|reflexivity].
  cbn [fmap option_fmap option_map]. rewrite foldInfo_spec. reflexivity.
Qed.

Lemma rangePaths_filter (order : list string) (decls : list Decl) (sig : HandlerSignature)
    (cond : importInfo -> bool) :
  rangePaths order (fold_left checkDecl decls (requiredImports sig)) cond
  = List.filter (fun k => isKey k && cond (infoOf decls sig k)) order.
Proof.
  unfold rangePaths. induction order as [|k order IH]; [reflexivity|].
  cbn [List.filter]. rewrite <- IH.
  change (omap ?f (k :: order)) with
    (match f k with Some y => y :: omap f order | None => omap f order end).
  cbv beta. rewrite imports_lookup.
  destruct (isKey k); cbn [andb]; [|reflexivity].
  destruct (cond (infoOf decls sig k)); reflexivity.
Qed.
End Req.

Section Add.
Local Open Scope list_scope.

Lemma appendToFirstImport_Some (missing : list Spec) (decls decls' : list Decl) :
  appendToFirstImport missing decls = Some decls' ->
  exists pre specs post,
    decls = pre ++ GenDecl IMPORT specs :: post /\
    Forall (fun d => isImportDecl d = false) pre /\
    decls' = pre ++ GenDecl IMPORT (specs ++ missing) :: post.
Proof.
  revert decls'. induction decls as [|d decls IH]; intros decls' H; [discriminate|].
  cbn [appendToFirstImport] in H.
  destruct (isImportDecl d) eqn:E.
  - apply isImportDecl_spec in E as [specs ->]. injection H as <-.
    exists [], specs, decls. repeat split. constructor.
  - assert (H' : option_map (cons d) (appendToFirstImport missing decls) = Some decls').
    { destruct d as [[] specs|]; try exact H. discriminate E. }
    destruct (appendToFirstImport missing decls) as [r|]; [|discriminate].
    injection H' as <-. destruct (IH r eq_refl) as (pre & specs & post & -> & Hpre & ->).
    exists (d :: pre), specs, post. repeat split. constructor; assumption.
Qed.

Lemma appendToFirstImport_None (missing : list Spec) (decls : list Decl) :
  appendToFirstImport missing decls = None ->
  Forall (fun d => isImportDecl d = false) decls.
Proof.
  induction decls as [|d decls IH]; intros H; [constructor|].
  cbn [appendToFirstImport] in H.
  destruct d as [[] specs|]; try discriminate;
    (destruct (appendToFirstImport missing decls); [discriminate|]);
    (constructor; [reflexivity | apply IH; reflexivity]).
Qed.

Lemma importSpecsOf_app (a b : list Decl) :
  importSpecsOf (a ++ b) = importSpecsOf a ++ importSpecsOf b.
Proof. apply flat_map_app. Qed.

Lemma importSpecsOf_no_import (ds : list Decl) :
  Forall (fun d => isImportDecl d = false) ds -> importSpecsOf ds = [].
Proof.
  induction 1 as [|d ds Hd _ IH]; [reflexivity|].
  cbn [importSpecsOf flat_map]. fold (importSpecsOf ds). rewrite IH, app_nil_r.
  destruct d as [[] specs|]; try reflexivity. discriminate Hd.
Qed.

Lemma importsOfDecl_created (specs : list Spec) (l : list string) :
  importsOfDecl (GenDecl IMPORT (specs ++ map createImportSpec l))
  = importsOfDecl (GenDecl IMPORT specs) ++ map plainImport l.
Proof.
  cbn [importsOfDecl]. rewrite omap_app. f_equal.
  induction l as [|p l IH]; [reflexivity|].
  cbn [map]. rewrite <- IH. reflexivity.
Qed.

Lemma trim_quoted_key (k : string) :
  In k importKeys -> strings.Trim (quoted k) quote = k.
Proof.
  intros H. cbn in H.
  repeat (destruct H as [<-|H]; [reflexivity|]). destruct H.
Qed.

Lemma filter_not_import_cons_import (specs : list Spec) (ds : list Decl) :
  List.filter (fun d => negb (isImportDecl d)) (GenDecl IMPORT specs :: ds)
  = List.filter (fun d => negb (isImportDecl d)) ds.
Proof. reflexivity. Qed.

(** [addRequiredImports] without the map. *)
Lemma addRequiredImports_eq (ord : MapOrder) (decls : list Decl) (sig : HandlerSignature) :
  addRequiredImports ord decls sig =
  let missing :=
    List.filter (fun k => isKey k && (neededFor sig k && negb (importFound k decls)))
                (orderMissing ord) in
  let aliases := (lastAlias "context" "context" (importSpecsOf decls),
                  lastAlias "net/http" "http" (importSpecsOf decls),
                  lastAlias "io" "io" (importSpecsOf decls)) in
  if Nat.ltb 0 (length missing) then
    match appendToFirstImport (map createImportSpec missing) decls with
    | Some decls' => (decls', aliases)
    | None =>
        (GenDecl IMPORT
           (map createImportSpec
              (List.filter (fun k => isKey k && neededFor sig k) (orderCreate ord)))
         :: decls, aliases)
    end
  else (decls, aliases).
Proof.
  unfold addRequiredImports. cbv zeta.
  rewrite !rangePaths_filter. unfold aliasOf. rewrite !imports_lookup.
  reflexivity.
Qed.
End Add.

Section AddProps.
Local Open Scope list_scope.

Lemma addRequiredImports_cases (ord : MapOrder) (decls : list Decl) (sig : HandlerSignature) :
  let missing :=
    List.filter (fun k => isKey k && (neededFor sig k && negb (importFound k decls)))
                (orderMissing ord) in
  let created :=
    List.filter (fun k => isKey k && neededFor sig k) (orderCreate ord) in
  (missing = [] /\ fst (addRequiredImports ord decls sig) = decls)
  \/ (exists pre specs post,
        decls = pre ++ GenDecl IMPORT specs :: post /\
        Forall (fun d => isImportDecl d = false) pre /\
        fst (addRequiredImports ord decls sig)
        = pre ++ GenDecl IMPORT (specs ++ map createImportSpec missing) :: post)
  \/ (Forall (fun d => isImportDecl d = false) decls /\
      fst (addRequiredImports ord decls sig)
      = GenDecl IMPORT (map createImportSpec created) :: decls).
Proof.
  cbv zeta. rewrite addRequiredImports_eq. cbv zeta.
  destruct (List.filter _ (orderMissing ord)) as [|m0 ms] eqn:Em.
  - left. split; reflexivity.
  - right. cbn [length Nat.ltb Nat.leb].
    destruct (appendToFirstImport _ decls) as [decls'|] eqn:Ea.
    + left. apply appendToFirstImport_Some in Ea as (pre & specs & post & -> & Hpre & ->).
      exists pre, specs, post.
      split; [reflexivity|]. split; [exact Hpre | reflexivity].
    + right. split; [|reflexivity]. apply appendToFirstImport_None in Ea. exact Ea.
Qed.

Lemma addRequiredImports_specs (ord : MapOrder) (decls : list Decl) (sig : HandlerSignature) :
  exists before after added,
    importSpecsOf decls = before ++ after /\
    importSpecsOf (fst (addRequiredImports ord decls sig))
    = before ++ map plainImport added ++ after /\
    List.filter (fun d => negb (isImportDecl d)) (fst (addRequiredImports ord decls sig))
    = List.filter (fun d => negb (isImportDecl d)) decls /\
    ((added = [] /\
      List.filter (fun k => isKey k && (neededFor sig k && negb (importFound k decls)))
                  (orderMissing ord) = [])
     \/ added = List.filter (fun k => isKey k && (neededFor sig k && negb (importFound k decls)))
                            (orderMissing ord)
     \/ (importSpecsOf decls = [] /\
         added = List.filter (fun k => isKey k && neededFor sig k) (orderCreate ord))).
Proof.
  destruct (addRequiredImports_cases ord decls sig)
    as [[Hm ->] | [(pre & specs & post & -> & Hpre & ->) | [Hno ->]]].
  - exists (importSpecsOf decls), [], []. rewrite !app_nil_r.
    split; [reflexivity|]. split; [reflexivity|]. split; [reflexivity|].
    left. split; [reflexivity | exact Hm].
  - exists (importsOfDecl (GenDecl IMPORT specs)), (importSpecsOf post),
      (List.filter
         (fun k => isKey k && (neededFor sig k
                               && negb (importFound k (pre ++ GenDecl IMPORT specs :: post))))
         (orderMissing ord)).
    rewrite !importSpecsOf_app, (importSpecsOf_no_import pre Hpre).
    cbn [app importSpecsOf flat_map]. fold (importSpecsOf post).
    rewrite importsOfDecl_created, <- app_assoc.
    split; [reflexivity|]. split; [reflexivity|]. split.
    + rewrite !List.filter_app. reflexivity.
    + right. left. reflexivity.
  - exists [], [], (List.filter (fun k => isKey k && neededFor sig k) (orderCreate ord)).
    pose proof (importSpecsOf_no_import decls Hno) as Hnil.
    split; [exact Hnil|]. split; [|split; [reflexivity|]].
    + cbn [importSpecsOf flat_map]. fold (importSpecsOf decls). rewrite Hnil.
      pose proof (importsOfDecl_created [] (List.filter (fun k => isKey k && neededFor sig k)
                                                      (orderCreate ord))) as Hc.
      cbn [app] in Hc. rewrite Hc. reflexivity.
    + right. right. split; [exact Hnil | reflexivity].
Qed.

Lemma validOrder_NoDup (ord : MapOrder) :
  validOrder ord -> NoDup (orderMissing ord) /\ NoDup (orderCreate ord).
Proof.
  intros [H1 H2].
  assert (Hk : NoDup importKeys).
  { apply NoDup_ListNoDup. repeat constructor; cbn; intuition discriminate. }
  split; [rewrite H1 | rewrite H2]; exact Hk.
Qed.

Lemma validOrder_In (ord : MapOrder) (k : string) :
  validOrder ord -> In k importKeys -> In k (orderMissing ord) /\ In k (orderCreate ord).
Proof.
  intros [H1 H2] Hk. split.
  - apply (Permutation_in k (Permutation_sym H1) Hk).
  - apply (Permutation_in k (Permutation_sym H2) Hk).
Qed.

Lemma matchesImport_plain (p k : string) :
  In k importKeys -> matchesImport p (plainImport k) = String.eqb k p.
Proof.
  intros Hk. unfold matchesImport, plainImport. cbn [snd].
  rewrite (trim_quoted_key k Hk). reflexivity.
Qed.

Lemma importFound_false (p : string) (decls : list Decl) :
  importFound p decls = false
  <-> Forall (fun spec => strings.Trim (snd spec) quote <> p) (importSpecsOf decls).
Proof.
  unfold importFound. induction (importSpecsOf decls) as [|spec specs IH]; cbn [existsb].
  - split; [constructor | reflexivity].
  - rewrite orb_false_iff, IH, Forall_cons. unfold matchesImport.
    rewrite String.eqb_neq. reflexivity.
Qed.

(** X8.  Whatever order the run meets the map in, [addRequiredImports]
    keeps every import spec of the file in place and inserts at one point
    the specs [createImportSpec] writes for exactly those of the five
    modules that the model requires and that [checkImport] has not found
    in the file, each once.  A module counts as found only if the path
    literal of some import spec, its double quotes trimmed, is the
    module's path, so a module imported through a raw string literal is
    imported a second time.  The declarations that are not import
    declarations are unchanged. *)
Theorem addRequiredImports_adds_only_missing
    (ord : MapOrder) (decls : list Decl) (sig : HandlerSignature) :
  validOrder ord ->
  exists before after added,
    importSpecsOf decls = before ++ after /\
    importSpecsOf (fst (addRequiredImports ord decls sig))
    = before ++ map plainImport added ++ after /\
    NoDup added /\
    (forall p, In p added <->
               In p importKeys /\ neededFor sig p = true /\
               Forall (fun spec => strings.Trim (snd spec) quote <> p)
                      (importSpecsOf decls)) /\
    List.filter (fun d => negb (isImportDecl d)) (fst (addRequiredImports ord decls sig))
    = List.filter (fun d => negb (isImportDecl d)) decls.
Proof.
  intros Hv. destruct (validOrder_NoDup ord Hv) as [Hn1 Hn2].
  destruct (addRequiredImports_specs ord decls sig)
    as (before & after & added & Hs & Hs' & Hf & Hadd).
  exists before, after, added. split; [exact Hs|]. split; [exact Hs'|].
  assert (Hfilter : forall (f : string -> bool) (l : list string),
             NoDup l -> NoDup (List.filter f l)).
  { intros f l Hl. apply NoDup_ListNoDup, List.NoDup_filter, NoDup_ListNoDup, Hl. }
  assert (Hmiss : forall p,
             In p (List.filter
                     (fun k => isKey k && (neededFor sig k && negb (importFound k decls)))
                     (orderMissing ord))
             <-> In p importKeys /\ neededFor sig p = true /\
                 Forall (fun spec => strings.Trim (snd spec) quote <> p)
                        (importSpecsOf decls)).
  { intros p. rewrite filter_In, !andb_true_iff, negb_true_iff, isKey_In, importFound_false.
    split.
    - intros (_ & Hk & Hnd & Hi). repeat split; assumption.
    - intros (Hk & Hnd & Hi). split; [apply (validOrder_In ord p Hv Hk)|].
      repeat split; assumption. }
  destruct Hadd as [[-> Hnil] | [-> | [Hnil ->]]].
  - split; [constructor|]. split; [|exact Hf].
    intros p. rewrite <- Hmiss, Hnil. reflexivity.
  - split; [apply Hfilter, Hn1|]. split; [exact Hmiss | exact Hf].
  - split; [apply Hfilter, Hn2|]. split; [|exact Hf].
    intros p. rewrite filter_In, andb_true_iff, isKey_In, Hnil. split.
    + intros (_ & Hk & Hnd). repeat split; try assumption. constructor.
    + intros (Hk & Hnd & _). split; [apply (validOrder_In ord p Hv Hk)|].
      split; assumption.
Qed.

Lemma addRequiredImports_adds_only_missing_witness :
  exists before after added,
    importSpecsOf (Decls fmtImportFile) = before ++ after /\
    importSpecsOf (fst (addRequiredImports reversedOrder (Decls fmtImportFile) fullSig))
    = before ++ map plainImport added ++ after /\
    NoDup added /\
    (forall p, In p added <->
               In p importKeys /\ neededFor fullSig p = true /\
               Forall (fun spec => strings.Trim (snd spec) quote <> p)
                      (importSpecsOf (Decls fmtImportFile))) /\
    List.filter (fun d => negb (isImportDecl d))
                (fst (addRequiredImports reversedOrder (Decls fmtImportFile) fullSig))
    = List.filter (fun d => negb (isImportDecl d)) (Decls fmtImportFile).
Proof.
  apply (addRequiredImports_adds_only_missing reversedOrder (Decls fmtImportFile) fullSig).
  split; apply Permutation_sym, Permutation_rev.
Defined.

Lemma addRequiredImports_imported (ord : MapOrder) (decls : list Decl)
    (sig : HandlerSignature) (p : string) :
  validOrder ord ->
  In p importKeys ->
  neededFor sig p = true ->
  importFound p (fst (addRequiredImports ord decls sig)) = true.
Proof.
  intros Hv Hk Hnd. destruct (validOrder_In ord p Hv Hk) as [Hi1 Hi2].
  destruct (addRequiredImports_specs ord decls sig)
    as (before & after & added & Hs & Hs' & _ & Hadd).
  unfold importFound at 1. rewrite Hs'.
  rewrite !existsb_app.
  destruct (existsb (matchesImport p) before) eqn:Eb; [reflexivity|].
  destruct (existsb (matchesImport p) after) eqn:Ea; [apply orb_true_r|].
  cbn [orb]. rewrite orb_false_r.
  assert (Hin : In p added).
  { destruct Hadd as [[-> Hm] | [-> | [_ ->]]].
    - exfalso. assert (Hp : In p []); [|destruct Hp].
      rewrite <- Hm. apply filter_In. split; [exact Hi1|].
      apply isKey_In in Hk. rewrite Hk, Hnd. cbn [andb].
      unfold importFound. rewrite Hs, existsb_app, Eb, Ea. reflexivity.
    - apply filter_In. split; [exact Hi1|].
      apply isKey_In in Hk. rewrite Hk, Hnd. cbn [andb].
      unfold importFound. rewrite Hs, existsb_app, Eb, Ea. reflexivity.
    - apply filter_In. split; [exact Hi2|].
      apply isKey_In in Hk. rewrite Hk, Hnd. reflexivity. }
  apply existsb_exists. exists (plainImport p). split.
  - apply in_map. exact Hin.
  - rewrite (matchesImport_plain p p Hk). apply String.eqb_refl.
Qed.

(** X9.  After [addRequiredImports] every module the model requires
    ([context] and [net/http] always, [io], [encoding/json] and [log]
    according to the flags) is imported by the file. *)
Theorem addRequiredImports_complete (ord : MapOrder) (decls : list Decl)
    (sig : HandlerSignature) :
  validOrder ord ->
  Forall (fun p => neededFor sig p = true ->
                   importFound p (fst (addRequiredImports ord decls sig)) = true)
         importKeys.
Proof.
  intros Hv. apply Forall_forall. intros p Hp Hnd.
  apply addRequiredImports_imported; [exact Hv | apply list_elem_of_In, Hp | exact Hnd].
Qed.

Lemma addRequiredImports_complete_witness :
  Forall (fun p => neededFor fullSig p = true ->
                   importFound p (fst (addRequiredImports reversedOrder
                                        (Decls fmtImportFile) fullSig)) = true)
         importKeys.
Proof.
  apply (addRequiredImports_complete reversedOrder (Decls fmtImportFile) fullSig).
  split; apply Permutation_sym, Permutation_rev.
Defined.
End AddProps.

Section AddMore.
Local Open Scope list_scope.

Lemma lastAlias_app (p a : string) (x y : list (option string * string)) :
  lastAlias p a (x ++ y) = lastAlias p (lastAlias p a x) y.
Proof. apply fold_left_app. Qed.

Lemma lastAlias_unnamed (p a : string) (specs : list (option string * string)) :
  Forall (fun s => matchesImport p s = true -> fst s = None) specs ->
  lastAlias p a specs = a.
Proof.
  induction 1 as [|[n v] specs Hs _ IH]; [reflexivity|].
  unfold lastAlias in *. cbn [fold_left].
  destruct (matchesImport p (n, v)) eqn:E; [|exact IH].
  cbn [fst] in *. rewrite (Hs eq_refl). exact IH.
Qed.

Lemma lastAlias_last (p a n v : string) (b c : list (option string * string)) :
  matchesImport p (Some n, v) = true ->
  Forall (fun s => matchesImport p s = true -> fst s = None) c ->
  lastAlias p a (b ++ (Some n, v) :: c) = n.
Proof.
  intros Hm Hc. rewrite lastAlias_app.
  unfold lastAlias at 1. cbn [fold_left]. rewrite Hm. cbn [fst].
  apply (lastAlias_unnamed p n c Hc).
Qed.

Lemma lastAlias_plain (p a : string) (added : list string) :
  lastAlias p a (map plainImport added) = a.
Proof.
  apply lastAlias_unnamed, Forall_forall. intros s Hs _.
  apply list_elem_of_In, in_map_iff in Hs as (k & <- & _). reflexivity.
Qed.

Lemma addRequiredImports_snd (ord : MapOrder) (decls : list Decl) (sig : HandlerSignature) :
  snd (addRequiredImports ord decls sig)
  = (lastAlias "context" "context" (importSpecsOf decls),
     lastAlias "net/http" "http" (importSpecsOf decls),
     lastAlias "io" "io" (importSpecsOf decls)).
Proof.
  rewrite addRequiredImports_eq. cbv zeta.
  destruct (Nat.ltb 0 _); [destruct (appendToFirstImport _ decls)|]; reflexivity.
Qed.

(** X10.  Each alias returned by [addRequiredImports] (for [context],
    [net/http] and [io]) is decided by the import specs of the file that
    pass the test of [checkImport] for the module (the path literal, its
    double quotes trimmed, is the module's path): it is the default name
    of the module when none of them carries a name, and the name of the
    last of them that carries one otherwise.  An import written as a raw
    string literal is not among them, whatever its name. *)
Theorem addRequiredImports_aliases (ord : MapOrder) (decls : list Decl)
    (sig : HandlerSignature) :
  let '(contextAlias, httpAlias, ioAlias) := snd (addRequiredImports ord decls sig) in
  aliasRule "context" "context" (importSpecsOf decls) contextAlias
  /\ aliasRule "net/http" "http" (importSpecsOf decls) httpAlias
  /\ aliasRule "io" "io" (importSpecsOf decls) ioAlias.
Proof.
  rewrite addRequiredImports_eq. cbv zeta.
  assert (Hr : forall p dflt, aliasRule p dflt (importSpecsOf decls)
                                (lastAlias p dflt (importSpecsOf decls))).
  { intros p dflt. split.
    - apply lastAlias_unnamed.
    - intros b n v c -> Hm Hc. apply lastAlias_last; assumption. }
  destruct (Nat.ltb 0 _); [destruct (appendToFirstImport _ decls)|];
    cbn [snd]; repeat split; apply Hr.
Qed.

(** X11.  Running [addRequiredImports] again on its own result changes
    nothing and returns the same aliases: an import it has added is found
    by [checkImport] on the next run. *)
Theorem addRequiredImports_idempotent (ord1 ord2 : MapOrder) (decls : list Decl)
    (sig : HandlerSignature) :
  validOrder ord1 ->
  addRequiredImports ord2 (fst (addRequiredImports ord1 decls sig)) sig
  = addRequiredImports ord1 decls sig.
Proof.
  intros Hv.
  rewrite (addRequiredImports_eq ord2). cbv zeta.
  replace (List.filter
             (fun k => isKey k && (neededFor sig k
                        && negb (importFound k (fst (addRequiredImports ord1 decls sig)))))
             (orderMissing ord2)) with (@nil string).
  - cbn [length Nat.ltb Nat.leb].
    destruct (addRequiredImports_specs ord1 decls sig)
      as (before & after & added & Hs & Hs' & _ & _).
    rewrite Hs'. rewrite !lastAlias_app, !lastAlias_plain, <- !lastAlias_app, <- Hs.
    rewrite <- (addRequiredImports_snd ord1 decls sig).
    symmetry. apply surjective_pairing.
  - symmetry. induction (orderMissing ord2) as [|k l IH]; [reflexivity|].
    cbn [List.filter]. rewrite IH.
    destruct (isKey k) eqn:Ek; [|reflexivity].
    destruct (neededFor sig k) eqn:En; [|reflexivity].
    apply isKey_In in Ek.
    rewrite (addRequiredImports_imported ord1 decls sig k Hv Ek En). reflexivity.
Qed.

Lemma addRequiredImports_idempotent_witness :
  addRequiredImports declOrder
    (fst (addRequiredImports reversedOrder (Decls fmtImportFile) fullSig)) fullSig
  = addRequiredImports reversedOrder (Decls fmtImportFile) fullSig.
Proof.
  apply (addRequiredImports_idempotent reversedOrder declOrder (Decls fmtImportFile) fullSig).
  split; apply Permutation_sym, Permutation_rev.
Defined.
End AddMore.

Section Sweep.
Local Open Scope nat_scope.
Local Open Scope list_scope.

Lemma removeStep_delete (s : DeclSlice) (i u : nat) (specs : list Spec) :
  array s !! i = Some u ->
  store s !! u = Some (GenDecl IMPORT specs) ->
  emptied (GenDecl IMPORT specs) = true ->
  i + 1 <= len s ->
  removeStep (Ok s) i
  = Ok (mkSlice (store s)
          (take i (array s) ++ take (len s - (i + 1)) (drop (i + 1) (array s))
           ++ drop (len s - 1) (array s))
          (len s - 1)).
Proof.
  intros Hi Hu He Hl. unfold removeStep. cbn [bind]. rewrite Hi, Hu.
  cbn [emptied] in He. rewrite He.
  replace (Nat.leb (i + 1) (len s)) with true by (symmetry; apply Nat.leb_le; exact Hl).
  reflexivity.
Qed.

Lemma removeStep_update (s : DeclSlice) (i u : nat) (specs : list Spec) :
  array s !! i = Some u ->
  store s !! u = Some (GenDecl IMPORT specs) ->
  emptied (GenDecl IMPORT specs) = false ->
  removeStep (Ok s) i
  = Ok (mkSlice (<[u := filterDecl (GenDecl IMPORT specs)]> (store s)) (array s) (len s)).
Proof.
  intros Hi Hu He. unfold removeStep. cbn [bind]. rewrite Hi, Hu.
  cbn [emptied] in He. rewrite He. reflexivity.
Qed.

Lemma fold_removeStep_rest (k : nat) (rest : list Decl) (s : DeclSlice)
    (P T : list nat) (idxs : list nat) :
  Forall (fun d => isImportDecl d = false) rest ->
  array s = P ++ seq k (length rest) ++ T ->
  Forall (fun p => k <= p) T ->
  drop k (store s) = rest ->
  Forall (fun i => length P <= i < length (array s)) idxs ->
  fold_left removeStep idxs (Ok s) = Ok s.
Proof.
  intros Hrest Harr HT Hdrop Hidx.
  induction Hidx as [|i idxs [Hi1 Hi2] _ IH]; [reflexivity|].
  cbn [fold_left].
  destruct (lookup_lt_is_Some_2 (array s) i Hi2) as [p Hp].
  rewrite (removeStep_other s i p Hp); [exact IH|].
  intros d Hd.
  assert (Hpk : k <= p).
  { rewrite Harr, lookup_app_r in Hp by exact Hi1.
    destruct (decide (i - length P < length rest)) as [Hin|Hout].
    - rewrite lookup_app_l in Hp by (rewrite length_seq; exact Hin).
      apply lookup_seq in Hp as [-> _]. lia.
    - rewrite lookup_app_r in Hp by (rewrite length_seq; lia).
      apply list_elem_of_lookup_2 in Hp.
      rewrite Forall_forall in HT. apply HT, Hp. }
  assert (Hr : rest !! (p - k) = Some d).
  { rewrite <- Hdrop, lookup_drop. replace (k + (p - k)) with p by lia. exact Hd. }
  apply list_elem_of_lookup_2 in Hr.
  rewrite Forall_forall in Hrest. apply Hrest, Hr.
Qed.

Lemma readDecls_swept (k : nat) (rest : list Decl) (s : DeclSlice) (P T : list nat) :
  array s = P ++ seq k (length rest) ++ T ->
  len s = length P + length rest ->
  drop k (store s) = rest ->
  readDecls s = omap (fun p => store s !! p) P ++ rest.
Proof.
  intros Harr Hl Hdrop. unfold readDecls. rewrite Harr, Hl, app_assoc.
  rewrite take_app_length' by (rewrite length_app, length_seq; reflexivity).
  rewrite omap_app. f_equal. apply omap_lookup_seq. exact Hdrop.
Qed.
End Sweep.

Section SweepRun.
Local Open Scope nat_scope.
Local Open Scope list_scope.

Lemma NoDup_middle (P U : list nat) (u : nat) :
  NoDup (P ++ u :: U) -> (u ∉ P) /\ (u ∉ U) /\ NoDup (P ++ U).
Proof.
  intros H. rewrite <- Permutation_middle in H. apply NoDup_cons in H as [Hn Hd].
  rewrite elem_of_app in Hn. split; [tauto|]. split; [tauto | exact Hd].
Qed.

Lemma omap_lookup_insert_notin (st : list Decl) (u : nat) (x : Decl) (P : list nat) :
  u ∉ P ->
  omap (fun p => <[u := x]> st !! p) P = omap (fun p => st !! p) P.
Proof.
  intros Hu. apply list_omap_ext.
  apply Forall2_same_length_lookup_2; [reflexivity|].
  intros i a b Ha Hb. rewrite Ha in Hb. injection Hb as <-.
  apply list_lookup_insert_ne. intros ->. apply Hu.
  apply list_elem_of_lookup_2 in Ha. exact Ha.
Qed.

Lemma Forall2_lookup_insert_notin (st : list Decl) (u : nat) (x : Decl)
    (U : list nat) (Uvals : list Decl) :
  u ∉ U ->
  Forall2 (fun p d => st !! p = Some d) U Uvals ->
  Forall2 (fun p d => <[u := x]> st !! p = Some d) U Uvals.
Proof.
  intros Hu H. induction H as [|p d U Uvals Hp _ IH]; [constructor|].
  rewrite not_elem_of_cons in Hu. destruct Hu as [Hne Hu].
  constructor; [|apply IH, Hu].
  rewrite list_lookup_insert_ne by congruence. exact Hp.
Qed.

Lemma sweep_run (k : nat) (rest : list Decl) :
  rest <> [] ->
  Forall (fun d => isImportDecl d = false) rest ->
  forall (b : nat) (U : list nat), length U <= b ->
  forall (s : DeclSlice) (P T : list nat) (Uvals : list Decl),
    sweepState k rest s P U T Uvals ->
    exists s',
      fold_left removeStep (seq (length P) (k + length rest - length P)) (Ok s) = Ok s' /\
      readDecls s' = omap (fun p => store s !! p) P ++ sweep Uvals ++ rest.
Proof.
  intros Hne Hrest.
  assert (Hm : exists m0, length rest = S m0).
  { destruct rest; [congruence|]. eexists. reflexivity. }
  destruct Hm as [m0 Hm].
  induction b as [|b IH]; intros U Hb s P T Uvals
    (Harr & Hlen & Hl & Hnd & Hlt & HT & HU & Himp & Hdrop).
  all: destruct U as [|u U]; [|try (cbn in Hb; lia)].
  1, 2: inversion HU; subst Uvals; cbn [app] in Harr; cbn [length] in Hl;
    rewrite Nat.add_0_r in Hl; exists s; split;
    [ apply (fold_removeStep_rest k rest s P T); try assumption;
      apply Forall_forall; intros i Hi; apply elem_of_seq in Hi; lia
    | rewrite (readDecls_swept k rest s P T Harr Hl Hdrop); reflexivity ].
  inversion HU as [|u' d U' Uvals' Hu HU' E1 E2]; subst u' U' Uvals. clear HU.
  apply Forall_cons in Himp as [Hd Himp].
  apply isImportDecl_spec in Hd as [specs ->].
  assert (Hi : array s !! length P = Some u).
  { rewrite Harr. apply list_lookup_middle. reflexivity. }
  assert (HlenP : length P + S (length U) + length rest + length T = k + length rest).
  { rewrite <- Hlen, Harr, !length_app, length_seq. cbn [length]. lia. }
  replace (k + length rest - length P) with (S (k + length rest - S (length P))) by lia.
  cbn [seq fold_left].
  destruct (NoDup_middle P U u Hnd) as (HuP & HuU & Hnd').
  assert (Hlt' : Forall (fun p => p < k) (P ++ U) /\ u < k).
  { apply Forall_app in Hlt as [H1 H2]. apply Forall_cons in H2 as [H2 H3].
    split; [apply Forall_app; split; assumption | exact H2]. }
  destruct Hlt' as [Hlt' Huk].
  destruct (emptied (GenDecl IMPORT specs)) eqn:He.
  - (* the declaration is removed; the next one slides into its slot *)
    rewrite (removeStep_delete s (length P) u specs Hi Hu He)
      by (rewrite Hl; cbn [length]; lia).
    assert (Hdel :
      take (length P) (array s)
      ++ take (len s - (length P + 1)) (drop (length P + 1) (array s))
      ++ drop (len s - 1) (array s)
      = (P ++ U) ++ seq k (length rest) ++ (k + m0) :: T).
    { rewrite Harr, Hl, Hm, seq_S. cbn [length].
      replace (length P + S (length U) + S m0)
        with (length P + S (length U) + length (seq k m0 ++ [k + m0]))
        by (rewrite length_app, length_seq; cbn [length]; lia).
      rewrite (app_assoc P (u :: U) ((seq k m0 ++ [k + m0]) ++ T)).
      exact (delete_slot P U (seq k m0) T u (k + m0)). }
    rewrite Hdel. cbn [sweep]. rewrite He.
    destruct U as [|u1 U].
    + (* it was the last import declaration *)
      inversion HU'; subst Uvals'. rewrite app_nil_r.
      eexists. split.
      * apply (fold_removeStep_rest k rest _ P ((k + m0) :: T)); cbn [array store];
          try assumption; try reflexivity.
        -- constructor; [lia | exact HT].
        -- apply Forall_forall. intros i Hi'. apply elem_of_seq in Hi'.
           rewrite !length_app, length_seq. cbn [length] in *. lia.
      * rewrite (readDecls_swept k rest _ P ((k + m0) :: T)); cbn [array store len];
          try reflexivity; try assumption.
        rewrite Hl. cbn [length]. lia.
    + (* the next declaration is passed over *)
      inversion HU' as [|u1' d1 U1 Uvals1 Hu1 HU1 E1 E2]; subst u1' U1 Uvals'.
      apply Forall_cons in Himp as [Hd1 Himp].
      destruct (IH U ltac:(cbn [length] in Hb; lia)
                  (mkSlice (store s) ((P ++ u1 :: U) ++ seq k (length rest) ++ (k + m0) :: T)
                           (len s - 1))
                  (P ++ [u1]) ((k + m0) :: T) Uvals1) as (s' & Hs' & Hr').
      { unfold sweepState. cbn [array store len].
        split; [rewrite <- !app_assoc; reflexivity|].
        split; [rewrite !length_app, length_seq; cbn [length] in *; lia|].
        split; [rewrite Hl, length_app; cbn [length]; lia|].
        split; [rewrite <- app_assoc; exact Hnd'|].
        split; [rewrite <- app_assoc; exact Hlt'|].
        split; [constructor; [lia | exact HT]|].
        split; [exact HU1|]. split; [exact Himp | exact Hdrop]. }
      rewrite length_app in Hs'. cbn [length] in Hs'.
      rewrite Nat.add_1_r in Hs'.
      exists s'. split; [exact Hs'|].
      rewrite Hr'. cbn [store]. rewrite omap_app. cbn [omap list_omap].
      rewrite Hu1. rewrite <- !app_assoc. reflexivity.
  - (* the declaration keeps some specs *)
    rewrite (removeStep_update s (length P) u specs Hi Hu He).
    destruct (IH U ltac:(cbn [length] in Hb; lia)
                (mkSlice (<[u := filterDecl (GenDecl IMPORT specs)]> (store s))
                         (array s) (len s))
                (P ++ [u]) T Uvals') as (s' & Hs' & Hr').
    { unfold sweepState. cbn [array store len].
      split; [rewrite Harr, <- !app_assoc; reflexivity|].
      split; [exact Hlen|].
      split; [rewrite Hl, length_app; cbn [length]; lia|].
      split; [rewrite <- app_assoc; exact Hnd|].
      split; [rewrite <- app_assoc; exact Hlt|].
      split; [exact HT|].
      split; [apply Forall2_lookup_insert_notin; assumption|].
      split; [exact Himp|].
      rewrite drop_insert_lt by exact Huk. exact Hdrop. }
    rewrite length_app in Hs'. cbn [length] in Hs'.
    rewrite Nat.add_1_r in Hs'.
    exists s'. split; [exact Hs'|].
    rewrite Hr'. cbn [store sweep]. rewrite He.
    rewrite omap_app, (omap_lookup_insert_notin _ _ _ _ HuP).
    cbn [omap list_omap].
    rewrite list_lookup_insert_eq by (apply lookup_lt_Some in Hu; exact Hu).
    rewrite <- !app_assoc. reflexivity.
Qed.
End SweepRun.

Section SweepProps.
Local Open Scope nat_scope.
Local Open Scope list_scope.

Lemma sweep_induction (Q : list Decl -> Prop) :
  Q [] ->
  (forall d, emptied d = true -> Q [d]) ->
  (forall d d2 tl, emptied d = true -> Q tl -> Q (d :: d2 :: tl)) ->
  (forall d tl, emptied d = false -> Q tl -> Q (d :: tl)) ->
  forall l, Q l.
Proof.
  intros H0 H1 H2 H3 l.
  assert (H : Q l /\ forall d, Q (d :: l)); [|exact (proj1 H)].
  induction l as [|a l [IH1 IH2]].
  - split; [exact H0|]. intros d. destruct (emptied d) eqn:E; [apply H1 | apply H3]; assumption.
  - split; [apply IH2|]. intros d.
    destruct (emptied d) eqn:E; [apply H2 | apply H3]; auto.
Qed.

Lemma lookup_seq_prefix (imps rest : list Decl) :
  Forall2 (fun u d => (imps ++ rest) !! u = Some d) (seq 0 (length imps)) imps.
Proof.
  apply Forall2_same_length_lookup_2; [rewrite length_seq; reflexivity|].
  intros i u d Hu Hd. apply lookup_seq in Hu as [-> _]. cbn [Nat.add].
  rewrite lookup_app_l by (apply lookup_lt_Some in Hd; exact Hd). exact Hd.
Qed.

Lemma removeLambdaImport_sweep (imps rest : list Decl) :
  Forall (fun d => isImportDecl d = true) imps ->
  Forall (fun d => isImportDecl d = false) rest ->
  rest <> [] ->
  exists s,
    removeLambdaImport (loadDecls (imps ++ rest)) = Ok s /\
    readDecls s = sweep imps ++ rest.
Proof.
  intros Himps Hrest Hne.
  destruct (sweep_run (length imps) rest Hne Hrest (length imps) (seq 0 (length imps))
              ltac:(rewrite length_seq; reflexivity)
              (loadDecls (imps ++ rest)) [] [] imps) as (s & Hs & Hr).
  - unfold sweepState, loadDecls. cbn [array store len app length].
    rewrite length_app, seq_app, app_nil_r, !length_seq. cbn [Nat.add].
    split; [reflexivity|].
    split; [rewrite length_app, !length_seq; reflexivity|].
    split; [reflexivity|].
    split; [apply NoDup_seq|].
    split; [apply Forall_forall; intros p Hp; apply elem_of_seq in Hp; lia|].
    split; [constructor|].
    split; [apply lookup_seq_prefix|].
    split; [exact Himps | apply drop_app_length].
  - exists s. split; [|exact Hr].
    unfold removeLambdaImport. cbn [loadDecls len length] in *.
    rewrite length_app. rewrite Nat.sub_0_r in Hs. exact Hs.
Qed.

Lemma filter_import (imps rest : list Decl) :
  Forall (fun d => isImportDecl d = true) imps ->
  Forall (fun d => isImportDecl d = false) rest ->
  List.filter isImportDecl (imps ++ rest) = imps.
Proof.
  intros Hi Hr. rewrite List.filter_app.
  replace (List.filter isImportDecl rest) with (@nil Decl).
  - rewrite app_nil_r. induction Hi as [|d imps Hd _ IH]; [reflexivity|].
    cbn [List.filter]. rewrite Hd. f_equal. exact IH.
  - induction Hr as [|d rest Hd _ IH]; [reflexivity|].
    cbn [List.filter]. rewrite Hd. exact IH.
Qed.

Lemma parsed_split (decls : list Decl) :
  importsFirst decls = true ->
  existsb (fun d => negb (isImportDecl d)) decls = true ->
  exists imps rest,
    decls = imps ++ rest /\ rest <> [] /\
    Forall (fun d => isImportDecl d = true) imps /\
    Forall (fun d => isImportDecl d = false) rest /\
    List.filter isImportDecl decls = imps /\
    List.filter (fun d => negb (isImportDecl d)) decls = rest.
Proof.
  intros Hf He.
  destruct (importsFirst_split decls Hf) as (imps & rest & -> & Hi & Hr).
  exists imps, rest. split; [reflexivity|]. split.
  - intros ->. rewrite app_nil_r in He.
    apply existsb_exists in He as (d & Hd & Hn).
    rewrite Forall_forall in Hi. apply list_elem_of_In, Hi in Hd.
    rewrite Hd in Hn. discriminate.
  - split; [exact Hi|]. split; [exact Hr|].
    split; [apply filter_import | apply filter_not_import]; assumption.
Qed.

(** X12.  On a parsed file (imports first, and some declaration after
    them) [removeLambdaImport] ends without a panic and leaves exactly
    [sweep] of the import declarations followed by the other declarations
    unchanged: a declaration keeps its specs that are not Lambda imports,
    an emptied declaration is removed, and the import declaration that
    follows a removed one is left as it is. *)
Theorem removeLambdaImport_effect (decls : list Decl) :
  importsFirst decls = true ->
  existsb (fun d => negb (isImportDecl d)) decls = true ->
  exists s,
    removeLambdaImport (loadDecls decls) = Ok s /\
    readDecls s = sweep (List.filter isImportDecl decls)
                  ++ List.filter (fun d => negb (isImportDecl d)) decls.
Proof.
  intros Hf He.
  destruct (parsed_split decls Hf He) as (imps & rest & -> & Hne & Hi & Hr & -> & ->).
  apply removeLambdaImport_sweep; assumption.
Qed.

Lemma removeLambdaImport_effect_witness :
  exists s,
    removeLambdaImport (loadDecls (Decls twoImportDeclsFile)) = Ok s /\
    readDecls s = sweep (List.filter isImportDecl (Decls twoImportDeclsFile))
                  ++ List.filter (fun d => negb (isImportDecl d)) (Decls twoImportDeclsFile).
Proof.
  apply (removeLambdaImport_effect (Decls twoImportDeclsFile)); reflexivity.
Defined.

Lemma filterDecl_no_lambda (d : Decl) : declHasLambdaImport (filterDecl d) = false.
Proof.
  destruct d as [[] specs|]; try reflexivity.
  cbn [filterDecl declHasLambdaImport].
  induction specs as [|spec specs IH]; [reflexivity|].
  cbn [List.filter]. destruct (keepSpec spec) eqn:E; [|exact IH].
  cbn [existsb]. rewrite IH, orb_false_r.
  destruct spec as [n v| |]; try discriminate E.
  cbn [keepSpec] in E. apply negb_true_iff in E. exact E.
Qed.

Lemma sweep_lambda (imps : list Decl) :
  existsb declHasLambdaImport (sweep imps) = skipsLambdaImport imps.
Proof.
  induction imps using sweep_induction.
  - reflexivity.
  - cbn [sweep skipsLambdaImport]. rewrite H. reflexivity.
  - cbn [sweep skipsLambdaImport]. rewrite H. cbn [existsb]. rewrite IHimps. reflexivity.
  - cbn [sweep skipsLambdaImport]. rewrite H. cbn [existsb].
    rewrite filterDecl_no_lambda, IHimps. reflexivity.
Qed.

Lemma no_lambda_no_import (rest : list Decl) :
  Forall (fun d => isImportDecl d = false) rest ->
  existsb declHasLambdaImport rest = false.
Proof.
  induction 1 as [|d rest Hd _ IH]; [reflexivity|].
  cbn [existsb]. rewrite IH, orb_false_r.
  destruct d as [[] specs|]; try reflexivity. discriminate Hd.
Qed.

(** X13.  On a parsed file a Lambda import is left in the declaration
    list by [removeLambdaImport] exactly when an import declaration passed
    over after a removed one holds such an import; in particular none is
    left when the file has a single import declaration, or when no import
    declaration consists of Lambda imports only. *)
Theorem removeLambdaImport_leaves_lambda_iff_skipped (decls : list Decl) :
  importsFirst decls = true ->
  existsb (fun d => negb (isImportDecl d)) decls = true ->
  exists s,
    removeLambdaImport (loadDecls decls) = Ok s /\
    existsb declHasLambdaImport (readDecls s)
    = skipsLambdaImport (List.filter isImportDecl decls).
Proof.
  intros Hf He.
  destruct (parsed_split decls Hf He) as (imps & rest & -> & Hne & Hi & Hr & -> & _).
  destruct (removeLambdaImport_sweep imps rest Hi Hr Hne) as (s & Hs & Hread).
  exists s. split; [exact Hs|].
  rewrite Hread, existsb_app, sweep_lambda, (no_lambda_no_import rest Hr).
  apply orb_false_r.
Qed.

Lemma removeLambdaImport_leaves_lambda_iff_skipped_witness :
  exists s,
    removeLambdaImport (loadDecls (Decls twoImportDeclsFile)) = Ok s /\
    existsb declHasLambdaImport (readDecls s)
    = skipsLambdaImport (List.filter isImportDecl (Decls twoImportDeclsFile)).
Proof.
  apply (removeLambdaImport_leaves_lambda_iff_skipped (Decls twoImportDeclsFile));
    reflexivity.
Defined.

Lemma importsOfDecl_filterDecl (d : Decl) :
  List.filter notLambda (importsOfDecl (filterDecl d))
  = List.filter notLambda (importsOfDecl d).
Proof.
  destruct d as [[] specs|]; try reflexivity.
  cbn [filterDecl importsOfDecl].
  induction specs as [|spec specs IH]; [reflexivity|].
  cbn [List.filter]. destruct spec as [n v| |]; cbn [keepSpec omap list_omap].
  - unfold notLambda at 2. cbn [snd List.filter].
    destruct (isLambdaPath v) eqn:E; cbn [negb].
    + exact IH.
    + cbn [omap list_omap List.filter]. unfold notLambda at 1. cbn [snd].
      rewrite E. cbn [negb]. f_equal. exact IH.
  - exact IH.
  - exact IH.
Qed.

Lemma importsOfDecl_emptied (d : Decl) :
  emptied d = true -> List.filter notLambda (importsOfDecl d) = [].
Proof.
  destruct d as [[] specs|]; try reflexivity.
  cbn [emptied importsOfDecl]. intros H. apply Nat.eqb_eq, length_zero_iff_nil in H.
  induction specs as [|spec specs IH]; [reflexivity|].
  cbn [List.filter] in H. destruct spec as [n v| |]; cbn [keepSpec omap list_omap] in *.
  - unfold notLambda at 1. cbn [List.filter snd].
    destruct (negb (isLambdaPath v)); [discriminate H | apply IH, H].
  - apply IH, H.
  - apply IH, H.
Qed.

Lemma sweep_keeps_other_imports (imps : list Decl) :
  List.filter notLambda (importSpecsOf (sweep imps))
  = List.filter notLambda (importSpecsOf imps).
Proof.
  induction imps using sweep_induction.
  - reflexivity.
  - cbn [sweep]. rewrite H. cbn [importSpecsOf flat_map]. rewrite app_nil_r.
    symmetry. apply importsOfDecl_emptied, H.
  - cbn [sweep]. rewrite H. cbn [importSpecsOf flat_map].
    fold (importSpecsOf (sweep imps)). fold (importSpecsOf imps).
    rewrite !List.filter_app, IHimps, (importsOfDecl_emptied d H). reflexivity.
  - cbn [sweep]. rewrite H. cbn [importSpecsOf flat_map].
    fold (importSpecsOf (sweep imps)). fold (importSpecsOf imps).
    rewrite !List.filter_app, IHimps, importsOfDecl_filterDecl. reflexivity.
Qed.

(** X14.  [removeLambdaImport] never drops an import that is not a Lambda
    import: on a parsed file the imports whose path does not contain
    [aws-lambda-go] are the same, in the same order, before and after. *)
Theorem removeLambdaImport_keeps_other_imports (decls : list Decl) :
  importsFirst decls = true ->
  existsb (fun d => negb (isImportDecl d)) decls = true ->
  exists s,
    removeLambdaImport (loadDecls decls) = Ok s /\
    List.filter notLambda (importSpecsOf (readDecls s))
    = List.filter notLambda (importSpecsOf decls).
Proof.
  intros Hf He.
  destruct (parsed_split decls Hf He) as (imps & rest & -> & Hne & Hi & Hr & _ & _).
  destruct (removeLambdaImport_sweep imps rest Hi Hr Hne) as (s & Hs & Hread).
  exists s. split; [exact Hs|].
  rewrite Hread, !importSpecsOf_app, !List.filter_app, sweep_keeps_other_imports.
  reflexivity.
Qed.

Lemma removeLambdaImport_keeps_other_imports_witness :
  exists s,
    removeLambdaImport (loadDecls (Decls fmtImportFile)) = Ok s /\
    List.filter notLambda (importSpecsOf (readDecls s))
    = List.filter notLambda (importSpecsOf (Decls fmtImportFile)).
Proof.
  apply (removeLambdaImport_keeps_other_imports (Decls fmtImportFile)); reflexivity.
Defined.
End SweepProps.

(** ** The frame of the transform *)

Section Frame.
Local Open Scope list_scope.

Lemma sweep_imports (imps : list Decl) :
  Forall (fun d => isImportDecl d = true) imps ->
  Forall (fun d => isImportDecl d = true) (sweep imps).
Proof.
  intros Himps. induction imps using sweep_induction; cbn [sweep].
  - constructor.
  - rewrite H. constructor.
  - rewrite H. apply Forall_cons in Himps as [_ H0]. apply Forall_cons in H0 as [H1 H2].
    constructor; [exact H1 | apply IHimps, H2].
  - rewrite H. apply Forall_cons in Himps as [H0 H1].
    constructor; [|apply IHimps, H1].
    apply isImportDecl_spec in H0 as [specs ->]. reflexivity.
Qed.

(** Import declarations that hold import specs only, at least one, and
    no Lambda import are left as they are, all of them and in order. *)
Lemma sweep_unedited (imps : list Decl) :
  Forall (fun d => exists specs,
              d = GenDecl IMPORT specs /\ specs <> [] /\
              Forall (fun spec => keepSpec spec = true) specs) imps ->
  sweep imps = imps.
Proof.
  induction 1 as [|d imps (specs & -> & Hne & Hkeep) _ IH]; [reflexivity|].
  assert (Hf : List.filter keepSpec specs = specs).
  { clear Hne. induction Hkeep as [|spec specs Hs _ IHs]; [reflexivity|].
    cbn [List.filter]. rewrite Hs, IHs. reflexivity. }
  cbn [sweep emptied filterDecl]. rewrite Hf.
  destruct specs as [|spec specs]; [contradiction|].
  cbn [length Nat.eqb]. rewrite IH. reflexivity.
Qed.

(** The three ways [addRequiredImports] leaves the import declarations
    [kept] in front of the declarations [rest]. *)
Lemma addRequiredImports_shapes (ord : MapOrder) (kept rest : list Decl)
    (sig : HandlerSignature) :
  Forall (fun d => isImportDecl d = true) kept ->
  Forall (fun d => isImportDecl d = false) rest ->
  exists imps,
    fst (addRequiredImports ord (kept ++ rest) sig) = imps ++ rest /\
    Forall (fun d => isImportDecl d = true) imps /\
    (imps = kept
     \/ (exists specs added tl,
           kept = GenDecl IMPORT specs :: tl /\
           imps = GenDecl IMPORT (specs ++ map createImportSpec added) :: tl)
     \/ (exists added, kept = [] /\ imps = [GenDecl IMPORT (map createImportSpec added)])).
Proof.
  intros Hk Hr.
  destruct (addRequiredImports_cases ord (kept ++ rest) sig)
    as [[_ ->] | [(pre & specs & post & Heq & Hpre & ->) | [Hno ->]]].
  - exists kept. split; [reflexivity|]. split; [exact Hk|]. left. reflexivity.
  - destruct kept as [|d tl].
    + exfalso. cbn [app] in Heq. subst rest.
      apply Forall_app in Hr as [_ Hr]. apply Forall_cons in Hr as [Hr _]. discriminate Hr.
    + apply Forall_cons in Hk as [Hd Htl].
      destruct pre as [|d' pre]; cbn [app] in Heq.
      * injection Heq as -> <-.
        exists (GenDecl IMPORT (specs ++ map createImportSpec
                  (List.filter
                     (fun k => isKey k
                               && (neededFor sig k
                                   && negb (importFound k (GenDecl IMPORT specs :: tl ++ rest))))
                     (orderMissing ord))) :: tl).
        split; [reflexivity|]. split; [constructor; [reflexivity | exact Htl]|].
        right. left. eexists _, _, _. split; reflexivity.
      * exfalso. injection Heq as -> _. apply Forall_cons in Hpre as [Hpre _]. congruence.
  - destruct kept as [|d tl].
    + eexists [_]. split; [reflexivity|]. split; [constructor; [reflexivity | constructor]|].
      right. right. eexists. split; reflexivity.
    + exfalso. apply Forall_cons in Hk as [Hd _]. cbn [app] in Hno.
      apply Forall_cons in Hno as [Hno _]. congruence.
Qed.

(** C9.  On a parsed file (imports before all other declarations) whose
    first declaration named [main] is [m], between [pre] and [post],
    [transformAST] ends normally with the adapter type, the constructor
    and the dispatch method, in that order, in the place of [m]; the
    declarations of [pre] that are not import declarations precede them
    unchanged and in order, and [post] follows unchanged.  In front stand
    the import declarations [imps] of the import rewriter's result
    ([removeLambdaImport], then [addRequiredImports]).  They are the
    import declarations [kept] that [removeLambdaImport] leaves, which
    are [sweep] of the import declarations of the file (each in its
    place, without its Lambda imports; a declaration emptied that way is
    removed and the one after it passed over as it is), where either
    nothing is added, or the first of them has received further import
    specs, or, none being left, one new import declaration is made. *)
Theorem transformAST_frame (ord : MapOrder) (file : File) (name : string)
    (sig : HandlerSignature) (pre post : list Decl) (m : Decl) :
  importsFirst (Decls file) = true ->
  Decls file = pre ++ m :: post ->
  isMain m = true ->
  existsb isMain pre = false ->
  exists s contextAlias httpAlias ioAlias,
    removeLambdaImport (loadDecls (Decls file)) = Ok s /\
    let kept := List.filter isImportDecl (readDecls s) in
    let imps := List.filter isImportDecl (fst (addRequiredImports ord (readDecls s) sig)) in
    transformAST ord file name sig
    = Ok (mkFile (PkgName file)
            (imps ++ List.filter (fun d => negb (isImportDecl d)) pre
             ++ [ createHandlerStruct; createNewFunc;
                  createHandleMethod name contextAlias httpAlias ioAlias sig ]
             ++ post)) /\
    kept = sweep (List.filter isImportDecl pre) /\
    (imps = kept
     \/ (exists specs added tl,
           kept = GenDecl IMPORT specs :: tl /\
           imps = GenDecl IMPORT (specs ++ map createImportSpec added) :: tl)
     \/ (exists added, kept = [] /\ imps = [GenDecl IMPORT (map createImportSpec added)])).
Proof.
  intros Hfirst Hdecls Hm Hpre.
  destruct (importsFirst_split _ Hfirst) as (imps0 & rest & Hsplit & Himps0 & Hrest).
  rewrite Hdecls in Hsplit. symmetry in Hsplit.
  destruct (imports_prefix _ _ _ _ _ Hsplit Himps0 (isMain_not_import _ Hm))
    as (nb & -> & ->).
  assert (Hnb : Forall (fun d => isImportDecl d = false) nb).
  { apply Forall_app in Hrest as [H _]. exact H. }
  assert (Hnbmain : existsb isMain nb = false).
  { rewrite existsb_app in Hpre. apply orb_false_iff in Hpre as [_ H]. exact H. }
  destruct (removeLambdaImport_sweep imps0 (nb ++ m :: post) Himps0 Hrest)
    as (s & Hs & Hread).
  { destruct nb; discriminate. }
  pose proof (sweep_imports imps0 Himps0) as Hsw.
  destruct (addRequiredImports_shapes ord (sweep imps0) (nb ++ m :: post) sig Hsw Hrest)
    as (imps & Hadd & Himps & Hshape).
  rewrite <- app_assoc in Hdecls.
  destruct (addRequiredImports ord (sweep imps0 ++ nb ++ m :: post) sig)
    as [decls [[contextAlias httpAlias] ioAlias]] eqn:Ha.
  cbn [fst] in Hadd. subst decls.
  exists s, contextAlias, httpAlias, ioAlias.
  split; [rewrite Hdecls; exact Hs|]. cbv zeta.
  rewrite Hread, Ha. cbn [fst].
  rewrite !(filter_import _ _) by assumption.
  rewrite (filter_not_import imps0 nb Himps0 Hnb).
  split; [|split; [reflexivity | exact Hshape]].
  unfold transformAST. rewrite Hdecls, Hs. cbn [bind]. rewrite Hread, Ha.
  rewrite (replaceMain_frame _ imps nb post m Himps Hnbmain Hm). reflexivity.
Qed.

Lemma transformAST_frame_witness :
  exists s contextAlias httpAlias ioAlias,
    removeLambdaImport (loadDecls (Decls fmtImportFile)) = Ok s /\
    let kept := List.filter isImportDecl (readDecls s) in
    let imps := List.filter isImportDecl
                  (fst (addRequiredImports declOrder (readDecls s) fullSig)) in
    transformAST declOrder fmtImportFile "handleRequest" fullSig
    = Ok (mkFile "main"
            (imps
             ++ List.filter (fun d => negb (isImportDecl d))
                  [ GenDecl IMPORT [ ImportSpec None (quoted "fmt");
                                     ImportSpec None lambdaImportPath ];
                    handlerDecl fullHandlerType ]
             ++ [ createHandlerStruct; createNewFunc;
                  createHandleMethod "handleRequest" contextAlias httpAlias ioAlias fullSig ]
             ++ [])) /\
    kept = sweep (List.filter isImportDecl
                    [ GenDecl IMPORT [ ImportSpec None (quoted "fmt");
                                       ImportSpec None lambdaImportPath ];
                      handlerDecl fullHandlerType ]) /\
    (imps = kept
     \/ (exists specs added tl,
           kept = GenDecl IMPORT specs :: tl /\
           imps = GenDecl IMPORT (specs ++ map createImportSpec added) :: tl)
     \/ (exists added, kept = [] /\ imps = [GenDecl IMPORT (map createImportSpec added)])).
Proof.
  apply (transformAST_frame declOrder fmtImportFile "handleRequest" fullSig
           [ GenDecl IMPORT [ ImportSpec None (quoted "fmt");
                              ImportSpec None lambdaImportPath ];
             handlerDecl fullHandlerType ]
           [] (mainCalling [Ident "handleRequest"])); reflexivity.
Defined.

End Frame.

Section EndToEnd.
Local Open Scope list_scope.

Lemma createHandleMethod_body (name contextAlias httpAlias ioAlias : string)
    (sig : HandlerSignature) :
  FuncBody (createHandleMethod name contextAlias httpAlias ioAlias sig)
  = Some ((if HasInput sig then [readBodyStmt ioAlias] else [])
          ++ [bindCall sig (CallExpr (handlerCallee name) (handlerCallArgs sig))]
          ++ (if HasError sig then [errorGuard "log"] else [])
          ++ (if HasOutput sig then [encodeStmt "json"] else [])).
Proof.
  unfold createHandleMethod, handlerCallArgs, bindCall, append.
  cbv zeta. cbn [FuncBody].
  pose proof (handlerFuncExpr_callee name) as Hc. cbv zeta in Hc. rewrite Hc.
  destruct sig as [[] [] [] []]; reflexivity.
Qed.

(** X15.  The locator joins a selector [pkg.Handler] into the qualified
    name and the synthesizer splits the name at its first dot: for a
    package identifier without a dot the call in the synthesized method is
    on the selector [pkg.Handler] again, and the simple name is
    [Handler]. *)
Theorem qualified_reference_round_trip
    (pkgIdent handlerSel contextAlias httpAlias ioAlias : string) (rest : list Expr)
    (sig : HandlerSignature) (st : option HandlerReference) :
  splitAtDot pkgIdent = None ->
  exists r,
    startCallback (NExpr (lambdaStart (SelectorExpr (Ident pkgIdent) handlerSel :: rest))) st
    = (Some r, false) /\
    SimpleName r = handlerSel /\
    FuncBody (createHandleMethod (QualifiedName r) contextAlias httpAlias ioAlias sig)
    = Some ((if HasInput sig then [readBodyStmt ioAlias] else [])
            ++ [bindCall sig (CallExpr (SelectorExpr (Ident pkgIdent) handlerSel)
                                       (handlerCallArgs sig))]
            ++ (if HasError sig then [errorGuard "log"] else [])
            ++ (if HasOutput sig then [encodeStmt "json"] else [])).
Proof.
  intros Hp. eexists. split; [reflexivity|]. split; [reflexivity|].
  rewrite createHandleMethod_body. cbn [QualifiedName].
  unfold handlerCallee.
  change (pkgIdent ++ "." ++ handlerSel)%string with (pkgIdent ++ String "." handlerSel)%string.
  rewrite (splitAtDot_app pkgIdent handlerSel Hp). reflexivity.
Qed.

Lemma qualified_reference_round_trip_witness :
  exists r,
    startCallback (NExpr (lambdaStart (SelectorExpr (Ident "handler") "HandleRequest" :: [])))
                  None
    = (Some r, false) /\
    SimpleName r = "HandleRequest" /\
    FuncBody (createHandleMethod (QualifiedName r) "context" "http" "io" fullSig)
    = Some ((if HasInput fullSig then [readBodyStmt "io"] else [])
            ++ [bindCall fullSig (CallExpr (SelectorExpr (Ident "handler") "HandleRequest")
                                           (handlerCallArgs fullSig))]
            ++ (if HasError fullSig then [errorGuard "log"] else [])
            ++ (if HasOutput fullSig then [encodeStmt "json"] else [])).
Proof.
  apply (qualified_reference_round_trip "handler" "HandleRequest" "context" "http" "io" []
           fullSig None).
  reflexivity.
Defined.
End EndToEnd.

Section Parsed.
Local Open Scope list_scope.

(** The shape of the transform on a parsed file, with the aliases it
    hands to the synthesizer. *)
Lemma transformAST_parsed (ord : MapOrder) (file : File) (name : string)
    (sig : HandlerSignature) (pre post : list Decl) (m : Decl) :
  importsFirst (Decls file) = true ->
  Decls file = pre ++ m :: post ->
  isMain m = true ->
  existsb isMain pre = false ->
  exists imps0 imps2 nb,
    pre = imps0 ++ nb /\
    Forall (fun d => isImportDecl d = true) imps0 /\
    Forall (fun d => isImportDecl d = true) imps2 /\
    Forall (fun d => isImportDecl d = false) (nb ++ m :: post) /\
    existsb isMain nb = false /\
    let aliases := snd (addRequiredImports ord (sweep imps0 ++ nb ++ m :: post) sig) in
    transformAST ord file name sig
    = Ok (mkFile (PkgName file)
            (imps2 ++ nb
             ++ [ createHandlerStruct; createNewFunc;
                  createHandleMethod name (fst (fst aliases)) (snd (fst aliases))
                                     (snd aliases) sig ]
             ++ post)).
Proof.
  intros Hfirst Hdecls Hm Hpre.
  destruct (importsFirst_split _ Hfirst) as (imps0 & rest & Hsplit & Himps0 & Hrest).
  rewrite Hdecls in Hsplit. symmetry in Hsplit.
  destruct (imports_prefix _ _ _ _ _ Hsplit Himps0 (isMain_not_import _ Hm))
    as (nb & -> & ->).
  assert (Hnbmain : existsb isMain nb = false).
  { rewrite existsb_app in Hpre. apply orb_false_iff in Hpre as [_ H]. exact H. }
  destruct (removeLambdaImport_sweep imps0 (nb ++ m :: post) Himps0 Hrest)
    as (s & Hs & Hread).
  { destruct nb; discriminate. }
  assert (Hsw : Forall (fun d => isImportDecl d = true) (sweep imps0)).
  { clear -Himps0. induction imps0 using sweep_induction; cbn [sweep].
    - constructor.
    - rewrite H. constructor.
    - rewrite H. apply Forall_cons in Himps0 as [_ H0]. apply Forall_cons in H0 as [H1 H2].
      constructor; [exact H1 | apply IHimps0, H2].
    - rewrite H. apply Forall_cons in Himps0 as [H0 H1].
      constructor; [|apply IHimps0, H1].
      apply isImportDecl_spec in H0 as [specs ->]. reflexivity. }
  destruct (addRequiredImports_frame ord (sweep imps0) (nb ++ m :: post) sig Hsw Hrest)
    as (imps2 & Hadd & Himps2).
  exists imps0, imps2, nb.
  split; [reflexivity|]. split; [exact Himps0|]. split; [exact Himps2|].
  split; [exact Hrest|]. split; [exact Hnbmain|].
  cbv zeta. unfold transformAST. rewrite Hdecls, <- app_assoc, Hs. cbn [bind].
  rewrite Hread.
  destruct (addRequiredImports ord (sweep imps0 ++ nb ++ m :: post) sig)
    as [decls [[contextAlias httpAlias] ioAlias]].
  cbn [fst snd] in *. subst decls.
  rewrite (replaceMain_frame _ imps2 nb post m Himps2 Hnbmain Hm). reflexivity.
Qed.

Lemma adapter_not_main (name a b c : string) (sig : HandlerSignature) :
  existsb isMain [createHandlerStruct; createNewFunc; createHandleMethod name a b c sig]
  = false.
Proof. reflexivity. Qed.

Lemma imports_not_main (imps : list Decl) :
  Forall (fun d => isImportDecl d = true) imps -> existsb isMain imps = false.
Proof.
  induction 1 as [|d imps Hd _ IH]; [reflexivity|].
  cbn [existsb]. rewrite IH, orb_false_r.
  destruct d; [reflexivity | discriminate Hd].
Qed.

(** X16.  On a parsed file with exactly one declaration named [main] the
    transform yields a file without [main] that declares the adapter type,
    [New] and [Handle]; a second run of the tool on that file fails with
    "main function not found". *)
Theorem transformed_file_has_no_entry_function (ord ord' : MapOrder)
    (loaded' : option (list Package)) (file : File) (name : string)
    (sig : HandlerSignature) (pre post : list Decl) (m : Decl) :
  importsFirst (Decls file) = true ->
  Decls file = pre ++ m :: post ->
  isMain m = true ->
  existsb isMain pre = false ->
  existsb isMain post = false ->
  exists out,
    transformAST ord file name sig = Ok out /\
    hasMain out = false /\
    In createHandlerStruct (Decls out) /\
    In createNewFunc (Decls out) /\
    existsb (isFuncNamed "Handle") (Decls out) = true /\
    migrate ord' loaded' out = Err ErrMainNotFound.
Proof.
  intros Hfirst Hdecls Hm Hpre Hpost.
  destruct (transformAST_parsed ord file name sig pre post m Hfirst Hdecls Hm Hpre)
    as (imps0 & imps2 & nb & -> & Hi0 & Hi2 & Hrest & Hnb & Ht).
  cbv zeta in Ht. eexists. split; [exact Ht|].
  assert (Hno : hasMain
            (mkFile (PkgName file)
               (imps2 ++ nb
                ++ [createHandlerStruct; createNewFunc;
                    createHandleMethod name
                      (fst (fst (snd (addRequiredImports ord
                                        (sweep imps0 ++ nb ++ m :: post) sig))))
                      (snd (fst (snd (addRequiredImports ord
                                        (sweep imps0 ++ nb ++ m :: post) sig))))
                      (snd (snd (addRequiredImports ord
                                   (sweep imps0 ++ nb ++ m :: post) sig))) sig]
                ++ post)) = false).
  { unfold hasMain. cbn [Decls].
    rewrite !existsb_app, (imports_not_main imps2 Hi2), Hnb, adapter_not_main, Hpost.
    reflexivity. }
  split; [exact Hno|]. cbn [Decls].
  split; [apply in_or_app; right; apply in_or_app; right; left; reflexivity|].
  split; [apply in_or_app; right; apply in_or_app; right; right; left; reflexivity|].
  split.
  - rewrite !existsb_app. cbn [existsb isFuncNamed createHandleMethod].
    rewrite String.eqb_refl. cbn [orb]. rewrite !orb_true_r. reflexivity.
  - unfold migrate, findLambdaHandler.
    unfold hasMain in Hno. rewrite (fold_findStep_no_main _ _ Hno). reflexivity.
Qed.

Lemma transformed_file_has_no_entry_function_witness :
  exists out,
    transformAST declOrder fmtImportFile "handleRequest" fullSig = Ok out /\
    hasMain out = false /\
    In createHandlerStruct (Decls out) /\
    In createNewFunc (Decls out) /\
    existsb (isFuncNamed "Handle") (Decls out) = true /\
    migrate reversedOrder None out = Err ErrMainNotFound.
Proof.
  apply (transformed_file_has_no_entry_function declOrder reversedOrder None fmtImportFile
           "handleRequest" fullSig
           [ GenDecl IMPORT [ ImportSpec None (quoted "fmt");
                              ImportSpec None lambdaImportPath ];
             handlerDecl fullHandlerType ]
           [] (mainCalling [Ident "handleRequest"])); reflexivity.
Defined.

Lemma lastAlias_filter (p a : string) (specs : list (option string * string)) :
  (forall spec, matchesImport p spec = true -> notLambda spec = true) ->
  lastAlias p a (List.filter notLambda specs) = lastAlias p a specs.
Proof.
  intros Hp. revert a. induction specs as [|spec specs IH]; intros a; [reflexivity|].
  cbn [List.filter]. destruct (notLambda spec) eqn:E.
  - unfold lastAlias in *. cbn [fold_left]. apply IH.
  - unfold lastAlias in *. cbn [fold_left].
    destruct (matchesImport p spec) eqn:Em; [|apply IH].
    rewrite (Hp spec Em) in E. discriminate.
Qed.

Lemma key_not_lambda (p : string) (spec : option string * string) :
  In p importKeys -> matchesImport p spec = true -> notLambda spec = true.
Proof.
  intros Hk Hm. unfold matchesImport in Hm. apply String.eqb_eq in Hm.
  unfold notLambda, isLambdaPath. rewrite Hm.
  cbn in Hk. repeat (destruct Hk as [<-|Hk]; [reflexivity|]). destruct Hk.
Qed.

(** X17.  On a parsed file with a [main], the transform inserts a
    dispatch method whose aliases for [context], [net/http] and [io] are
    decided by the import specs of the input file that pass the test of
    [checkImport] for the module (the path literal, its double quotes
    trimmed, is the module's path): the default name of the module when
    none of them carries a name, and the name of the last of them that
    carries one otherwise.  The removal of the Lambda imports before the
    aliases are read does not change them. *)
Theorem handle_signature_uses_file_aliases (ord : MapOrder) (file : File) (name : string)
    (sig : HandlerSignature) (pre post : list Decl) (m : Decl) :
  importsFirst (Decls file) = true ->
  Decls file = pre ++ m :: post ->
  isMain m = true ->
  existsb isMain pre = false ->
  exists out contextAlias httpAlias ioAlias,
    transformAST ord file name sig = Ok out /\
    In (createHandleMethod name contextAlias httpAlias ioAlias sig) (Decls out) /\
    aliasRule "context" "context" (importSpecsOf (Decls file)) contextAlias /\
    aliasRule "net/http" "http" (importSpecsOf (Decls file)) httpAlias /\
    aliasRule "io" "io" (importSpecsOf (Decls file)) ioAlias.
Proof.
  intros Hfirst Hdecls Hm Hpre.
  destruct (transformAST_parsed ord file name sig pre post m Hfirst Hdecls Hm Hpre)
    as (imps0 & imps2 & nb & -> & Hi0 & Hi2 & Hrest & Hnb & Ht).
  cbv zeta in Ht. rewrite addRequiredImports_snd in Ht. cbn [fst snd] in Ht.
  eexists. eexists. eexists. eexists. split; [exact Ht|].
  split.
  { cbn [Decls]. apply in_or_app; right; apply in_or_app; right.
    right; right; left; reflexivity. }
  assert (Hspecs : List.filter notLambda (importSpecsOf (sweep imps0 ++ nb ++ m :: post))
                   = List.filter notLambda (importSpecsOf (Decls file))).
  { rewrite Hdecls, <- app_assoc, !importSpecsOf_app, !List.filter_app,
      sweep_keeps_other_imports. reflexivity. }
  assert (Hr : forall p dflt, In p importKeys ->
             aliasRule p dflt (importSpecsOf (Decls file))
               (lastAlias p dflt (importSpecsOf (sweep imps0 ++ nb ++ m :: post)))).
  { intros p dflt Hk.
    rewrite <- (lastAlias_filter p dflt _ (fun spec => key_not_lambda p spec Hk)), Hspecs.
    rewrite (lastAlias_filter p dflt _ (fun spec => key_not_lambda p spec Hk)).
    split.
    - apply lastAlias_unnamed.
    - intros b n v c -> Hmod Hc. apply lastAlias_last; assumption. }
  split; [apply Hr; cbn; tauto|]. split; apply Hr; cbn; tauto.
Qed.

Lemma handle_signature_uses_file_aliases_witness :
  exists out contextAlias httpAlias ioAlias,
    transformAST declOrder allAliasedFile "handleRequest" errorOnlySig = Ok out /\
    In (createHandleMethod "handleRequest" contextAlias httpAlias ioAlias errorOnlySig)
       (Decls out) /\
    aliasRule "context" "context" (importSpecsOf (Decls allAliasedFile)) contextAlias /\
    aliasRule "net/http" "http" (importSpecsOf (Decls allAliasedFile)) httpAlias /\
    aliasRule "io" "io" (importSpecsOf (Decls allAliasedFile)) ioAlias.
Proof.
  apply (handle_signature_uses_file_aliases declOrder allAliasedFile "handleRequest"
           errorOnlySig
           [ GenDecl IMPORT [ ImportSpec (Some "c") (quoted "context");
                              ImportSpec (Some "h") (quoted "net/http");
                              ImportSpec (Some "l") (quoted "log");
                              ImportSpec None lambdaImportPath ];
             handlerDecl errorOnlyHandlerType ]
           [] (mainCalling [Ident "handleRequest"])); reflexivity.
Defined.
End Parsed.

Section LegacyProps.
Local Open Scope list_scope.

Lemma legacy_checkDecl (st : Legacy.importState) (d : Decl) :
  Legacy.checkDecl st d = fold_left legacyStep (importsOfDecl d) st.
Proof.
  destruct d as [tok specs|]; [|reflexivity].
  destruct tok; try reflexivity.
  cbn [Legacy.checkDecl importsOfDecl]. revert st.
  induction specs as [|spec specs IH]; intros st; [reflexivity|].
  cbn [fold_left omap list_omap]. rewrite IH.
  destruct spec as [n v| |]; reflexivity.
Qed.

Lemma legacy_checkDecls (decls : list Decl) (st : Legacy.importState) :
  fold_left Legacy.checkDecl decls st = fold_left legacyStep (importSpecsOf decls) st.
Proof.
  revert st. induction decls as [|d decls IH]; intros st; [reflexivity|].
  cbn [fold_left importSpecsOf flat_map]. fold (importSpecsOf decls).
  rewrite fold_left_app, IH, legacy_checkDecl. reflexivity.
Qed.

Lemma legacyStep_eq (spec : option string * string)
    (a1 a2 a3 : string) (h1 h2 h3 h4 h5 : bool) :
  legacyStep (Legacy.mkImportState a1 a2 a3 h1 h2 h3 h4 h5) spec
  = Legacy.mkImportState
      (if matchesImport "context" spec then Legacy.named (fst spec) a1 else a1)
      (if matchesImport "net/http" spec then Legacy.named (fst spec) a2 else a2)
      (if matchesImport "io" spec then Legacy.named (fst spec) a3 else a3)
      (h1 || matchesImport "context" spec)
      (h2 || matchesImport "net/http" spec)
      (h3 || matchesImport "io" spec)
      (h4 || matchesImport "encoding/json" spec)
      (h5 || matchesImport "log" spec).
Proof.
  unfold legacyStep, Legacy.checkSpec, matchesImport. cbv zeta.
  destruct (String.eqb (strings.Trim (snd spec) quote) "context");
    destruct (String.eqb (strings.Trim (snd spec) quote) "net/http");
    destruct (String.eqb (strings.Trim (snd spec) quote) "io");
    destruct (String.eqb (strings.Trim (snd spec) quote) "encoding/json");
    destruct (String.eqb (strings.Trim (snd spec) quote) "log");
    cbn [Legacy.contextAlias Legacy.httpAlias Legacy.ioAlias Legacy.hasContext
         Legacy.hasNetHTTP Legacy.hasIO Legacy.hasJSON Legacy.hasLog];
    rewrite ?orb_true_r, ?orb_false_r; reflexivity.
Qed.

Lemma lastAlias_cons (p a : string) (spec : option string * string)
    (specs : list (option string * string)) :
  lastAlias p a (spec :: specs)
  = lastAlias p (if matchesImport p spec then Legacy.named (fst spec) a else a) specs.
Proof. reflexivity. Qed.

Lemma legacy_state (specs : list (option string * string))
    (a1 a2 a3 : string) (h1 h2 h3 h4 h5 : bool) :
  fold_left legacyStep specs (Legacy.mkImportState a1 a2 a3 h1 h2 h3 h4 h5)
  = Legacy.mkImportState
      (lastAlias "context" a1 specs) (lastAlias "net/http" a2 specs)
      (lastAlias "io" a3 specs)
      (h1 || existsb (matchesImport "context") specs)
      (h2 || existsb (matchesImport "net/http") specs)
      (h3 || existsb (matchesImport "io") specs)
      (h4 || existsb (matchesImport "encoding/json") specs)
      (h5 || existsb (matchesImport "log") specs).
Proof.
  revert a1 a2 a3 h1 h2 h3 h4 h5.
  induction specs as [|spec specs IH]; intros a1 a2 a3 h1 h2 h3 h4 h5.
  - cbn. rewrite !orb_false_r. reflexivity.
  - cbn [fold_left existsb]. rewrite legacyStep_eq, IH, !lastAlias_cons, !orb_assoc.
    reflexivity.
Qed.

Lemma legacy_addRequiredImports_eq (decls : list Decl) (sig : HandlerSignature) :
  Legacy.addRequiredImports decls sig = addRequiredImports legacyOrder decls sig.
Proof.
  rewrite addRequiredImports_eq. unfold Legacy.addRequiredImports. cbv zeta.
  rewrite legacy_checkDecls. unfold Legacy.initialState. rewrite legacy_state.
  cbn [Legacy.contextAlias Legacy.httpAlias Legacy.ioAlias Legacy.hasContext
       Legacy.hasNetHTTP Legacy.hasIO Legacy.hasJSON Legacy.hasLog orb].
  unfold legacyOrder. cbn [orderMissing orderCreate List.filter].
  change (isKey "context") with true. change (isKey "encoding/json") with true.
  change (isKey "io") with true. change (isKey "log") with true.
  change (isKey "net/http") with true.
  change (neededFor sig "context") with true.
  change (neededFor sig "encoding/json") with (HasOutput sig).
  change (neededFor sig "io") with (HasInput sig).
  change (neededFor sig "log") with (HasError sig).
  change (neededFor sig "net/http") with true.
  fold (importFound "context" decls). fold (importFound "net/http" decls).
  fold (importFound "io" decls). fold (importFound "encoding/json" decls).
  fold (importFound "log" decls).
  generalize (importFound "context" decls) (importFound "net/http" decls)
             (importFound "io" decls) (importFound "encoding/json" decls)
             (importFound "log" decls).
  intros c h i j l.
  destruct sig as [sc si so se]. cbn [HasInput HasOutput HasError].
  destruct c, h, i, j, l, si, so, se; reflexivity.
Qed.

Lemma legacyOrder_valid : validOrder legacyOrder.
Proof.
  assert (H : Permutation ["context"; "encoding/json"; "io"; "log"; "net/http"] importKeys).
  { apply NoDup_Permutation.
    - apply NoDup_ListNoDup. repeat constructor; cbn; intuition discriminate.
    - apply NoDup_ListNoDup. repeat constructor; cbn; intuition discriminate.
    - intros x. unfold importKeys. rewrite !elem_of_cons, !elem_of_nil. tauto. }
  split; exact H.
Qed.

(** X18.  The earlier copy of [addRequiredImports] ([cmd/main.go])
    computes, for every file and model, what the current one computes in a
    run that meets the keys of the map in the order context,
    encoding/json, io, log, net/http, which is an order a run may meet. *)
Theorem legacy_addRequiredImports_fixed_order :
  validOrder legacyOrder /\
  forall decls sig,
    Legacy.addRequiredImports decls sig = addRequiredImports legacyOrder decls sig.
Proof.
  split; [exact legacyOrder_valid | exact legacy_addRequiredImports_eq].
Qed.
End LegacyProps.

Section Names.
Local Open Scope list_scope.

Lemma analyzeFuncType_stripNames (typ : FuncType) :
  analyzeFuncType (stripNames typ) = analyzeFuncType typ.
Proof.
  destruct typ as [ps rs]. unfold stripNames, analyzeFuncType. cbn [Params Results].
  destruct ps as [[|[n t] ps]|], rs as [[|[n' t'] rs]|];
    cbn [option_map map FieldType length]; rewrite ?length_map; reflexivity.
Qed.

Lemma stripNames_types (typ typ' : FuncType) :
  option_map (map FieldType) (Params typ) = option_map (map FieldType) (Params typ') ->
  option_map (map FieldType) (Results typ) = option_map (map FieldType) (Results typ') ->
  stripNames typ = stripNames typ'.
Proof.
  assert (H : forall a b : option (list Field),
             option_map (map FieldType) a = option_map (map FieldType) b ->
             option_map (map (fun fd => mkField [] (FieldType fd))) a
             = option_map (map (fun fd => mkField [] (FieldType fd))) b).
  { intros [a|] [b|] E; try discriminate E; [|reflexivity].
    cbn in *. injection E as E. f_equal.
    rewrite <- (map_map FieldType (mkField [])), E, map_map. reflexivity. }
  destruct typ as [ps rs], typ' as [ps' rs']. cbn [Params Results].
  intros Hp Hr. unfold stripNames. cbn [Params Results].
  rewrite (H _ _ Hp), (H _ _ Hr). reflexivity.
Qed.

(** X19.  The local classification looks at the types of the parameter
    and result fields only: two declarations whose field lists carry the
    same types get the same model, however many names each field declares
    (a group [a, b T] counts as one parameter). *)
Theorem classification_ignores_parameter_names (typ typ' : FuncType) :
  option_map (map FieldType) (Params typ) = option_map (map FieldType) (Params typ') ->
  option_map (map FieldType) (Results typ) = option_map (map FieldType) (Results typ') ->
  analyzeFuncType typ = analyzeFuncType typ'.
Proof.
  intros Hp Hr.
  rewrite <- (analyzeFuncType_stripNames typ), <- (analyzeFuncType_stripNames typ').
  rewrite (stripNames_types typ typ' Hp Hr). reflexivity.
Qed.

Lemma classification_ignores_parameter_names_witness :
  analyzeFuncType
    (mkFuncType (Some [mkField ["a"; "b"; "c"] (Ident "string")])
                (Some [mkField ["err"] (Ident "error")]))
  = analyzeFuncType
      (mkFuncType (Some [mkField ["event"] (Ident "string")])
                  (Some [mkField [] (Ident "error")])).
Proof.
  apply classification_ignores_parameter_names; reflexivity.
Defined.
End Names.

Section RunSucceeds.
Local Open Scope list_scope.

Lemma findLambdaHandler_Ok_hasMain (file : File) (r : HandlerReference) :
  findLambdaHandler file = Ok r -> existsb isMain (Decls file) = true.
Proof.
  intros H. destruct (existsb isMain (Decls file)) eqn:E; [reflexivity|].
  unfold findLambdaHandler in H. rewrite (fold_findStep_no_main _ _ E) in H.
  discriminate H.
Qed.

Lemma first_main_split (ds : list Decl) :
  existsb isMain ds = true ->
  exists pre m post, ds = pre ++ m :: post /\ isMain m = true /\ existsb isMain pre = false.
Proof.
  induction ds as [|d ds IH]; intros H; [discriminate|].
  cbn [existsb] in H. destruct (isMain d) eqn:E.
  - exists [], d, ds. repeat split. exact E.
  - cbn [orb] in H. destruct (IH H) as (pre & m & post & -> & Hm & Hpre).
    exists (d :: pre), m, post. split; [reflexivity|]. split; [exact Hm|].
    cbn [existsb]. rewrite E, Hpre. reflexivity.
Qed.

(** X20.  On a parsed file, once the handler is located and classified
    (by either strategy), the run ends normally: the output file keeps the
    package name and contains the adapter type, the constructor and the
    dispatch method built for the located qualified name and the model. *)
Theorem migrate_succeeds_on_parsed_file (ord : MapOrder) (loaded : option (list Package))
    (file : File) (handlerRef : HandlerReference) (handlerSig : HandlerSignature) :
  importsFirst (Decls file) = true ->
  findLambdaHandler file = Ok handlerRef ->
  match analyzeHandlerSignature file (SimpleName handlerRef) with
  | Ok sig => Ok sig
  | _ => analyzeHandlerSignatureWithTypes loaded (SimpleName handlerRef)
  end = Ok handlerSig ->
  exists out contextAlias httpAlias ioAlias,
    migrate ord loaded file = Ok out /\
    PkgName out = PkgName file /\
    In createHandlerStruct (Decls out) /\
    In createNewFunc (Decls out) /\
    In (createHandleMethod (QualifiedName handlerRef) contextAlias httpAlias ioAlias
          handlerSig) (Decls out).
Proof.
  intros Hfirst Hfind Hcls.
  destruct (first_main_split _ (findLambdaHandler_Ok_hasMain _ _ Hfind))
    as (pre & m & post & Hdecls & Hm & Hpre).
  destruct (transformAST_parsed ord file (QualifiedName handlerRef) handlerSig
              pre post m Hfirst Hdecls Hm Hpre)
    as (imps0 & imps2 & nb & _ & _ & _ & _ & _ & Ht).
  cbv zeta in Ht.
  eexists. eexists. eexists. eexists.
  split.
  { unfold migrate. rewrite Hfind. cbn [bind]. rewrite Hcls. cbn [bind]. exact Ht. }
  cbn [PkgName Decls]. split; [reflexivity|].
  split; [apply in_or_app; right; apply in_or_app; right; left; reflexivity|].
  split; [apply in_or_app; right; apply in_or_app; right; right; left; reflexivity|].
  apply in_or_app; right; apply in_or_app; right. right; right; left; reflexivity.
Qed.

Lemma migrate_succeeds_on_parsed_file_witness :
  exists out contextAlias httpAlias ioAlias,
    migrate reversedOrder None fmtImportFile = Ok out /\
    PkgName out = PkgName fmtImportFile /\
    In createHandlerStruct (Decls out) /\
    In createNewFunc (Decls out) /\
    In (createHandleMethod (QualifiedName (mkRef "handleRequest" "handleRequest"))
          contextAlias httpAlias ioAlias fullSig) (Decls out).
Proof.
  apply (migrate_succeeds_on_parsed_file reversedOrder None fmtImportFile
           (mkRef "handleRequest" "handleRequest") fullSig); reflexivity.
Defined.
End RunSucceeds.

Section SkipFacts.

Lemma skipsLambdaImport_single (d : Decl) : skipsLambdaImport [d] = false.
Proof. cbn [skipsLambdaImport]. destruct (emptied d); reflexivity. Qed.

Lemma skipsLambdaImport_none_emptied (imps : list Decl) :
  Forall (fun d => emptied d = false) imps -> skipsLambdaImport imps = false.
Proof.
  induction 1 as [|d imps Hd _ IH]; [reflexivity|].
  cbn [skipsLambdaImport]. rewrite Hd. exact IH.
Qed.

End SkipFacts.

(** ** Imports written as raw string literals *)

Section RawLiteral.

Lemma trimRight_backquote (s : string) :
  strings.TrimRight (s ++ String backquote EmptyString)%string quote
  = (s ++ String backquote EmptyString)%string.
Proof.
  induction s as [|a s IH].
  - reflexivity.
  - rewrite append_cons. cbn [strings.TrimRight]. rewrite IH.
    destruct s; reflexivity.
Qed.

Lemma trim_rawLiteral (q : string) : strings.Trim (rawLiteral q) quote = rawLiteral q.
Proof.
  unfold strings.Trim, rawLiteral.
  change (strings.TrimLeft (String backquote (q ++ String backquote EmptyString)%string) quote)
    with (String backquote (q ++ String backquote EmptyString)%string).
  change (String backquote (q ++ String backquote EmptyString)%string)
    with (String backquote q ++ String backquote EmptyString)%string.
  apply trimRight_backquote.
Qed.

End RawLiteral.

Section RawImport.
Local Open Scope list_scope.

(** A raw string literal passes the test of [checkImport] for none of the
    required modules. *)
Lemma matchesImport_rawLiteral (p : string) (name : option string) (q : string) :
  In p importKeys -> matchesImport p (name, rawLiteral q) = false.
Proof.
  intros Hk. unfold matchesImport. cbn [snd]. rewrite trim_rawLiteral.
  apply String.eqb_neq. intros <-.
  cbn in Hk. unfold rawLiteral in Hk.
  repeat (destruct Hk as [Hk | Hk]; [discriminate Hk|]). exact Hk.
Qed.

(** X21.  An import whose path is written as a raw string literal is not
    taken for an import of a required module.  When every import spec of
    the file either is written as a raw string literal or has a path
    literal that, its double quotes trimmed, is not the path of the
    required module [p], [addRequiredImports] adds the spec
    [createImportSpec] writes for [p], and the alias it returns for [p] is
    the default name, whatever names the raw imports carry. *)
Theorem raw_string_import_not_recognised
    (ord : MapOrder) (decls : list Decl) (sig : HandlerSignature) (p : string) :
  validOrder ord ->
  In p importKeys ->
  neededFor sig p = true ->
  Forall (fun spec => (exists q, snd spec = rawLiteral q)
                      \/ strings.Trim (snd spec) quote <> p) (importSpecsOf decls) ->
  In (plainImport p) (importSpecsOf (fst (addRequiredImports ord decls sig)))
  /\ let '(contextAlias, httpAlias, ioAlias) := snd (addRequiredImports ord decls sig) in
     (p = "context" -> contextAlias = "context")
     /\ (p = "net/http" -> httpAlias = "http")
     /\ (p = "io" -> ioAlias = "io").
Proof.
  intros Hv Hk Hnd Hraw.
  assert (Hno : Forall (fun spec => matchesImport p spec = false) (importSpecsOf decls)).
  { eapply Forall_impl; [exact Hraw|]. intros [name lit] [[q Hq] | Hne]; cbn [snd] in *.
    - subst lit. apply matchesImport_rawLiteral, Hk.
    - unfold matchesImport. cbn [snd]. apply String.eqb_neq, Hne. }
  split.
  - assert (Hnf : importFound p decls = false).
    { apply importFound_false. eapply Forall_impl; [exact Hno|].
      intros spec H. unfold matchesImport in H. apply String.eqb_neq, H. }
    destruct (addRequiredImports_specs ord decls sig)
      as (before & after & added & _ & -> & _ & Hadd).
    apply in_or_app; right; apply in_or_app; left. apply in_map.
    destruct (validOrder_In ord p Hv Hk) as [Hm Hc].
    assert (Hin : In p (List.filter
                          (fun k => isKey k
                                    && (neededFor sig k && negb (importFound k decls)))
                          (orderMissing ord))).
    { apply filter_In. split; [exact Hm|].
      rewrite Hnd, Hnf. cbn [negb andb]. rewrite andb_true_r. apply isKey_In, Hk. }
    destruct Hadd as [[_ Hnil] | [-> | [_ ->]]].
    + rewrite Hnil in Hin. destruct Hin.
    + exact Hin.
    + apply filter_In. split; [exact Hc|]. rewrite Hnd, andb_true_r. apply isKey_In, Hk.
  - rewrite addRequiredImports_snd.
    assert (Hd : forall dflt, lastAlias p dflt (importSpecsOf decls) = dflt).
    { intros dflt. apply lastAlias_unnamed. eapply Forall_impl; [exact Hno|].
      intros spec H H'. congruence. }
    repeat split; intros ->; apply Hd.
Qed.

Lemma raw_string_import_not_recognised_witness :
  In (plainImport "net/http")
     (importSpecsOf (fst (addRequiredImports declOrder (Decls rawHttpFile) errorOnlySig)))
  /\ let '(contextAlias, httpAlias, ioAlias) :=
       snd (addRequiredImports declOrder (Decls rawHttpFile) errorOnlySig) in
     ("net/http" = "context" -> contextAlias = "context")
     /\ ("net/http" = "net/http" -> httpAlias = "http")
     /\ ("net/http" = "io" -> ioAlias = "io").
Proof.
  apply (raw_string_import_not_recognised declOrder (Decls rawHttpFile) errorOnlySig
           "net/http").
  - split; reflexivity.
  - cbn. tauto.
  - reflexivity.
  - change (importSpecsOf (Decls rawHttpFile))
      with [(Some "h", rawLiteral "net/http"); (@None string, lambdaImportPath)].
    apply Forall_cons. split; [left; exists "net/http"; reflexivity|].
    apply Forall_cons. split; [right; vm_compute; discriminate | constructor].
Defined.

End RawImport.
